(** * Invoice line-item extraction: a shallow embedding of [parse.py] and
      [custom_parsers.py]

    The development follows the two source files:

    - [Py]: the Python built-ins the parsers call ([str] methods, [int],
      [float], [Decimal]), written out as functions.  Text is a [string]
      whose characters are the code points below 256 (ASCII and Latin-1);
      the character classes are Python's on these code points (whitespace
      is U+0009-U+000D, U+001C-U+0020, U+0085 and U+00A0, as [str.isspace]
      and the regular expression class \s have it).  A text with a
      character above U+00FF is not a value of the model.
    - [Re]: the fragment of Python's [re] the parsers use: a parser for the
      pattern syntax, so that every pattern below is the source's pattern
      text, and a backtracking matcher with Python's priorities (greedy and
      lazy repetition, ordered alternation, capture groups).
    - the document model handed over by the PDF reader (pages with an
      optional text and a list of tables), the [LineItem] record, and the
      outcome monad for Python exceptions.
    - [parse.py]: [decode_cid_references] and the table-based
      [InvoiceParser].
    - [custom_parsers.py]: the Itoya, Montblanc, Kenro, Avanti, Exaclair,
      Chartpak, Pilot, Retro 51, TWSBI and JPT scanners, Chartpak's
      [parse_with_backorders], [detect_vendor], the [CUSTOM_PARSERS]
      registry and [parse_with_custom_parser].

    Writes to standard output ([print]) are not modelled. *)

From Stdlib Require Import ZArith NArith Ascii String List Bool Lia.
From stdpp Require Import base option list gmap strings.

Open Scope string_scope.
Open Scope Z_scope.

(* ===================================================================== *)
(** * Python built-ins *)
(* ===================================================================== *)

Module Py.

(** ** Characters *)

Definition code (c : ascii) : N := N_of_ascii c.

Definition in_range (lo hi : N) (c : ascii) : bool :=
  ((lo <=? code c) && (code c <=? hi))%N.

(** [str.isspace] on one character, which is also the class \s of [re]:
    the ASCII white space, the separators U+001C-U+001F, and the Latin-1
    characters U+0085 (next line) and U+00A0 (no-break space). *)
Definition is_space (c : ascii) : bool :=
  in_range 9 13 c || in_range 28 32 c
  || (code c =? 133)%N || (code c =? 160)%N.

Definition is_digit (c : ascii) : bool := in_range 48 57 c.
Definition is_upper (c : ascii) : bool := in_range 65 90 c.
Definition is_lower (c : ascii) : bool := in_range 97 122 c.
Definition is_alpha (c : ascii) : bool := is_upper c || is_lower c.

(** The letters of Latin-1: U+00AA, U+00B5, U+00BA, and U+00C0-U+00FF
    without the signs U+00D7 and U+00F7. *)
Definition is_latin1_letter (c : ascii) : bool :=
  (code c =? 170)%N || (code c =? 181)%N || (code c =? 186)%N
  || in_range 192 214 c || in_range 216 246 c || in_range 248 255 c.

(** The superscript digits of Latin-1 (U+00B2, U+00B3, U+00B9), which
    [str.isdigit] takes and [int] does not. *)
Definition is_superscript (c : ascii) : bool :=
  (code c =? 178)%N || (code c =? 179)%N || (code c =? 185)%N.

(** The class \w of [re]: what [str.isalnum] takes (letters, digits, the
    superscript digits and the fractions U+00BC-U+00BE) and the
    underscore. *)
Definition is_word (c : ascii) : bool :=
  is_alpha c || is_digit c || (code c =? 95)%N
  || is_latin1_letter c || is_superscript c || in_range 188 190 c.

(** [c.lower()]: the upper case letters of ASCII, and those of Latin-1
    (U+00C0-U+00DE without the sign U+00D7). *)
Definition lower_char (c : ascii) : ascii :=
  if is_upper c || in_range 192 214 c || in_range 216 222 c
  then ascii_of_N (code c + 32) else c.

Definition digit_val (c : ascii) : Z := Z.of_N (code c) - 48.

(** ** Strings *)

Definition chars (s : string) : list ascii := list_ascii_of_string s.
Definition str (l : list ascii) : string := string_of_list_ascii l.

(** [s.lower()] *)
Fixpoint lower (s : string) : string :=
  match s with
  | EmptyString => EmptyString
  | String c s' => String (lower_char c) (lower s')
  end.

(** [s.startswith(p)] *)
Fixpoint startswith (p s : string) : bool :=
  match p, s with
  | EmptyString, _ => true
  | String a p', String b s' => Ascii.eqb a b && startswith p' s'
  | String _ _, EmptyString => false
  end.

(** [needle in hay] *)
Fixpoint contains (needle hay : string) : bool :=
  startswith needle hay ||
  match hay with
  | EmptyString => false
  | String _ hay' => contains needle hay'
  end.

Fixpoint lstrip_chars (l : list ascii) : list ascii :=
  match l with
  | c :: l' => if is_space c then lstrip_chars l' else l
  | [] => []
  end.

Definition rstrip_chars (l : list ascii) : list ascii :=
  rev (lstrip_chars (rev l)).

(** [s.strip()] *)
Definition strip (s : string) : string :=
  str (rstrip_chars (lstrip_chars (chars s))).

(** [s.split(sep)] for a one-character separator: the pieces between the
    occurrences of [sep], empty pieces included. *)
Fixpoint split_chars (sep : ascii) (cur : list ascii) (l : list ascii)
  : list string :=
  match l with
  | [] => [str (rev cur)]
  | c :: l' =>
      if Ascii.eqb c sep then str (rev cur) :: split_chars sep [] l'
      else split_chars sep (c :: cur) l'
  end.

Definition split_on (sep : ascii) (s : string) : list string :=
  split_chars sep [] (chars s).

(** [s.split()]: the maximal runs of non-whitespace characters. *)
Fixpoint words_chars (cur : list ascii) (l : list ascii) : list string :=
  match l with
  | [] => match cur with [] => [] | _ => [str (rev cur)] end
  | c :: l' =>
      if is_space c
      then match cur with
           | [] => words_chars [] l'
           | _ => str (rev cur) :: words_chars [] l'
           end
      else words_chars (c :: cur) l'
  end.

Definition split_ws (s : string) : list string := words_chars [] (chars s).

(** [sep.join(parts)] *)
Fixpoint join (sep : string) (parts : list string) : string :=
  match parts with
  | [] => ""
  | [p] => p
  | p :: rest => p +:+ sep +:+ join sep rest
  end.

(** [s.replace(c, by)] for a one-character [c]. *)
Fixpoint replace (c : ascii) (by_ : string) (s : string) : string :=
  match s with
  | EmptyString => EmptyString
  | String a s' =>
      if Ascii.eqb a c then by_ +:+ replace c by_ s'
      else String a (replace c by_ s')
  end.

(** [s.endswith(p)] *)
Definition endswith (p s : string) : bool :=
  startswith (str (rev (chars p))) (str (rev (chars s))).

(** [s.isdigit()] *)
Definition isdigit (s : string) : bool :=
  match chars s with
  | [] => false
  | l => forallb (fun c => is_digit c || is_superscript c) l
  end.

(** Truthiness of a string: [bool(s)]. *)
Definition truthy (s : string) : bool := negb (String.eqb s "").

(** Truthiness of an optional string ([None] and [""] are falsy). *)
Definition truthy_opt (o : option string) : bool :=
  match o with Some s => truthy s | None => false end.

(** ** Exceptions

    A call either returns a value or raises; [catch] is a [try] block with
    one [except] clause. *)

Inductive exn : Set :=
| ValueError
| OverflowError
| InvalidOperation
| IndexError.

Inductive outcome (A : Type) : Type :=
| Ok (a : A)
| Raise (e : exn).
Arguments Ok {A} a.
Arguments Raise {A} e.

Definition bind {A B : Type} (c : outcome A) (k : A -> outcome B) : outcome B :=
  match c with
  | Ok a => k a
  | Raise e => Raise e
  end.

Definition catch {A : Type} (c : outcome A) (caught : exn -> bool)
  (handler : outcome A) : outcome A :=
  match c with
  | Ok a => Ok a
  | Raise e => if caught e then handler else Raise e
  end.

Definition is_ok {A : Type} (c : outcome A) : bool :=
  match c with Ok _ => true | Raise _ => false end.

(** ** [int(s)] *)

(** The white space [int] and [float] skip around a literal: the white
    space of C, and the Latin-1 white space, which the conversion to an
    ASCII literal turns into a space first. *)
Definition is_cspace (c : ascii) : bool :=
  in_range 9 13 c || (code c =? 32)%N
  || (code c =? 133)%N || (code c =? 160)%N.

Fixpoint ldrop (p : ascii -> bool) (l : list ascii) : list ascii :=
  match l with
  | c :: l' => if p c then ldrop p l' else l
  | [] => []
  end.

Definition trim (p : ascii -> bool) (l : list ascii) : list ascii :=
  rev (ldrop p (rev (ldrop p l))).

(** An underscore in a numeric literal stands between two digits. *)
Fixpoint underscores_ok (prev_digit : bool) (l : list ascii) : bool :=
  match l with
  | [] => true
  | c :: l' =>
      if Ascii.eqb c "_"
      then prev_digit && match l' with
                         | d :: _ => is_digit d
                         | [] => false
                         end && underscores_ok false l'
      else underscores_ok (is_digit c) l'
  end.

Definition drop_underscores (l : list ascii) : list ascii :=
  List.filter (fun c => negb (Ascii.eqb c "_")) l.

(** The value of a digit string, most significant digit first. *)
Definition digits_val (l : list ascii) : Z :=
  fold_left (fun acc c => 10 * acc + digit_val c) l 0.

(** An optional sign; [true] is minus. *)
Definition take_sign (l : list ascii) : bool * list ascii :=
  match l with
  | c :: l' =>
      if Ascii.eqb c "-" then (true, l')
      else if Ascii.eqb c "+" then (false, l')
      else (false, l)
  | [] => (false, [])
  end.

(** [sys.get_int_max_str_digits()]: the interpreter's default limit on the
    digits of a decimal literal, leading zeros counted, sign and
    underscores not. *)
Definition int_max_str_digits : nat := 4300.

(** [int(s)] for a string [s], base 10. *)
Definition int (s : string) : outcome Z :=
  let l := trim is_cspace (chars s) in
  if negb (underscores_ok false l) then Raise ValueError else
  let '(neg, ds) := take_sign (drop_underscores l) in
  match ds with
  | [] => Raise ValueError
  | _ => if forallb is_digit ds
         then if (int_max_str_digits <? List.length ds)%nat
              then Raise ValueError
              else Ok (if neg then - digits_val ds else digits_val ds)
         else Raise ValueError
  end.

(** ** [float]

    A binary64 value: finite values are [(-1)^neg * m * 2^e] in the
    format's canonical form ([2^52 <= m < 2^53] with [-1074 <= e <= 971],
    or [m < 2^52] with [e = -1074]). *)

Inductive float : Set :=
| Fin (neg : bool) (m : Z) (e : Z)
| Inf (neg : bool)
| NaN.

(** [n / d] rounded to the nearest integer, ties to even (for [0 <= n],
    [0 < d]). *)
Definition div_half_even (n d : Z) : Z :=
  let q := n / d in
  let r := n mod d in
  if 2 * r <? d then q
  else if d <? 2 * r then q + 1
  else if Z.even q then q else q + 1.

(** The binary64 value nearest to [n / d] (for [0 <= n], [0 < d]), ties to
    even, overflowing to infinity. *)
Definition round64 (neg : bool) (n d : Z) : float :=
  if n =? 0 then Fin neg 0 (-1074) else
  let e0 := Z.log2 n - Z.log2 d in
  let ge := if 0 <=? e0 then d * 2 ^ e0 <=? n else d <=? n * 2 ^ (- e0) in
  let e := if ge then e0 else e0 - 1 in
  let q := Z.max (e - 52) (-1074) in
  let m := if 0 <=? q then div_half_even n (d * 2 ^ q)
           else div_half_even (n * 2 ^ (- q)) d in
  let '(m, q) := if m =? 2 ^ 53 then (2 ^ 52, q + 1) else (m, q) in
  if 971 <? q then Inf neg else Fin neg m q.

(** The binary64 value nearest to [c * 10^e10] (for [0 <= c]), where
    [ndigits] is the number of digits of [c]: past 400 digits before, or
    after, the decimal point the value is infinite, or zero. *)
Definition round64_dec (neg : bool) (c e10 : Z) (ndigits : Z) : float :=
  if c =? 0 then Fin neg 0 (-1074)
  else if 400 <? e10 + ndigits then Inf neg
  else if e10 + ndigits <? -400 then Fin neg 0 (-1074)
  else if 0 <=? e10 then round64 neg (c * 10 ^ e10) 1
  else round64 neg c (10 ^ (- e10)).

Definition float_of_Z (z : Z) : float := round64 (z <? 0) (Z.abs z) 1.

(** Leading digits of [l] and what follows them. *)
Fixpoint span_digits (l : list ascii) : list ascii * list ascii :=
  match l with
  | c :: l' =>
      if is_digit c
      then let '(ds, r) := span_digits l' in (c :: ds, r)
      else ([], l)
  | [] => ([], [])
  end.

(** The exponent part of a literal: [e], an optional sign, digits. *)
Definition take_exponent (l : list ascii) : option Z :=
  match l with
  | [] => Some 0
  | c :: l' =>
      if Ascii.eqb (lower_char c) "e" then
        let '(neg, ds) := take_sign l' in
        match ds with
        | [] => None
        | _ => if forallb is_digit ds
               then Some (if neg then - digits_val ds else digits_val ds)
               else None
        end
      else None
  end.

(** [float(s)] for a string [s]. *)
Definition float_of_str (s : string) : outcome float :=
  let l := trim is_cspace (chars s) in
  if negb (underscores_ok false l) then Raise ValueError else
  let '(neg, body) := take_sign (drop_underscores l) in
  let low := lower (str body) in
  if String.eqb low "inf" || String.eqb low "infinity" then Ok (Inf neg)
  else if String.eqb low "nan" then Ok NaN
  else
    let '(ip, r1) := span_digits body in
    let '(fp, r2) :=
      match r1 with
      | c :: r1' => if Ascii.eqb c "." then span_digits r1' else ([], r1)
      | [] => ([], [])
      end in
    match (ip ++ fp)%list with
    | [] => Raise ValueError
    | ds =>
        match take_exponent r2 with
        | None => Raise ValueError
        | Some ex =>
            Ok (round64_dec neg (digits_val ds)
                  (ex - Z.of_nat (List.length fp))
                  (Z.of_nat (List.length (ldrop (Ascii.eqb "0") ds))))
        end
    end.

(** [x == 0] *)
Definition float_is_zero (x : float) : bool :=
  match x with Fin _ m _ => m =? 0 | _ => false end.

(** [int(x)]: truncation toward zero. *)
Definition int_of_float (x : float) : outcome Z :=
  match x with
  | Fin neg m e =>
      let a := if 0 <=? e then m * 2 ^ e else m / 2 ^ (- e) in
      Ok (if neg then - a else a)
  | Inf _ => Raise OverflowError
  | NaN => Raise ValueError
  end.

(** [x == n] for a float [x] and an int [n]. *)
Definition float_eq_int (x : float) (n : Z) : bool :=
  match x with
  | Fin neg m e =>
      let s := if neg then -1 else 1 in
      if 0 <=? e then s * m * 2 ^ e =? n else s * m =? n * 2 ^ (- e)
  | _ => false
  end.

(** ** [decimal.Decimal]

    A finite decimal number [(-1)^dneg * dcoef * 10^dexp] with [0 <= dcoef].
    Arithmetic is that of the default context: every result is the exact
    result rounded to [prec = 28] significant digits, ties to even.  The
    special values (infinities, NaN) and the exponent limits of the
    context are not modelled: no call site below can produce them from a
    field of digits, commas and periods. *)

Record decimal : Set := Dec { dneg : bool; dcoef : Z; dexp : Z }.

Definition prec : Z := 28.

Fixpoint num_digits_from (fuel : nat) (k : Z) (n : Z) : Z :=
  match fuel with
  | O => k
  | S fuel' => if n <? 10 ^ k then k else num_digits_from fuel' (k + 1) n
  end.

(** The number of decimal digits of [n] ([len(str(n))] for [0 <= n]). *)
Definition num_digits (n : Z) : Z :=
  num_digits_from (Z.to_nat (Z.log2 n) + 1) 1 n.

(** [Decimal._fix]: round the coefficient to [prec] digits. *)
Definition fix_prec (d : decimal) : decimal :=
  let nd := num_digits (dcoef d) in
  if nd <=? prec then d else
  let drop := nd - prec in
  let c := div_half_even (dcoef d) (10 ^ drop) in
  if c =? 10 ^ prec
  then Dec (dneg d) (10 ^ (prec - 1)) (dexp d + drop + 1)
  else Dec (dneg d) c (dexp d + drop).

(** [Decimal(s)] for a string [s] spelling a finite number. *)
Definition Decimal (s : string) : outcome decimal :=
  let l := drop_underscores (trim is_space (chars s)) in
  let '(neg, body) := take_sign l in
  let '(ip, r1) := span_digits body in
  let '(fp, r2) :=
    match r1 with
    | c :: r1' => if Ascii.eqb c "." then span_digits r1' else ([], r1)
    | [] => ([], [])
    end in
  match (ip ++ fp)%list with
  | [] => Raise InvalidOperation
  | ds =>
      match take_exponent r2 with
      | None => Raise InvalidOperation
      | Some ex => Ok (Dec neg (digits_val ds) (ex - Z.of_nat (List.length fp)))
      end
  end.

Definition signed_coef (d : decimal) : Z :=
  if dneg d then - dcoef d else dcoef d.

(** [a - b] *)
Definition dec_sub (a b : decimal) : decimal :=
  let e := Z.min (dexp a) (dexp b) in
  let c := signed_coef a * 10 ^ (dexp a - e) - signed_coef b * 10 ^ (dexp b - e) in
  fix_prec (Dec (c <? 0) (Z.abs c) e).

(** [a * b] *)
Definition dec_mul (a b : decimal) : decimal :=
  fix_prec (Dec (xorb (dneg a) (dneg b)) (dcoef a * dcoef b) (dexp a + dexp b)).

Fixpoint strip_zeros (fuel : nat) (c e ideal : Z) : Z * Z :=
  match fuel with
  | O => (c, e)
  | S fuel' =>
      if (e <? ideal) && (c mod 10 =? 0)
      then strip_zeros fuel' (c / 10) (e + 1) ideal
      else (c, e)
  end.

(** [a / b] for a non-zero [b]: the quotient to [prec + 1] digits with a
    sticky last digit, then rounded. *)
Definition dec_div (a b : decimal) : decimal :=
  let sign := xorb (dneg a) (dneg b) in
  if dcoef a =? 0 then fix_prec (Dec sign 0 (dexp a - dexp b)) else
  let shift := num_digits (dcoef b) - num_digits (dcoef a) + prec + 1 in
  let e := dexp a - dexp b - shift in
  let '(n, d) := if 0 <=? shift then (dcoef a * 10 ^ shift, dcoef b)
                 else (dcoef a, dcoef b * 10 ^ (- shift)) in
  let q := n / d in
  let r := n mod d in
  if negb (r =? 0)
  then fix_prec (Dec sign (if q mod 5 =? 0 then q + 1 else q) e)
  else let '(c, e') := strip_zeros (Z.to_nat shift) q e (dexp a - dexp b) in
       fix_prec (Dec sign c e').

(** [d.quantize(Decimal("0.01"), rounding=ROUND_HALF_UP)] *)
Definition quantize_cents (d : decimal) : outcome decimal :=
  if dcoef d =? 0 then Ok (Dec (dneg d) 0 (-2)) else
  if prec <? (num_digits (dcoef d) + dexp d - 1) + 2 + 1
  then Raise InvalidOperation else
  let c := if -2 <=? dexp d then dcoef d * 10 ^ (dexp d + 2)
           else let p := 10 ^ (-2 - dexp d) in
                if p <=? 2 * (dcoef d mod p)
                then dcoef d / p + 1 else dcoef d / p in
  if prec <? num_digits c then Raise InvalidOperation
  else Ok (Dec (dneg d) c (-2)).

(** [float(d)] *)
Definition float_of_decimal (d : decimal) : float :=
  round64_dec (dneg d) (dcoef d) (dexp d) (num_digits (dcoef d)).

(** ** [repr] and [str] of a table row *)

Definition hex_digit (n : N) : ascii :=
  if (n <? 10)%N then ascii_of_N (48 + n) else ascii_of_N (87 + n).

(** [repr(s)] for a string [s]: single quotes unless the text has a single
    quote and no double quote; backslash escapes as Python writes them. *)
Definition repr_str (s : string) : string :=
  let squote := "'"%char in
  let dquote := "034"%char in
  let l := chars s in
  let q := if existsb (Ascii.eqb squote) l && negb (existsb (Ascii.eqb dquote) l)
           then dquote else squote in
  let esc (c : ascii) : list ascii :=
    if Ascii.eqb c "\" then ["\"; "\"]%char
    else if Ascii.eqb c q then ["\"%char; c]
    else if Ascii.eqb c "009" then ["\"; "t"]%char
    else if Ascii.eqb c "010" then ["\"; "n"]%char
    else if Ascii.eqb c "013" then ["\"; "r"]%char
    else if (code c <? 32)%N || in_range 127 160 c || (code c =? 173)%N
         then ["\"%char; "x"%char; hex_digit (code c / 16);
               hex_digit (code c mod 16)]
         else [c] in
  str (q :: concat (List.map esc l) ++ [q])%list.

(** [repr(c)] for an optional string. *)
Definition repr_cell (c : option string) : string :=
  match c with
  | Some t => repr_str t
  | None => "None"
  end.

(** [str(row)] for a list of optional strings. *)
Definition str_of_row (r : list (option string)) : string :=
  "[" +:+ join ", " (List.map repr_cell r) +:+ "]".

End Py.

(* ===================================================================== *)
(** * Regular expressions: the fragment of [re] the parsers use *)
(* ===================================================================== *)

Module Re.

(** ** Syntax *)

Inductive cls_item : Set :=
| CChar (c : ascii)
| CRange (lo hi : ascii)
| CDigit
| CSpace
| CWord.

Inductive regex : Set :=
| Eps
| Chr (negated : bool) (items : list cls_item)
| Any
| Seq (r1 r2 : regex)
| Alt (r1 r2 : regex)
| Rep (lo : nat) (hi : option nat) (greedy : bool) (r : regex)
| Group (i : nat) (r : regex)
| Bol
| Eol
| Ahead (r : regex)
| Behind (negated : bool) (items : list cls_item).

(** A pattern that matches nothing. *)
Definition Fail : regex := Chr false [].

(** ** Reading a pattern

    [parse_alt] reads alternatives up to a closing parenthesis or the end of
    the pattern; [ng] counts the capture groups opened so far. *)

Definition escape_item (c : ascii) : option cls_item :=
  if Ascii.eqb c "d" then Some CDigit
  else if Ascii.eqb c "s" then Some CSpace
  else if Ascii.eqb c "w" then Some CWord
  else if Py.is_alpha c || Py.is_digit c then None
  else Some (CChar c).

(** The items of a bracketed class, up to the closing bracket. *)
Fixpoint parse_class (fuel : nat) (p : list ascii)
  : option (list cls_item * list ascii) :=
  match fuel with
  | O => None
  | S fuel' =>
      match p with
      | [] => None
      | "]"%char :: p' => Some ([], p')
      | "\"%char :: c :: p' =>
          it ← escape_item c;
          '(its, p'') ← parse_class fuel' p';
          Some (it :: its, p'')
      | lo :: "-"%char :: hi :: p' =>
          if Ascii.eqb hi "]" then
            '(its, p'') ← parse_class fuel' ("-"%char :: hi :: p');
            Some (CChar lo :: its, p'')
          else
            '(its, p'') ← parse_class fuel' p';
            Some (CRange lo hi :: its, p'')
      | c :: p' =>
          '(its, p'') ← parse_class fuel' p';
          Some (CChar c :: its, p'')
      end
  end.

(** A decimal number at the head of [p]. *)
Definition parse_nat (p : list ascii) : option (nat * list ascii) :=
  let '(ds, p') := Py.span_digits p in
  match ds with
  | [] => None
  | _ => Some (Z.to_nat (Py.digits_val ds), p')
  end.

(** A repetition suffix: the bounds, and whether it is greedy. *)
Definition parse_quant (p : list ascii)
  : option (option (nat * option nat * bool) * list ascii) :=
  let lazy_suffix (lo : nat) (hi : option nat) (p' : list ascii) :=
    match p' with
    | "?"%char :: p'' => Some (Some (lo, hi, false), p'')
    | _ => Some (Some (lo, hi, true), p')
    end in
  match p with
  | "*"%char :: p' => lazy_suffix 0%nat None p'
  | "+"%char :: p' => lazy_suffix 1%nat None p'
  | "?"%char :: p' => lazy_suffix 0%nat (Some 1%nat) p'
  | "{"%char :: p' =>
      '(lo, p1) ← parse_nat p';
      match p1 with
      | "}"%char :: p2 => lazy_suffix lo (Some lo) p2
      | ","%char :: "}"%char :: p2 => lazy_suffix lo None p2
      | ","%char :: p2 =>
          '(hi, p3) ← parse_nat p2;
          match p3 with
          | "}"%char :: p4 => lazy_suffix lo (Some hi) p4
          | _ => None
          end
      | _ => None
      end
  | _ => Some (None, p)
  end.

Definition with_quant (r : regex) (p : list ascii)
  : option (regex * list ascii) :=
  '(q, p') ← parse_quant p;
  match q with
  | Some (lo, hi, g) => Some (Rep lo hi g r, p')
  | None => Some (r, p')
  end.

Fixpoint parse_alt (fuel : nat) (p : list ascii) (ng : nat)
  : option (regex * list ascii * nat) :=
  match fuel with
  | O => None
  | S fuel' =>
      '(r1, p1, ng1) ← parse_seq fuel' p ng;
      match p1 with
      | "|"%char :: p2 =>
          '(r2, p3, ng2) ← parse_alt fuel' p2 ng1;
          Some (Alt r1 r2, p3, ng2)
      | _ => Some (r1, p1, ng1)
      end
  end
with parse_seq (fuel : nat) (p : list ascii) (ng : nat)
  : option (regex * list ascii * nat) :=
  match fuel with
  | O => None
  | S fuel' =>
      match p with
      | [] => Some (Eps, p, ng)
      | ")"%char :: _ => Some (Eps, p, ng)
      | "|"%char :: _ => Some (Eps, p, ng)
      | _ =>
          '(a, p1, ng1) ← parse_atom fuel' p ng;
          '(a', p2) ← with_quant a p1;
          '(r, p3, ng2) ← parse_seq fuel' p2 ng1;
          Some (match r with Eps => a' | _ => Seq a' r end, p3, ng2)
      end
  end
with parse_atom (fuel : nat) (p : list ascii) (ng : nat)
  : option (regex * list ascii * nat) :=
  match fuel with
  | O => None
  | S fuel' =>
      let closing (res : option (regex * list ascii * nat))
                  (wrap : regex -> option regex) :=
        '(r, p1, ng1) ← res;
        match p1 with
        | ")"%char :: p2 => r' ← wrap r; Some (r', p2, ng1)
        | _ => None
        end in
      match p with
      | "("%char :: "?"%char :: ":"%char :: p' =>
          closing (parse_alt fuel' p' ng) Some
      | "("%char :: "?"%char :: "="%char :: p' =>
          closing (parse_alt fuel' p' ng) (fun r => Some (Ahead r))
      | "("%char :: "?"%char :: "<"%char :: "="%char :: p' =>
          closing (parse_alt fuel' p' ng)
            (fun r => match r with
                      | Chr neg items => Some (Behind neg items)
                      | _ => None
                      end)
      | "("%char :: "?"%char :: _ => None
      | "("%char :: p' =>
          closing (parse_alt fuel' p' (S ng)) (fun r => Some (Group (S ng) r))
      | "["%char :: "^"%char :: p' =>
          '(its, p1) ← parse_class fuel' p';
          Some (Chr true its, p1, ng)
      | "["%char :: p' =>
          '(its, p1) ← parse_class fuel' p';
          Some (Chr false its, p1, ng)
      | "."%char :: p' => Some (Any, p', ng)
      | "^"%char :: p' => Some (Bol, p', ng)
      | "$"%char :: p' => Some (Eol, p', ng)
      | "\"%char :: "S"%char :: p' => Some (Chr true [CSpace], p', ng)
      | "\"%char :: c :: p' =>
          it ← escape_item c; Some (Chr false [it], p', ng)
      | "\"%char :: [] => None
      | "*"%char :: _ => None
      | "+"%char :: _ => None
      | "?"%char :: _ => None
      | c :: p' => Some (Chr false [CChar c], p', ng)
      | [] => None
      end
  end.

(** [re.compile(pat)]: the expression and its number of groups. *)
Definition compile (pat : string) : option (regex * nat) :=
  let p := Py.chars pat in
  match parse_alt (2 * List.length p + 2) p 0 with
  | Some (r, [], ng) => Some (r, ng)
  | _ => None
  end.

(** A pattern constant of the source. *)
Definition pattern (pat : string) : regex * nat :=
  match compile pat with
  | Some rn => rn
  | None => (Fail, 0%nat)
  end.

(** ** Matching

    A matching state is a position in the subject (the characters before
    it, nearest first, and the characters after it) and the text of the
    groups captured so far.  The matcher is written in continuation-passing
    style: [k] is the rest of the pattern, and a [None] from it makes the
    matcher try its next alternative, in the order Python's engine does. *)

Definition item_match (it : cls_item) (c : ascii) : bool :=
  match it with
  | CChar a => Ascii.eqb a c
  | CRange lo hi => Py.in_range (Py.code lo) (Py.code hi) c
  | CDigit => Py.is_digit c
  | CSpace => Py.is_space c
  | CWord => Py.is_word c
  end.

Definition cls_match (negated : bool) (items : list cls_item) (c : ascii)
  : bool :=
  xorb negated (existsb (fun it => item_match it c) items).

Record mstate : Set := MS {
  pre : list ascii;
  rest : list ascii;
  caps : list (option (list ascii))
}.

Definition position (st : mstate) : nat := List.length (pre st).

(** The text between two positions of one subject. *)
Definition consumed (st st' : mstate) : list ascii :=
  rev (take (position st' - position st) (pre st')).

Definition set_cap (i : nat) (st st' : mstate) : mstate :=
  MS (pre st') (rest st') (<[i := Some (consumed st st')]> (caps st')).

Definition matcher : Type :=
  forall A : Type, mstate -> (mstate -> option A) -> option A.

Definition step_char (ok : ascii -> bool) : matcher :=
  fun A st k =>
    match rest st with
    | c :: l => if ok c then k (MS (c :: pre st) l (caps st)) else None
    | [] => None
    end.

(** The optional iterations of a repetition: at most [budget] more (no
    bound for [None]), each consuming at least one character. *)
Fixpoint rep_more (body : matcher) (greedy : bool) (fuel : nat)
  (budget : option nat) (A : Type) (st : mstate) (k : mstate -> option A)
  {struct fuel} : option A :=
  match fuel with
  | O => k st
  | S fuel' =>
      match budget with
      | Some O => k st
      | _ =>
          let again (_ : unit) :=
            body A st (fun st' =>
              if (List.length (rest st') <? List.length (rest st))%nat
              then rep_more body greedy fuel' (option_map Nat.pred budget) A st' k
              else None) in
          if greedy
          then match again () with Some a => Some a | None => k st end
          else match k st with Some a => Some a | None => again () end
      end
  end.

(** The [lo] mandatory iterations, then the optional ones. *)
Fixpoint rep_must (body : matcher) (greedy : bool) (lo : nat)
  (budget : option nat) (A : Type) (st : mstate) (k : mstate -> option A)
  {struct lo} : option A :=
  match lo with
  | S lo' => body A st (fun st' => rep_must body greedy lo' budget A st' k)
  | O => rep_more body greedy (S (List.length (rest st))) budget A st k
  end.

Fixpoint rmatch (r : regex) : matcher :=
  match r with
  | Eps => fun A st k => k st
  | Chr negated items => step_char (cls_match negated items)
  | Any => step_char (fun c => negb (Ascii.eqb c "010"))
  | Seq r1 r2 => fun A st k => rmatch r1 A st (fun st' => rmatch r2 A st' k)
  | Alt r1 r2 => fun A st k =>
      match rmatch r1 A st k with
      | Some a => Some a
      | None => rmatch r2 A st k
      end
  | Rep lo hi greedy r' =>
      rep_must (rmatch r') greedy lo (option_map (fun h => h - lo)%nat hi)
  | Group i r' => fun A st k =>
      rmatch r' A st (fun st' => k (set_cap i st st'))
  | Bol => fun A st k => match pre st with [] => k st | _ => None end
  | Eol => fun A st k =>
      match rest st with
      | [] => k st
      | [c] => if Ascii.eqb c "010" then k st else None
      | _ => None
      end
  | Ahead r' => fun A st k =>
      match rmatch r' unit st (fun _ => Some tt) with
      | Some _ => k st
      | None => None
      end
  | Behind negated items => fun A st k =>
      match pre st with
      | c :: _ => if cls_match negated items c then k st else None
      | [] => None
      end
  end.

(** ** [re.match], [re.search], [re.sub] *)

(** A match object: where the match starts and ends, and its groups
    (number 1 first; [None] for a group that took no part). *)
Record match_obj : Set := Match {
  m_start : nat;
  m_end : nat;
  m_text : string;
  m_groups : list (option string)
}.

Definition start_state (ng : nat) (before after : list ascii) : mstate :=
  MS before after (replicate (S ng) None).

Definition match_of (st st' : mstate) : match_obj :=
  Match (position st) (position st') (Py.str (consumed st st'))
        (List.map (option_map Py.str) (tail (caps st'))).

(** A match that starts at [st]; [must_advance] refuses an empty one. *)
Definition match_here (rn : regex * nat) (must_advance : bool)
  (before after : list ascii) : option mstate :=
  let st := start_state (snd rn) before after in
  rmatch (fst rn) mstate st (fun st' =>
    if must_advance && (position st' =? position st)%nat then None
    else Some st').

(** [re.match(pat, s)] *)
Definition match_ (rn : regex * nat) (s : string) : option match_obj :=
  st' ← match_here rn false [] (Py.chars s);
  Some (match_of (start_state (snd rn) [] (Py.chars s)) st').

(** [re.match(pat, s).groups()] *)
Definition groups (rn : regex * nat) (s : string)
  : option (list (option string)) :=
  option_map m_groups (match_ rn s).

(** The leftmost match at or after a position: the characters skipped
    (nearest first), the state the match starts in and the one it ends in. *)
Fixpoint find (rn : regex * nat) (must_advance : bool)
  (before after : list ascii) {struct after}
  : option (mstate * mstate) :=
  match match_here rn must_advance before after with
  | Some st' => Some (start_state (snd rn) before after, st')
  | None =>
      match after with
      | c :: after' => find rn false (c :: before) after'
      | [] => None
      end
  end.

(** [re.search(pat, s)] *)
Definition search (rn : regex * nat) (s : string) : option match_obj :=
  '(st, st') ← find rn false [] (Py.chars s);
  Some (match_of st st').

(** [re.sub(pat, repl, s)] for a function [repl] of the match object: the
    matches are replaced from left to right, and the match after an empty
    one has to advance. *)
Fixpoint sub_from (fuel : nat) (rn : regex * nat)
  (repl : match_obj -> string) (must_advance : bool)
  (before after : list ascii) : list ascii :=
  match fuel with
  | O => after
  | S fuel' =>
      match find rn must_advance before after with
      | None => after
      | Some (st, st') =>
          (take (position st - List.length before) after
           ++ Py.chars (repl (match_of st st'))
           ++ sub_from fuel' rn repl (position st' =? position st)%nat
                (pre st') (rest st'))%list
      end
  end.

Definition sub_with (rn : regex * nat) (repl : match_obj -> string)
  (s : string) : string :=
  Py.str (sub_from (2 * String.length s + 2) rn repl false [] (Py.chars s)).

(** [re.sub(pat, repl, s)] for a replacement text without group
    references. *)
Definition sub (rn : regex * nat) (repl : string) (s : string) : string :=
  sub_with rn (fun _ => repl) s.

End Re.

Import Py.

#[global] Instance outcome_ret : MRet outcome := @Ok.
#[global] Instance outcome_bind : MBind outcome :=
  fun A B k c => bind c k.

(* ===================================================================== *)
(** * The document and the records *)
(* ===================================================================== *)

(** What the PDF reader hands over: per page, [extract_text()] (absent for
    a page without text) and [extract_tables()], tables of rows of optional
    cell texts. *)

Definition cell : Set := option string.
Definition row : Set := list cell.
Definition table : Set := list row.

Record page : Set := Page {
  extract_text : option string;
  extract_tables : list table
}.

Definition pdf : Set := list page.

(** A quantity is an [int], or, in one scanner, a [float]. *)
Inductive num : Set :=
| Int (z : Z)
| Float (x : float).

(** A line item: the dictionary every parser appends to its result. *)
Record LineItem : Set := Item {
  quantity : num;
  backorder : option Z;
  item_number : string;
  sku : string;
  product_description : string;
  unit_price : option float;
  total_amount : option float
}.

(** [text.split("\n")] *)
Definition lines_of (text : string) : list string := split_on "010" text.

(** [" ".join(s.split())] *)
Definition squeeze (s : string) : string := join " " (split_ws s).

(** The [except] clauses of the source. *)
Definition is_ValueError (e : exn) : bool :=
  match e with ValueError => true | _ => false end.

Definition is_ValueError_or_IndexError (e : exn) : bool :=
  match e with ValueError | IndexError => true | _ => false end.

(* ===================================================================== *)
(** * parse.py *)
(* ===================================================================== *)

(** The table of [decode_cid_references].  The text of its last entry,
    192, is in the source the two characters U+00C3 and U+20AC; the second
    is above U+00FF, and the entry is written here as the five bytes of
    the UTF-8 encoding of the two. *)
Definition cid_map : gmap string string :=
  list_to_map [
    ("34", String "034" ""); ("35", "#"); ("43", "+"); ("44", ","); ("45", "-");
    ("47", "/"); ("48", "0"); ("49", "1"); ("50", "2"); ("51", "3");
    ("52", "4"); ("53", "5"); ("54", "6"); ("55", "7"); ("56", "8");
    ("57", "9"); ("58", ":");
    ("65", "A"); ("66", "B"); ("67", "C"); ("68", "D"); ("69", "E");
    ("70", "F"); ("71", "G"); ("72", "H"); ("73", "I"); ("74", "J");
    ("75", "K"); ("76", "L"); ("77", "M"); ("78", "N"); ("79", "O");
    ("80", "P"); ("81", "Q"); ("82", "R"); ("83", "S"); ("84", "T");
    ("85", "U"); ("86", "V"); ("87", "W"); ("88", "X"); ("89", "Y");
    ("90", "Z");
    ("97", "a"); ("98", "b"); ("99", "c"); ("100", "d"); ("101", "e");
    ("102", "f"); ("103", "g"); ("104", "h"); ("105", "i"); ("106", "j");
    ("107", "k"); ("108", "l"); ("109", "m"); ("110", "n"); ("111", "o");
    ("112", "p"); ("113", "q"); ("114", "r"); ("115", "s"); ("116", "t");
    ("117", "u"); ("118", "v"); ("119", "w"); ("120", "x"); ("121", "y");
    ("122", "z");
    ("192", "Ã€")
  ].

Definition replace_cid (m : Re.match_obj) : string :=
  match Re.m_groups m with
  | Some cid_num :: _ => default (Re.m_text m) (cid_map !! cid_num)
  | _ => Re.m_text m
  end.

Definition decode_cid_references (text : string) : string :=
  if negb (truthy text) || negb (contains "(cid:" text) then text
  else Re.sub_with (Re.pattern "\(cid:(\d+)\)") replace_cid text.

(** ** [InvoiceParser]

    [INCLUDE_ZERO_QUANTITY] is a module constant of the source ([True]
    there); the methods below take it as their first argument. *)

Module InvoiceParser.

Section Config.

Variable INCLUDE_ZERO_QUANTITY : bool.

(** [str(h).lower() if h else ""] *)
Definition header_text (h : cell) : string :=
  match h with
  | Some s => lower s
  | None => ""
  end.

Definition indicators : list string :=
  ["qty"; "quantity"; "item"; "sku"; "product"; "price"; "amount"; "total"].

Definition _is_line_items_table (header_row : row) : bool :=
  match header_row with
  | [] => false
  | _ =>
      let headers := List.map header_text header_row in
      let matches :=
        List.length
          (List.filter
             (fun indicator => existsb (contains indicator) headers)
             indicators) in
      (3 <=? matches)%nat
  end.

(** The loop that fills [row_dict]: a later column with the same header
    text replaces an earlier one. *)
Fixpoint fill_row_dict (headers : row) (r : row)
  (row_dict : gmap string cell) : gmap string cell :=
  match headers, r with
  | header :: headers', value :: r' =>
      fill_row_dict headers' r'
        (match header with
         | Some h => if truthy h
                     then <[strip (lower h) := value]> row_dict
                     else row_dict
         | None => row_dict
         end)
  | _, _ => row_dict
  end.

(** [key in row_dict and row_dict[key]], as the text found. *)
Definition present (row_dict : gmap string cell) (key : string)
  : option string :=
  match row_dict !! key with
  | Some (Some v) => if truthy v then Some v else None
  | _ => None
  end.

Fixpoint _extract_quantity_from (keys : list string)
  (row_dict : gmap string cell) : outcome (option Z) :=
  match keys with
  | [] => Ok None
  | key :: keys' =>
      match present row_dict key with
      | Some v =>
          let value_str := strip v in
          if truthy value_str then
            match float_of_str value_str with
            | Ok x =>
                match int_of_float x with
                | Ok n => Ok (Some n)
                | Raise ValueError => _extract_quantity_from keys' row_dict
                | Raise e => Raise e
                end
            | Raise ValueError => _extract_quantity_from keys' row_dict
            | Raise e => Raise e
            end
          else _extract_quantity_from keys' row_dict
      | None => _extract_quantity_from keys' row_dict
      end
  end.

Definition _extract_quantity (row_dict : gmap string cell)
  : outcome (option Z) :=
  _extract_quantity_from ["qty"; "quantity"; "qnty"; "shipped"; "ordered"]
    row_dict.

Fixpoint _extract_field (row_dict : gmap string cell)
  (possible_keys : list string) : option string :=
  match possible_keys with
  | [] => None
  | key :: keys' =>
      match present row_dict key with
      | Some v =>
          let value := squeeze (decode_cid_references (strip v)) in
          if truthy value
             && negb (bool_decide (lower value ∈ ["none"; "null"; ""]))
          then Some value
          else _extract_field row_dict keys'
      | None => _extract_field row_dict keys'
      end
  end.

Definition _extract_first_item_number (item_num : string) : string :=
  if negb (truthy item_num) then item_num
  else
    match split_on "/" item_num with
    | first :: _ :: _ => strip first
    | _ => item_num
    end.

(** The text of a price cell once the currency signs, the thousands
    separators and the white space around are gone. *)
Definition price_text (v : string) : string :=
  replace "," "" (replace "$" "" (strip (decode_cid_references v))).

Fixpoint _extract_price (row_dict : gmap string cell)
  (possible_keys : list string) : option float :=
  match possible_keys with
  | [] => None
  | key :: keys' =>
      match present row_dict key with
      | Some v =>
          let value := price_text v in
          if truthy value then
            match float_of_str value with
            | Ok x => Some x
            | Raise _ => _extract_price row_dict keys'
            end
          else _extract_price row_dict keys'
      | None => _extract_price row_dict keys'
      end
  end.

(** Truthiness of an optional text, and its value as a text. *)
Definition some_text (o : option string) : bool := truthy_opt o.

Definition _parse_line_item_row (r : row) (headers : row)
  : outcome (option LineItem) :=
  if (List.length r <? 4)%nat then Ok None else
  let row_dict := fill_row_dict headers r ∅ in
  qty ← _extract_quantity row_dict;
  match qty with
  | None => Ok None
  | Some qty =>
      if negb INCLUDE_ZERO_QUANTITY && (qty =? 0) then Ok None else
      let item_num :=
        _extract_field row_dict
          ["item#"; "item #"; "item"; "item_number"; "itemnumber";
           "item no"; "item no."] in
      let sku := _extract_field row_dict ["sku"; "item_code"; "item code"] in
      let product :=
        _extract_field row_dict
          ["product"; "description"; "item_description";
           "item description"] in
      let unit_price :=
        _extract_price row_dict
          ["price"; "unit_price"; "unit price"; "price each"] in
      let total :=
        _extract_price row_dict
          ["amount"; "total"; "total_amount"; "line_total"] in
      let item_num :=
        if some_text item_num
        then _extract_first_item_number <$> item_num
        else item_num in
      let '(item_num, sku) :=
        if negb (some_text item_num) && some_text sku then (sku, sku)
        else if negb (some_text sku) && some_text item_num
             then (item_num, item_num)
             else (item_num, sku) in
      match item_num, sku, product with
      | Some i, Some s, Some p =>
          if truthy i && truthy s && truthy p
          then Ok (Some (Item (Int qty) None i s p unit_price total))
          else Ok None
      | _, _, _ => Ok None
      end
  end.

(** The cleaning of a text cell of a continuation row. *)
Definition clean_cell (c : cell) : cell :=
  match c with
  | Some s => if truthy s then Some (squeeze (decode_cid_references s)) else c
  | None => None
  end.

(** The price or the amount of a continuation row. *)
Definition continuation_price (c : cell) : option float :=
  match c with
  | Some s =>
      if truthy s then
        match float_of_str
                (strip (replace "," "" (replace "$" ""
                          (decode_cid_references s)))) with
        | Ok x => Some x
        | Raise _ => None
        end
      else None
  | None => None
  end.

(** [cell and str(cell).strip()] *)
Definition nonblank (c : cell) : bool :=
  match c with
  | Some s => truthy s && truthy (strip s)
  | None => false
  end.

(** The index of the first cell that is not blank, 0 when all are. *)
Fixpoint first_nonblank (i : nat) (r : row) : nat :=
  match r with
  | [] => 0%nat
  | c :: r' => if nonblank c then i else first_nonblank (S i) r'
  end.

Fixpoint drop_blank (l : row) : row :=
  match l with
  | c :: l' => if nonblank c then l else drop_blank l'
  | [] => []
  end.

(** One past the index of the last cell that is not blank; the length of
    the row when all are blank. *)
Definition end_nonblank (r : row) : nat :=
  match drop_blank (rev r) with
  | [] => List.length r
  | l => List.length l
  end.

(** [row[start_idx:end_idx]] *)
Definition trimmed (r : row) : row :=
  let start_idx := first_nonblank 0 r in
  let end_idx := end_nonblank r in
  take (end_idx - start_idx) (drop start_idx r).

(** The [try] block of [_parse_continuation_row]: the fields of a trimmed
    row of five cells or more, by position. *)
Definition continuation_fields (trimmed_row : row)
  : outcome (option LineItem) :=
  let qty_str := mjoin (trimmed_row !! 0%nat) in
  let item_num := mjoin (trimmed_row !! 1%nat) in
  let sku := mjoin (trimmed_row !! 2%nat) in
  let description := mjoin (trimmed_row !! 3%nat) in
  let price := mjoin (trimmed_row !! 4%nat) in
  let amount := mjoin (trimmed_row !! 5%nat) in
  if truthy_opt qty_str then
    match float_of_str (strip (default "" qty_str)) with
    | Raise ValueError => Ok None
    | Raise e => Raise e
    | Ok x =>
        match int_of_float x with
        | Raise ValueError => Ok None
        | Raise e => Raise e
        | Ok qty =>
            if negb INCLUDE_ZERO_QUANTITY && (qty =? 0) then Ok None
            else
              let item_num :=
                if truthy_opt item_num
                then _extract_first_item_number <$> clean_cell item_num
                else item_num in
              let sku := clean_cell sku in
              let description := clean_cell description in
              let unit_price := continuation_price price in
              let total_amount := continuation_price amount in
              match item_num, sku, description with
              | Some i, Some s, Some d =>
                  if truthy i && truthy s && truthy d
                  then Ok (Some (Item (Int qty) None i s d
                                   unit_price total_amount))
                  else Ok None
              | _, _, _ => Ok None
              end
        end
    end
  else Ok None.

Definition _parse_continuation_row (r : row) (header : row)
  : outcome (option LineItem) :=
  match r with
  | [] => Ok None
  | _ =>
      if (List.length r =? List.length header)%nat
      then _parse_line_item_row r header
      else
        let trimmed_row := trimmed r in
        if (5 <=? List.length trimmed_row)%nat
        then continuation_fields trimmed_row
        else Ok None
  end.

(** The first of the rows (numbered from [idx]) that is a line-items
    header. *)
Fixpoint find_header (idx : nat) (rows : list row) : option (nat * row) :=
  match rows with
  | [] => None
  | r :: rows' =>
      if _is_line_items_table r then Some (idx, r)
      else find_header (S idx) rows'
  end.

(** Appending the items a row parser finds in the rows of a table. *)
Fixpoint collect_rows (parse_row : row -> outcome (option LineItem))
  (rows : list row) (line_items : list LineItem)
  : outcome (list LineItem) :=
  match rows with
  | [] => Ok line_items
  | r :: rows' =>
      item ← parse_row r;
      collect_rows parse_row rows'
        (match item with
         | Some it => line_items ++ [it]
         | None => line_items
         end)%list
  end.

(** [row and any(cell for cell in row if cell)] *)
Definition has_content (r : row) : bool := existsb truthy_opt r.

(** The body of the loop over the tables: the state is the list of items
    and the last header seen. *)
Definition table_step (t : table) (st : list LineItem * option row)
  : outcome (list LineItem * option row) :=
  let '(line_items, last_header) := st in
  match t with
  | [] => Ok st
  | _ =>
      match find_header 0 (take 5 t) with
      | Some (header_row_idx, header_row) =>
          items ← collect_rows (fun r => _parse_line_item_row r header_row)
                    (drop (S header_row_idx) t) line_items;
          Ok (items, Some header_row)
      | None =>
          match last_header with
          | Some (h :: hs) =>
              items ← collect_rows
                        (fun r => _parse_continuation_row r (h :: hs))
                        (List.filter has_content t) line_items;
              Ok (items, last_header)
          | _ => Ok st
          end
      end
  end.

Fixpoint tables_loop (ts : list table) (st : list LineItem * option row)
  : outcome (list LineItem * option row) :=
  match ts with
  | [] => Ok st
  | t :: ts' => st' ← table_step t st; tables_loop ts' st'
  end.

Definition _extract_table_based (doc : pdf) : outcome (list LineItem) :=
  st ← tables_loop (concat (List.map extract_tables doc)) ([], None);
  Ok (fst st).

End Config.

End InvoiceParser.

(* ===================================================================== *)
(** * custom_parsers.py *)
(* ===================================================================== *)

(** ** [while] loops

    One iteration of a loop body either goes on with a new state or leaves
    the loop with its result.  [while] runs at most [fuel] iterations;
    every loop below moves its line index forward in each iteration, so
    one more than the number of lines is enough
    ([while_enough_fuel]). *)

Inductive step (S R : Type) : Type :=
| Continue (s : S)
| Break (r : R).
Arguments Continue {S R} s.
Arguments Break {S R} r.

Fixpoint while {S R : Type} (fuel : nat) (body : S -> outcome (step S R))
  (out_of_fuel : S -> R) (s : S) : outcome R :=
  match fuel with
  | O => Ok (out_of_fuel s)
  | S fuel' =>
      match body s with
      | Raise e => Raise e
      | Ok (Break r) => Ok r
      | Ok (Continue s') => while fuel' body out_of_fuel s'
      end
  end.

(** Running a scanner over the pages that have text, handing the items
    found so far from page to page. *)
Fixpoint over_pages (scan_page : list string -> list LineItem ->
                                 outcome (list LineItem))
  (doc : pdf) (items : list LineItem) : outcome (list LineItem) :=
  match doc with
  | [] => Ok items
  | p :: doc' =>
      match extract_text p with
      | Some text =>
          if truthy text then
            items' ← scan_page (lines_of text) items;
            over_pages scan_page doc' items'
          else over_pages scan_page doc' items
      | None => over_pages scan_page doc' items
      end
  end.

(** [float(s.replace(",", ""))] *)
Definition float_no_commas (s : string) : outcome float :=
  float_of_str (replace "," "" s).

(** [re.match(pat, s)] taken as a truth value. *)
Definition re_matches (rn : Re.regex * nat) (s : string) : bool :=
  match Re.match_ rn s with Some _ => true | None => false end.

(** ** [ItoyaParser] *)

Module ItoyaParser.

Definition item_re : Re.regex * nat :=
  Re.pattern "^([\d\-]+)\s+(.+?)\s+(?:EACH|BOX|PACK)\s+\d+\s+(\d+)\s+\d+\s+([\d,]+\.\d{2})\s+([\d,]+\.\d{2})".

Definition next_item_re : Re.regex * nat := Re.pattern "^[\d\-]+\s+".

Record state : Set := St {
  i : nat;
  in_items_section : bool;
  items : list LineItem
}.

(** The description lines after the item line at index [i]: the parts
    collected, and the index of the last line taken. *)
Definition description_lines (lines : list string) (i : nat)
  (description : string) : list string * nat :=
  let desc_parts := [strip description] in
  match lines !! (i + 1)%nat with
  | Some l2 =>
      let next_line := strip l2 in
      if truthy next_line && negb (re_matches next_item_re next_line) then
        let desc_parts := (desc_parts ++ [next_line])%list in
        let i := (i + 1)%nat in
        match lines !! (i + 1)%nat with
        | Some l3 =>
            let line3 := strip l3 in
            if truthy line3 && negb (re_matches next_item_re line3)
               && (startswith "(" line3 || negb (endswith ")" next_line))
            then ((desc_parts ++ [line3])%list, (i + 1)%nat)
            else (desc_parts, i)
        | None => (desc_parts, i)
        end
      else (desc_parts, i)
  | None => (desc_parts, i)
  end.

Definition body (include_zero_qty : bool) (lines : list string) (s : state)
  : outcome (step state (list LineItem)) :=
  match lines !! i s with
  | None => Ok (Break (items s))
  | Some line =>
      if contains "Item Description UOM" line then
        Ok (Continue (St (i s + 1) true (items s)))
      else if in_items_section s
              && (contains "Subtotal" line || contains "Total" line
                  || contains "Page:" line || contains "Net Invoice" line)
      then Ok (Break (items s))
      else if in_items_section s && truthy (strip line) then
        match Re.groups item_re line with
        | Some [Some item_num; Some description; Some shipped;
                Some price; Some amount] =>
            let '(desc_parts, i') := description_lines lines (i s) description in
            let full_description := join " " desc_parts in
            qty ← int shipped;
            if (0 <? qty) || include_zero_qty then
              unit_price ← float_no_commas price;
              total_amount ← float_no_commas amount;
              Ok (Continue
                    (St (i' + 1) (in_items_section s)
                       (items s ++
                        [Item (Int qty) None (strip item_num) (strip item_num)
                           full_description (Some unit_price)
                           (Some total_amount)])%list))
            else Ok (Continue (St (i' + 1) (in_items_section s) (items s)))
        | _ => Ok (Continue (St (i s + 1) (in_items_section s) (items s)))
        end
      else Ok (Continue (St (i s + 1) (in_items_section s) (items s)))
  end.

Definition scan_page (include_zero_qty : bool) (lines : list string)
  (found : list LineItem) : outcome (list LineItem) :=
  while (S (List.length lines)) (body include_zero_qty lines) items
    (St 0 false found).

Definition parse (doc : pdf) (include_zero_qty : bool)
  : outcome (list LineItem) :=
  over_pages (scan_page include_zero_qty) doc [].

End ItoyaParser.

(** ** [MontblancParser] *)

Module MontblancParser.

Definition footer_re : Re.regex * nat :=
  Re.pattern "^(SUBTOTAL|Freight|TOTAL|Net Weight|Montblanc|Page\s*:)".

Definition format_a_re : Re.regex * nat :=
  Re.pattern "^(\d{5,})\s+(.+?)\s+(\d+)\s+PC\s+([\d,]+\.\d{2})\s+([\d,]+\.\d{2})\s+([\d,]+\.\d{2})$".

Definition format_b_re : Re.regex * nat :=
  Re.pattern "^(\d{5,})\s+(\d+)\s+PC\s+([\d,]+\.\d{2})\s+([\d,]+\.\d{2})\s+([\d,]+\.\d{2})$".

Definition stop_re : Re.regex * nat :=
  Re.pattern "^(\d{5,}|SUBTOTAL|DELIVERY:|Page\s*:)".

Definition metadata_re : Re.regex * nat :=
  Re.pattern "^(Customer PO:|SO:|Tracking|Gold Unit)".

Record state : Set := St {
  i : nat;
  in_items : bool;
  items : list LineItem
}.

(** The inner [while] loop over the lines that follow an item line: the
    lines kept, and the number of lines passed, up to the next item or
    footer. *)
Fixpoint following_lines (ls : list string) : list string * nat :=
  match ls with
  | [] => ([], 0%nat)
  | l :: ls' =>
      let next_line := strip l in
      if re_matches stop_re next_line then ([], 0%nat)
      else
        let '(parts, n) := following_lines ls' in
        (if truthy next_line && negb (re_matches metadata_re next_line)
         then next_line :: parts else parts, S n)
  end.

(** [d += " " + part] for each of the parts. *)
Definition append_parts (d : string) (parts : list string) : string :=
  fold_left (fun acc part => acc +:+ " " +:+ part) parts d.

(** One turn of the outer [while] loop.  The groups of a match come in the
    number and order of the pattern's parentheses, so the branches for a
    list of another shape are never taken. *)
Definition body (include_zero_qty : bool) (lines : list string) (s : state)
  : outcome (step state (list LineItem)) :=
  let skip := Ok (Continue (St (i s + 1) (in_items s) (items s))) in
  match lines !! i s with
  | None => Ok (Break (items s))
  | Some line =>
      if contains "Article" line && contains "Description" line
         && contains "QTY" line
      then Ok (Continue (St (i s + 1) true (items s)))
      else if negb (in_items s) then skip
      else if re_matches footer_re (strip line) then skip
      else
        match Re.groups format_a_re (strip line) with
        | Some [Some item_code; Some description; Some qty_str; _;
                Some unit_price_str; Some total_str] =>
            catch
              (qty ← int qty_str;
               if (qty =? 0) && negb include_zero_qty then skip else
               unit_price ← float_no_commas unit_price_str;
               total ← float_no_commas total_str;
               let '(parts, n) :=
                 following_lines (drop (i s + 1) lines) in
               Ok (Continue
                     (St (i s + 1 + n) (in_items s)
                        (items s ++
                         [Item (Int qty) None item_code item_code
                            (append_parts (strip description) parts)
                            (Some unit_price) (Some total)])%list)))
              is_ValueError skip
        | Some _ => skip
        | None =>
            match Re.groups format_b_re (strip line) with
            | Some [Some item_code; Some qty_str; _;
                    Some unit_price_str; Some total_str] =>
                match int qty_str with
                | Raise e => if is_ValueError e then skip else Raise e
                | Ok qty =>
                    if (qty =? 0) && negb include_zero_qty then skip else
                    let '(description_parts, n) :=
                      following_lines (drop (i s + 1) lines) in
                    let i' := (i s + 1 + n)%nat in
                    catch
                      (unit_price ← float_no_commas unit_price_str;
                       total ← float_no_commas total_str;
                       Ok (Continue
                             (St i' (in_items s)
                                (items s ++
                                 [Item (Int qty) None item_code item_code
                                    (join " " description_parts)
                                    (Some unit_price) (Some total)])%list)))
                      is_ValueError
                      (Ok (Continue (St (i' + 1) (in_items s) (items s))))
                end
            | _ => skip
            end
        end
  end.

Definition scan_page (include_zero_qty : bool) (lines : list string)
  (found : list LineItem) : outcome (list LineItem) :=
  while (S (List.length lines)) (body include_zero_qty lines) items
    (St 0 false found).

Definition parse (doc : pdf) (include_zero_qty : bool)
  : outcome (list LineItem) :=
  over_pages (scan_page include_zero_qty) doc [].

End MontblancParser.

(** ** [KenroParser] *)

Module KenroParser.

Definition despace_sku (text : string) : string :=
  Re.sub (Re.pattern "\s+") "" text.

Definition despace_and_format_desc (text : string) : string :=
  let text := Re.sub (Re.pattern "\s+") "" text in
  let text := Re.sub (Re.pattern "(?<=[a-z])(?=[A-Z])") " " text in
  let text := Re.sub (Re.pattern "/") " / " text in
  let text := Re.sub (Re.pattern "\s+") " " text in
  strip text.

Definition re_found (rn : Re.regex * nat) (s : string) : bool :=
  match Re.search rn s with Some _ => true | None => false end.

Definition spaced_re : Re.regex * nat := Re.pattern "(?:\w\s){3,}".
Definition spaced_number_re : Re.regex * nat := Re.pattern "\d\s+\d".

(** [str(row[n]).strip() if len(row) > n and row[n] else ""] *)
Definition cell_text (r : row) (n : nat) : string :=
  match r !! n with
  | Some (Some s) => if truthy s then strip s else ""
  | _ => ""
  end.

(** The description of a row, or of a continuation row, after the repair
    of letter-spaced text. *)
Definition repaired_desc (description : string) : string :=
  if re_found spaced_re description
  then despace_and_format_desc description
  else description.

Definition despaced_number (s : string) : string :=
  if re_found spaced_number_re s then Re.sub (Re.pattern "\s+") "" s else s.

(** One turn of the loop over the offsets 1 and 2: [None] is [break]. *)
Definition continuation_step (t : table) (i offset : nat)
  (acc : string * nat) : option (string * nat) :=
  let '(description, continuation_rows) := acc in
  match t !! (i + offset)%nat with
  | None => None
  | Some next_row =>
      if (List.length next_row <=? 1)%nat then None else
      let next_item_code := cell_text next_row 0 in
      let next_desc := cell_text next_row 1 in
      let next_qty := cell_text next_row 3 in
      if truthy next_item_code || (truthy next_qty && isdigit next_qty)
      then None
      else if truthy next_desc
           then Some (description +:+ " " +:+ repaired_desc next_desc,
                      S continuation_rows)
           else Some acc
  end.

Definition continuation (t : table) (i : nat) (description : string)
  : string * nat :=
  match continuation_step t i 1 (description, 0%nat) with
  | None => (description, 0%nat)
  | Some acc => default acc (continuation_step t i 2 acc)
  end.

Record state : Set := St { i : nat; items : list LineItem }.

Definition body (include_zero_qty : bool) (t : table) (s : state)
  : outcome (step state (list LineItem)) :=
  let next (n : nat) (found : list LineItem) :=
    Ok (Continue (St (i s + n) found)) in
  match t !! i s with
  | None => Ok (Break (items s))
  | Some r =>
      if (List.length r <? 4)%nat then next 1%nat (items s) else
      let item_code := cell_text r 0 in
      let description := cell_text r 1 in
      let qty_str := cell_text r 3 in
      let price_str := cell_text r 8 in
      let backorder_str := cell_text r 9 in
      let amount_str := cell_text r 11 in
      let item_code :=
        if re_found spaced_re item_code then despace_sku item_code
        else item_code in
      let description := repaired_desc description in
      let qty_str := despaced_number qty_str in
      let price_str := despaced_number price_str in
      let backorder_str := despaced_number backorder_str in
      let amount_str := despaced_number amount_str in
      if negb (truthy qty_str) || negb (isdigit qty_str)
      then next 1%nat (items s) else
      let '(description, continuation_rows) :=
        continuation t (i s) description in
      catch
        (qty ← int qty_str;
         if (qty =? 0) && negb include_zero_qty
         then next (1 + continuation_rows)%nat (items s) else
         price ← (if truthy price_str then float_of_str price_str
                  else Ok (float_of_Z 0));
         backorder ← (if truthy backorder_str && isdigit backorder_str
                      then int backorder_str else Ok 0);
         amount ← (if truthy amount_str then float_of_str amount_str
                   else Ok (float_of_Z 0));
         next (1 + continuation_rows)%nat
           (if truthy item_code && truthy description
            then (items s ++
                  [Item (Int qty) (Some backorder) item_code item_code
                     description (Some price) (Some amount)])%list
            else items s))
        is_ValueError_or_IndexError
        (next 1%nat (items s))
  end.

(** The index of the header row among the first rows of a table. *)
Fixpoint find_header (idx : nat) (rows : list row) : option nat :=
  match rows with
  | [] => None
  | r :: rows' =>
      if contains "Item Code" (str_of_row r)
         && contains "Description" (str_of_row r)
      then Some idx
      else find_header (S idx) rows'
  end.

Definition scan_table (include_zero_qty : bool) (t : table)
  (found : list LineItem) : outcome (list LineItem) :=
  if (List.length t <? 3)%nat then Ok found else
  match find_header 0 (take 5 t) with
  | None => Ok found
  | Some header_row =>
      while (S (List.length t)) (body include_zero_qty t) items
        (St (header_row + 1) found)
  end.

Fixpoint over_tables (include_zero_qty : bool) (ts : list table)
  (found : list LineItem) : outcome (list LineItem) :=
  match ts with
  | [] => Ok found
  | t :: ts' =>
      found' ← scan_table include_zero_qty t found;
      over_tables include_zero_qty ts' found'
  end.

Definition parse (doc : pdf) (include_zero_qty : bool)
  : outcome (list LineItem) :=
  over_tables include_zero_qty (concat (List.map extract_tables doc)) [].

End KenroParser.

(** ** [for line in lines] loops without [break] *)

Fixpoint for_each {A S : Type} (body : A -> S -> outcome S) (l : list A)
  (s : S) : outcome S :=
  match l with
  | [] => Ok s
  | a :: l' => s' ← body a s; for_each body l' s'
  end.

(** ** [AvantiParser] *)

Module AvantiParser.

Definition pattern : Re.regex * nat :=
  Re.pattern "^#(\d+)\s+(\S+)\s+(.+?)\s+(\d+\.\d+)\s+(\d+\.\d+)\s+(\d+\.\d+)$".

(** [int(qty) if qty == int(qty) else qty] *)
Definition quantity_of (qty : float) : outcome num :=
  n ← int_of_float qty;
  Ok (if float_eq_int qty n then Int n else Float qty).

Definition body (include_zero_qty : bool) (line : string)
  (items : list LineItem) : outcome (list LineItem) :=
  match Re.groups pattern (strip line) with
  | Some [Some line_num; Some prod_code; Some description;
          Some price_str; Some qty_str; Some amount_str] =>
      qty ← float_of_str qty_str;
      if float_is_zero qty && negb include_zero_qty then Ok items else
      price ← float_of_str price_str;
      amount ← float_of_str amount_str;
      let description := strip description in
      q ← quantity_of qty;
      Ok (items ++ [Item q None prod_code prod_code description
                      (Some price) (Some amount)])%list
  | _ => Ok items
  end.

Definition scan_page (include_zero_qty : bool) (lines : list string)
  (found : list LineItem) : outcome (list LineItem) :=
  for_each (body include_zero_qty) lines found.

Definition parse (doc : pdf) (include_zero_qty : bool)
  : outcome (list LineItem) :=
  over_pages (scan_page include_zero_qty) doc [].

End AvantiParser.

(** ** [ExaclairParser] *)

Module ExaclairParser.

Definition pattern : Re.regex * nat :=
  Re.pattern "^(\d+)\s+(\d+)\s+(\d+)\s+(\S+)\s+(.+?)\s+([\d,.]+)\s+([\d,.]+)\s+([\d,.]+)$".

(** [retail_price * (1 - (discount_pct / Decimal("100.0")))], quantized to
    cents, half up. *)
Definition unit_price_of (retail_price discount_pct : decimal)
  : outcome decimal :=
  let unit_price_dec :=
    dec_mul retail_price
      (dec_sub (Dec false 1 0) (dec_div discount_pct (Dec false 1000 (-1)))) in
  quantize_cents unit_price_dec.

Definition body (include_zero_qty : bool) (line : string)
  (s : bool * list LineItem) : outcome (bool * list LineItem) :=
  let '(in_items, items) := s in
  if contains "Item Number Description" line
     || contains "Ordered Shipped B. Order" line
  then Ok (true, items)
  else if in_items && (contains "Subtotal" line
                       || contains "INVOICE Page" line
                       || contains "Comments:" line)
  then Ok (false, items)
  else if in_items && truthy (strip line) then
    match Re.groups pattern (strip line) with
    | Some [Some ordered_str; Some shipped_str; Some backordered_str;
            Some item_num; Some description; Some price_str;
            Some disc_str; Some total_str] =>
        catch
          (qty ← int shipped_str;
           if (qty =? 0) && negb include_zero_qty then Ok s else
           retail_price ← Decimal (replace "," "" price_str);
           discount_pct ← Decimal (replace "," "" disc_str);
           unit_price ← unit_price_of retail_price discount_pct;
           total ← float_no_commas total_str;
           Ok (in_items,
               (items ++
                [Item (Int qty) None (strip item_num) (strip item_num)
                   (strip description)
                   (Some (float_of_decimal unit_price)) (Some total)])%list))
          is_ValueError (Ok s)
    | _ => Ok s
    end
  else Ok s.

Definition scan_page (include_zero_qty : bool) (lines : list string)
  (found : list LineItem) : outcome (list LineItem) :=
  s ← for_each (body include_zero_qty) lines (false, found);
  Ok (snd s).

Definition parse (doc : pdf) (include_zero_qty : bool)
  : outcome (list LineItem) :=
  over_pages (scan_page include_zero_qty) doc [].

End ExaclairParser.

(** ** [ChartpakParser] *)

Module ChartpakParser.

Definition format1_re : Re.regex * nat :=
  Re.pattern "^(\d+)\s+EA\s+(?:(\d+)\s+)?([A-Z0-9-]+)\s+(.+?)\s+([\d.]+)\s+([\d.]+)\s+([\d.]+)\s+([\d.]+)$".

Definition format2_re : Re.regex * nat :=
  Re.pattern "^EA\s+(\d+)\s+([A-Z0-9-]+)\s+(.+?)\s+([\d.]+)\s+([\d.]+)\s+([\d.]+)\s+([\d.]+)$".

Definition body (include_zero_qty : bool) (line : string)
  (s : bool * list LineItem) : outcome (bool * list LineItem) :=
  let '(in_items, items) := s in
  if contains "SHIPPED" line && contains "UNIT" line
     && contains "CATALOG" line
  then Ok (true, items)
  else if contains "SUB-TOTAL" line || contains "TOTAL" line
  then Ok (false, items)
  else if in_items && truthy (strip line) then
    match Re.groups format1_re (strip line) with
    | Some [Some qty_str; bo_str; Some item_code; Some desc;
            Some list_price; Some discount; Some net_price; Some amount] =>
        shipped_qty ← int qty_str;
        backorder_qty ← (if truthy_opt bo_str then int (default "" bo_str)
                         else Ok 0);
        if (shipped_qty =? 0) && negb include_zero_qty then Ok s else
        catch
          (unit_price ← float_of_str net_price;
           total ← float_of_str amount;
           Ok (in_items,
               (items ++
                [Item (Int shipped_qty) None item_code item_code (strip desc)
                   (Some unit_price) (Some total)])%list))
          is_ValueError (Ok s)
    | Some _ => Ok s
    | None =>
        match Re.groups format2_re (strip line) with
        | Some [Some backorder_qty; Some item_code; Some desc;
                Some list_price; Some discount; Some net_price;
                Some amount] =>
            backorder_qty ← int backorder_qty;
            catch
              (unit_price ← float_of_str net_price;
               Ok (in_items,
                   (items ++
                    [Item (Int 0) None item_code item_code (strip desc)
                       (Some unit_price) (Some (float_of_Z 0))])%list))
              is_ValueError (Ok s)
        | _ => Ok s
        end
    end
  else Ok s.

Definition scan_page (include_zero_qty : bool) (lines : list string)
  (found : list LineItem) : outcome (list LineItem) :=
  s ← for_each (body include_zero_qty) lines (false, found);
  Ok (snd s).

Definition parse (doc : pdf) (include_zero_qty : bool)
  : outcome (list LineItem) :=
  over_pages (scan_page include_zero_qty) doc [].

End ChartpakParser.

(** ** [for line in lines] loops with [break] *)

Fixpoint for_each_until {A S : Type} (body : A -> S -> outcome (step S S))
  (l : list A) (s : S) : outcome S :=
  match l with
  | [] => Ok s
  | a :: l' =>
      match body a s with
      | Raise e => Raise e
      | Ok (Break r) => Ok r
      | Ok (Continue s') => for_each_until body l' s'
      end
  end.

(** ** [PilotParser] *)

Module PilotParser.

Definition pattern : Re.regex * nat :=
  Re.pattern "^(\d+)\s+\d+\s+EA\s+(\d+)\s+(.+?)\s+([\d.]+)\s+([\d.]+)$".

Definition body (include_zero_qty : bool) (line : string)
  (items : list LineItem) : outcome (list LineItem) :=
  match Re.groups pattern (strip line) with
  | Some [Some qty_str; Some item_code; Some description; Some price_str;
          Some amount_str] =>
      catch
        (qty ← int qty_str;
         if (qty =? 0) && negb include_zero_qty then Ok items else
         unit_price ← float_of_str price_str;
         total_amount ← float_of_str amount_str;
         Ok (items ++
             [Item (Int qty) None item_code item_code (strip description)
                (Some unit_price) (Some total_amount)])%list)
        is_ValueError (Ok items)
  | _ => Ok items
  end.

Definition scan_page (include_zero_qty : bool) (lines : list string)
  (found : list LineItem) : outcome (list LineItem) :=
  for_each (body include_zero_qty) lines found.

Definition parse (doc : pdf) (include_zero_qty : bool)
  : outcome (list LineItem) :=
  over_pages (scan_page include_zero_qty) doc [].

End PilotParser.

(** ** [Retro51Parser] *)

Module Retro51Parser.

Definition pattern : Re.regex * nat :=
  Re.pattern "^([A-Z0-9\-]+)\s+(.+?)\s+(\d+)\s+([\d.]+)\s+([\d,.]+)T?$".

(** One turn of the loop over the lines of a page; the state is
    [in_items] and the items found. *)
Definition body (include_zero_qty : bool) (line : string)
  (s : bool * list LineItem)
  : outcome (step (bool * list LineItem) (bool * list LineItem)) :=
  let '(in_items, items) := s in
  if contains "ITEM" line && contains "DESCRIPTION" line
     && contains "QTY" line
  then Ok (Continue (true, items))
  else if in_items then
    if contains "SUBTOTAL" line || contains "SUB TOTAL" line
    then Ok (Break s)
    else
      match Re.groups pattern (strip line) with
      | Some [Some item_code; Some description; Some qty_str;
              Some price_str; Some amount_str] =>
          catch
            (qty ← int qty_str;
             if (qty =? 0) && negb include_zero_qty then Ok (Continue s) else
             unit_price ← float_of_str price_str;
             total_amount ← float_no_commas amount_str;
             Ok (Continue
                   (in_items,
                    (items ++
                     [Item (Int qty) None item_code item_code
                        (strip description)
                        (Some unit_price) (Some total_amount)])%list)))
            is_ValueError (Ok (Continue s))
      | _ => Ok (Continue s)
      end
  else Ok (Continue s).

Definition scan_page (include_zero_qty : bool) (lines : list string)
  (found : list LineItem) : outcome (list LineItem) :=
  s ← for_each_until (body include_zero_qty) lines (false, found);
  Ok (snd s).

Definition parse (doc : pdf) (include_zero_qty : bool)
  : outcome (list LineItem) :=
  over_pages (scan_page include_zero_qty) doc [].

End Retro51Parser.

(** ** [TWSBIParser] *)

Module TWSBIParser.

Definition pattern : Re.regex * nat :=
  Re.pattern "^([A-Z0-9]+)\s+(.+?)\s+(\d+)\s+([\d.]+)\s+([\d.]+)T?$".

Definition body (include_zero_qty : bool) (line : string)
  (s : bool * list LineItem)
  : outcome (step (bool * list LineItem) (bool * list LineItem)) :=
  let '(in_items, items) := s in
  if contains "SKU" line && contains "ACTIVITY" line && contains "QTY" line
  then Ok (Continue (true, items))
  else if in_items then
    if contains "SUBTOTAL" line || contains "BALANCE" line
    then Ok (Break s)
    else
      match Re.groups pattern (strip line) with
      | Some [Some item_code; Some description; Some qty_str;
              Some price_str; Some amount_str] =>
          catch
            (qty ← int qty_str;
             if (qty =? 0) && negb include_zero_qty then Ok (Continue s) else
             unit_price ← float_of_str price_str;
             total_amount ← float_of_str amount_str;
             Ok (Continue
                   (in_items,
                    (items ++
                     [Item (Int qty) None item_code item_code
                        (strip description)
                        (Some unit_price) (Some total_amount)])%list)))
            is_ValueError (Ok (Continue s))
      | _ => Ok (Continue s)
      end
  else Ok (Continue s).

Definition scan_page (include_zero_qty : bool) (lines : list string)
  (found : list LineItem) : outcome (list LineItem) :=
  s ← for_each_until (body include_zero_qty) lines (false, found);
  Ok (snd s).

Definition parse (doc : pdf) (include_zero_qty : bool)
  : outcome (list LineItem) :=
  over_pages (scan_page include_zero_qty) doc [].

End TWSBIParser.

(** ** [JPTParser] *)

Module JPTParser.

(** [parts[i]] for a list and an index of either sign. *)
Definition item (parts : list string) (i : Z) : outcome string :=
  let n := Z.of_nat (List.length parts) in
  let j := if i <? 0 then i + n else i in
  if (j <? 0) || (n <=? j) then Raise IndexError
  else match parts !! Z.to_nat j with
       | Some p => Ok p
       | None => Raise IndexError
       end.

Definition _parse_line (line : string) : outcome (option LineItem) :=
  let parts := split_ws line in
  if (List.length parts <? 4)%nat then Ok None else
  catch
    (amount_str ← item parts (-1);
     price_str ← item parts (-2);
     bo_str ← item parts (-3);
     amount ← float_of_str amount_str;
     price ← float_of_str price_str;
     '(bo_qty, parts) ←
       match int bo_str with
       | Ok bo_qty => Ok (bo_qty, parts)
       | Raise ValueError => Ok (0, take (List.length parts - 2) parts)
       | Raise e => Raise e
       end;
     first ← item parts 0;
     first_val ← (if isdigit first then int first else Ok (-1));
     '(shipped_qty, item_id, sku, desc_start_idx) ←
       (if (0 <? first_val) && (first_val <? 1000) then
          item_id ← item parts 1;
          upc ← item parts 2;
          sku ← item parts 3;
          Ok (first_val, item_id, sku, 4)
        else
          item_id ← item parts 0;
          upc ← item parts 1;
          sku ← item parts 2;
          Ok (0, item_id, sku, 3));
     let len := Z.of_nat (List.length parts) in
     let desc_start_idx :=
       if (desc_start_idx <? len)
          && match parts !! Z.to_nat desc_start_idx with
             | Some p => String.eqb p "Y" || String.eqb p "N"
             | None => false
             end
       then desc_start_idx + 1 else desc_start_idx in
     let desc_end_idx := if 0 <? bo_qty then len - 3 else len - 2 in
     let description :=
       if desc_start_idx <? desc_end_idx
       then join " " (take (Z.to_nat (desc_end_idx - desc_start_idx))
                        (drop (Z.to_nat desc_start_idx) parts))
       else "" in
     Ok (Some (Item (Int shipped_qty) None item_id sku description
                 (Some price) (Some amount))))
    is_ValueError_or_IndexError (Ok None).

(** One turn of the loop over the lines of a page.  The flag [skip_next]
    of the source is never set and is left out. *)
Definition body (include_zero_qty : bool) (line : string)
  (s : bool * list LineItem) : outcome (bool * list LineItem) :=
  let '(in_items, items) := s in
  if contains "Ship Item#" line && contains "B/O" line
  then Ok (true, items)
  else if in_items && (contains "Subtotal" line || contains "TOTAL" line
                       || startswith "Page" line || contains "Total:" line)
  then Ok (false, items)
  else if in_items && truthy (strip line) && negb (startswith "Page" line)
  then
    match _parse_line (strip line) with
    | Ok (Some it) =>
        match quantity it with
        | Int 0 => if negb include_zero_qty then Ok s
                   else Ok (in_items, (items ++ [it])%list)
        | _ => Ok (in_items, (items ++ [it])%list)
        end
    | Ok None => Ok s
    | Raise _ => Ok s
    end
  else Ok s.

Definition scan_page (include_zero_qty : bool) (lines : list string)
  (found : list LineItem) : outcome (list LineItem) :=
  s ← for_each (body include_zero_qty) lines (false, found);
  Ok (snd s).

Definition parse (doc : pdf) (include_zero_qty : bool)
  : outcome (list LineItem) :=
  over_pages (scan_page include_zero_qty) doc [].

End JPTParser.

(** ** [ChartpakParser.parse_with_backorders] *)

(** A record of [parse_with_backorders]: the line item with its list
    price and, in the list of backorders, the quantity on backorder. *)
Record BackorderItem : Set := Priced {
  line_item : LineItem;
  retail_price : float;
  backorder_quantity : option Z
}.

Module ChartpakBackorders.

Import ChartpakParser.

Definition state : Set := bool * list BackorderItem * list BackorderItem.

Definition body (line : string) (s : state) : outcome state :=
  let '(in_items, regular_items, backorder_items) := s in
  if contains "SHIPPED" line && contains "UNIT" line
     && contains "CATALOG" line
  then Ok (true, regular_items, backorder_items)
  else if contains "SUB-TOTAL" line || contains "TOTAL" line
  then Ok (false, regular_items, backorder_items)
  else if in_items && truthy (strip line) then
    match Re.groups format1_re (strip line) with
    | Some [Some qty_str; bo_str; Some item_code; Some desc;
            Some list_price; Some discount; Some net_price; Some amount] =>
        shipped_qty ← int qty_str;
        backorder_qty ← (if truthy_opt bo_str then int (default "" bo_str)
                         else Ok 0);
        catch
          (unit_price ← float_of_str net_price;
           total ← float_of_str amount;
           retail ← float_of_str list_price;
           let it :=
             Item (Int shipped_qty) None item_code item_code (strip desc)
               (Some unit_price) (Some total) in
           let regular_items :=
             if 0 <? shipped_qty
             then (regular_items ++ [Priced it retail None])%list
             else regular_items in
           let backorder_items :=
             if 0 <? backorder_qty
             then (backorder_items ++ [Priced it retail (Some backorder_qty)])%list
             else backorder_items in
           Ok (in_items, regular_items, backorder_items))
          is_ValueError (Ok s)
    | Some _ => Ok s
    | None =>
        match Re.groups format2_re (strip line) with
        | Some [Some backorder_qty; Some item_code; Some desc;
                Some list_price; Some discount; Some net_price;
                Some amount] =>
            backorder_qty ← int backorder_qty;
            catch
              (unit_price ← float_of_str net_price;
               retail ← float_of_str list_price;
               Ok (in_items, regular_items,
                   (backorder_items ++
                    [Priced
                       (Item (Int 0) None item_code item_code (strip desc)
                          (Some unit_price) (Some (float_of_Z 0)))
                       retail (Some backorder_qty)])%list))
              is_ValueError (Ok s)
        | _ => Ok s
        end
    end
  else Ok s.

(** The loop over the pages that have text. *)
Fixpoint over_pages (doc : pdf)
  (found : list BackorderItem * list BackorderItem)
  : outcome (list BackorderItem * list BackorderItem) :=
  match doc with
  | [] => Ok found
  | p :: doc' =>
      match extract_text p with
      | Some text =>
          if truthy text then
            s ← for_each body (lines_of text) (false, fst found, snd found);
            over_pages doc' (snd (fst s), snd s)
          else over_pages doc' found
      | None => over_pages doc' found
      end
  end.

Definition parse_with_backorders (doc : pdf)
  : outcome (list BackorderItem * list BackorderItem) :=
  over_pages doc ([], []).

End ChartpakBackorders.

(** ** The registry and the dispatch *)

(** The parser classes of the module. *)
Inductive parser_class : Set :=
| ItoyaParser_
| LuxuryBrandsParser_
| RediformParser_
| TomsStudioParser_
| ColesParser_
| LamyParser_
| PilotParser_
| MontblancParser_
| LighthouseParser_
| Retro51Parser_
| TWSBIParser_
| WriteUSAParser_
| KenroParser_
| AvantiParser_
| PlotterParser_
| TSLParser_
| ExaclairParser_
| UniBallParser_
| AmeicoParser_
| ChartpakParser_
| JPTParser_
| WearingeulParser_
| EliteAccessoriesParser_.

Definition CUSTOM_PARSERS : gmap string parser_class :=
  list_to_map [
    ("itoya", ItoyaParser_);
    ("luxury_brands", LuxuryBrandsParser_);
    ("rediform", RediformParser_);
    ("toms_studio", TomsStudioParser_);
    ("coles", ColesParser_);
    ("lamy", LamyParser_);
    ("pilot", PilotParser_);
    ("montblanc", MontblancParser_);
    ("lighthouse", LighthouseParser_);
    ("retro51", Retro51Parser_);
    ("twsbi", TWSBIParser_);
    ("writeusa", WriteUSAParser_);
    ("kenro", KenroParser_);
    ("avanti", AvantiParser_);
    ("plotter", PlotterParser_);
    ("tsl", TSLParser_);
    ("exaclair", ExaclairParser_);
    ("uniball", UniBallParser_);
    ("ameico", AmeicoParser_);
    ("chartpak", ChartpakParser_);
    ("jpt", JPTParser_);
    ("wearingeul", WearingeulParser_);
    ("elite_accessories", EliteAccessoriesParser_)
  ].

Definition detect_vendor (text : string) : string :=
  if contains "ITOYA" text && contains "Item Description UOM" text
  then "itoya"
  else if contains "Luxury Brands" text || contains "luxurybrands" (lower text)
  then "luxury_brands"
  else if contains "Rediform" text || contains "REDIFORM" text
  then "rediform"
  else if contains "Tom's Studio" text
  then "toms_studio"
  else if contains "Coles" text && contains "McAlpine Park Drive" text
  then "coles"
  else if contains "Lamy USA" text || contains "LAMY" text
  then "lamy"
  else if contains "PCAINV" text && contains "DALLAS, TX" text
  then "pilot"
  else if contains "Montblanc North America" text
  then "montblanc"
  else if contains "Lighthouse Publications" text
  then "lighthouse"
  else if contains "Retro 1951" text || contains "retro51.com" text
  then "retro51"
  else if contains "TWSBI INC" text
  then "twsbi"
  else if contains "Write USA LLC" text
  then "writeusa"
  else if contains "Kenro Industries" text
  then "kenro"
  else if contains "AVANTI PRESS" text
  then "avanti"
  else if contains "PLOTTER USA" text || contains "plotterusa.com" (lower text)
  then "plotter"
  else if contains "ORDER NUMBER" text && contains "SL_" text
  then "tsl"
  else if contains "EXACLAIR, INC." text || contains "EXACLAIR" text
  then "exaclair"
  else if contains "uni-ball Corporation" text || contains "uni-ball" text
  then "uniball"
  else if contains "Ameico" text && contains "New Milford CT" text
  then "ameico"
  else if contains "CHARTPAK" text || contains "CHARTPAK, INC" text
  then "chartpak"
  else if contains "JPT AMERICA" text || contains "jptamerica" (lower text)
  then "jpt"
  else if contains "Abledesign Entertainment" text
          || contains "Order Sheet" text
  then "wearingeul"
  else if contains "Elite Accessories" text
          || contains "ELITE ACCESSORIES" text
  then "elite_accessories"
  else "".

(** A parser's [parse] method. *)
Definition parse_method : Type := pdf -> bool -> outcome (list LineItem).

Section Dispatch.

(** The [parse] methods of the classes whose scanners are not embedded
    above. *)
Variable other_parse : parser_class -> parse_method.

Definition parse_of (c : parser_class) : parse_method :=
  match c with
  | ItoyaParser_ => ItoyaParser.parse
  | MontblancParser_ => MontblancParser.parse
  | KenroParser_ => KenroParser.parse
  | AvantiParser_ => AvantiParser.parse
  | ExaclairParser_ => ExaclairParser.parse
  | ChartpakParser_ => ChartpakParser.parse
  | _ => other_parse c
  end.

Definition parse_with_custom_parser (doc : pdf) (include_zero_qty : bool)
  : outcome (list LineItem) :=
  match doc with
  | [] => Ok []
  | first_page :: _ =>
      let text := default "" (extract_text first_page) in
      let vendor := detect_vendor text in
      match truthy vendor, CUSTOM_PARSERS !! vendor with
      | true, Some parser_class => parse_of parser_class doc include_zero_qty
      | _, _ => Ok []
      end
  end.

(** [InvoiceParser.extract_line_items] *)
Definition extract_line_items (INCLUDE_ZERO_QUANTITY : bool) (doc : pdf)
  : outcome (list LineItem) :=
  custom_items ← parse_with_custom_parser doc INCLUDE_ZERO_QUANTITY;
  match custom_items with
  | _ :: _ => Ok custom_items
  | [] => InvoiceParser._extract_table_based INCLUDE_ZERO_QUANTITY doc
  end.

End Dispatch.

(* ===================================================================== *)
(** * What a match means

    The matcher explores alternatives in Python's order; the relation
    below forgets the order and says which end states a pattern can reach
    from a state at all.  Whatever the matcher returns is in the
    relation ([rmatch_sound]), which is how facts about captured groups are
    derived from a pattern: the characters a group can hold ([within]) and
    how many it holds at least ([min_len]). *)
(* ===================================================================== *)

Module ReSpec.

Import Re.

Inductive iter (R : mstate -> mstate -> Prop) : nat -> mstate -> mstate -> Prop :=
| iter_O st : iter R 0 st st
| iter_S n st st1 st2 : R st st1 -> iter R n st1 st2 -> iter R (S n) st st2.

Definition newline : ascii := "010"%char.

Fixpoint matches (r : regex) : mstate -> mstate -> Prop :=
  match r with
  | Eps => fun st st' => st' = st
  | Chr negated items => fun st st' =>
      exists c l, rest st = c :: l /\ cls_match negated items c = true
                  /\ st' = MS (c :: pre st) l (caps st)
  | Any => fun st st' =>
      exists c l, rest st = c :: l /\ negb (Ascii.eqb c newline) = true
                  /\ st' = MS (c :: pre st) l (caps st)
  | Seq r1 r2 => fun st st' =>
      exists st1, matches r1 st st1 /\ matches r2 st1 st'
  | Alt r1 r2 => fun st st' => matches r1 st st' \/ matches r2 st st'
  | Rep lo hi greedy r' => fun st st' =>
      exists n, (lo <= n)%nat /\ iter (matches r') n st st'
  | Group i r' => fun st st' =>
      exists st1, matches r' st st1 /\ st' = set_cap i st st1
  | Bol => fun st st' => pre st = [] /\ st' = st
  | Eol => fun st st' => st' = st
  | Ahead r' => fun st st' => st' = st
  | Behind negated items => fun st st' => st' = st
  end.

Definition all_ascii : list ascii := List.map ascii_of_nat (seq 0 256).

(** Every character the pattern can consume satisfies [p]. *)
Fixpoint within (p : ascii -> bool) (r : regex) : bool :=
  match r with
  | Chr negated items =>
      forallb (fun c => implb (cls_match negated items c) (p c)) all_ascii
  | Any =>
      forallb (fun c => implb (negb (Ascii.eqb c newline)) (p c)) all_ascii
  | Seq r1 r2 | Alt r1 r2 => within p r1 && within p r2
  | Rep _ _ _ r' | Group _ r' => within p r'
  | Eps | Bol | Eol | Ahead _ | Behind _ _ => true
  end.

(** A lower bound on the number of characters the pattern consumes. *)
Fixpoint min_len (r : regex) : nat :=
  match r with
  | Chr _ _ | Any => 1
  | Seq r1 r2 => min_len r1 + min_len r2
  | Alt r1 r2 => Nat.min (min_len r1) (min_len r2)
  | Rep lo _ _ r' => lo * min_len r'
  | Group _ r' => min_len r'
  | Eps | Bol | Eol | Ahead _ | Behind _ _ => 0
  end.

(** What is claimed of each group: a class its characters belong to and a
    least length. *)
Definition group_spec : Type := nat -> (ascii -> bool) * nat.

Fixpoint groups_ok (spec : group_spec) (r : regex) : bool :=
  match r with
  | Group i r' =>
      within (fst (spec i)) r' && (snd (spec i) <=? min_len r')%nat
      && groups_ok spec r'
  | Seq r1 r2 | Alt r1 r2 => groups_ok spec r1 && groups_ok spec r2
  | Rep _ _ _ r' => groups_ok spec r'
  | _ => true
  end.

Definition word_ok (spec : group_spec) (i : nat) (w : list ascii) : Prop :=
  Forall (fun c => fst (spec i) c = true) w /\ (snd (spec i) <= List.length w)%nat.

Definition caps_ok (spec : group_spec) (cs : list (option (list ascii)))
  : Prop :=
  forall i w, cs !! i = Some (Some w) -> word_ok spec i w.

End ReSpec.

(* ===================================================================== *)
(** * Definitions that follow the specification's words

    Each is compared with its counterpart from the source in the theorems
    below. *)
(* ===================================================================== *)

Module Spec.

(** ** Vendor detection as a priority list *)

(** A phrase occurs in a text: the text is the phrase between two other
    texts. *)
Definition occurs (phrase text : string) : Prop :=
  exists before after, text = before +:+ phrase +:+ after.

(** What triggers a rule: a phrase in the text, a phrase in the text put
    in lower case, or two such tests joined by and, or by or. *)
Inductive trigger : Set :=
| Phrase (phrase : string)
| PhraseAnyCase (phrase : string)
| Both (t1 t2 : trigger)
| Either (t1 t2 : trigger).

Fixpoint triggered (t : trigger) (text : string) : Prop :=
  match t with
  | Phrase p => occurs p text
  | PhraseAnyCase p => occurs p (lower text)
  | Both t1 t2 => triggered t1 text /\ triggered t2 text
  | Either t1 t2 => triggered t1 text \/ triggered t2 text
  end.

(** The priority list: each trigger with the identifier it is bound to,
    the first rule first. *)
Definition vendor_priorities : list (trigger * string) := [
  (Both (Phrase "ITOYA") (Phrase "Item Description UOM"), "itoya");
  (Either (Phrase "Luxury Brands") (PhraseAnyCase "luxurybrands"),
   "luxury_brands");
  (Either (Phrase "Rediform") (Phrase "REDIFORM"), "rediform");
  (Phrase "Tom's Studio", "toms_studio");
  (Both (Phrase "Coles") (Phrase "McAlpine Park Drive"), "coles");
  (Either (Phrase "Lamy USA") (Phrase "LAMY"), "lamy");
  (Both (Phrase "PCAINV") (Phrase "DALLAS, TX"), "pilot");
  (Phrase "Montblanc North America", "montblanc");
  (Phrase "Lighthouse Publications", "lighthouse");
  (Either (Phrase "Retro 1951") (Phrase "retro51.com"), "retro51");
  (Phrase "TWSBI INC", "twsbi");
  (Phrase "Write USA LLC", "writeusa");
  (Phrase "Kenro Industries", "kenro");
  (Phrase "AVANTI PRESS", "avanti");
  (Either (Phrase "PLOTTER USA") (PhraseAnyCase "plotterusa.com"), "plotter");
  (Both (Phrase "ORDER NUMBER") (Phrase "SL_"), "tsl");
  (Either (Phrase "EXACLAIR, INC.") (Phrase "EXACLAIR"), "exaclair");
  (Either (Phrase "uni-ball Corporation") (Phrase "uni-ball"), "uniball");
  (Both (Phrase "Ameico") (Phrase "New Milford CT"), "ameico");
  (Either (Phrase "CHARTPAK") (Phrase "CHARTPAK, INC"), "chartpak");
  (Either (Phrase "JPT AMERICA") (PhraseAnyCase "jptamerica"), "jpt");
  (Either (Phrase "Abledesign Entertainment") (Phrase "Order Sheet"),
   "wearingeul");
  (Either (Phrase "Elite Accessories") (Phrase "ELITE ACCESSORIES"),
   "elite_accessories")
].

(** The test the source writes for a trigger. *)
Fixpoint test (t : trigger) (text : string) : bool :=
  match t with
  | Phrase p => contains p text
  | PhraseAnyCase p => contains p (lower text)
  | Both t1 t2 => test t1 text && test t2 text
  | Either t1 t2 => test t1 text || test t2 text
  end.

Definition tests (rules : list (trigger * string))
  : list ((string -> bool) * string) :=
  List.map (fun rule => (test (fst rule), snd rule)) rules.

(** The priority list with its tests. *)
Definition vendor_rules : list ((string -> bool) * string) :=
  tests vendor_priorities.

(** The identifier of the first rule whose predicate holds; the empty
    string, the no-vendor result, when none does. *)
Fixpoint first_match (rules : list ((string -> bool) * string))
  (text : string) : string :=
  match rules with
  | [] => ""
  | (matches_text, vendor) :: rules' =>
      if matches_text text then vendor else first_match rules' text
  end.

Definition vendor_ids : list string := List.map snd vendor_rules.

(** ** Header detection *)

(** The indicator terms as the specification lists them. *)
Definition spec_indicators : list string :=
  ["quantity"; "item"; "sku"; "product"; "price"; "amount"; "total"].

(** A term occurs in a row when some cell's text contains it, case
    ignored. *)
Definition occurs_in (r : row) (term : string) : bool :=
  existsb (fun c => match c with
                    | Some s => contains term (lower s)
                    | None => false
                    end) r.

(** How many of the terms occur in the row. *)
Definition hits (terms : list string) (r : row) : nat :=
  List.length (List.filter (occurs_in r) terms).

(** [r] at index [idx] is the earliest of the first five rows of [t] with
    three or more of the terms. *)
Definition earliest_header (terms : list string) (t : table)
  (idx : nat) (r : row) : Prop :=
  (idx < 5)%nat /\ t !! idx = Some r /\ (3 <= hits terms r)%nat
  /\ forall j r', (j < idx)%nat -> t !! j = Some r' -> (hits terms r' < 3)%nat.

(** ** Continuation tables *)







(** ** Quantities *)


(** The float [x] is the number [n / d]. *)
Definition float_is (x : float) (n d : Z) : Prop :=
  match x with
  | Fin neg m e =>
      (if neg then - m else m) * 2 ^ (e + 1074) * d = n * 2 ^ 1074
  | _ => False
  end.


(** The text of the first page, as the dispatch reads it. *)
Definition first_page_text (doc : pdf) : string :=
  match doc with
  | [] => ""
  | p :: _ => default "" (extract_text p)
  end.

End Spec.

(** ** Sample documents *)

Module Samples.

Definition nl : string := String "010" "".

(** A page with the given lines of text and no table. *)
Definition text_page (lines : list string) : page :=
  Page (Some (join nl lines)) [].

(** A page with one table and no text. *)
Definition table_page (t : table) : page := Page None [t].

Definition chartpak_backorder_only : pdf :=
  [text_page ["CHARTPAK, INC";
              "QTY SHIPPED UNIT B/O CATALOG NO. DESCRIPTION";
              "EA 2 N868-51 A6 5MM GRE 32.000 .550 14.400 .00"]].






Definition itoya_header_line : string :=
  "Item Description UOM Ordered Shipped Back Ordered Price Amount".

Definition itoya_item_line : string :=
  "10-9847-620 KOP - TAMENURI RADEN 'NAMI' LE EACH 2 2 0 1,680.00 3,360.00".

Definition itoya_page_text : string :=
  join nl [itoya_header_line; itoya_item_line; "FOUNTAIN PEN (M NIB)"].

Definition itoya_header_only : pdf :=
  [text_page ["ITOYA"; "Item Description UOM Ordered Shipped"]].

End Samples.

(* ===================================================================== *)
(** * Properties of the matcher *)
(* ===================================================================== *)

Module ReFacts.

Import Re ReSpec.

Lemma all_ascii_complete (c : ascii) : In c all_ascii.
Proof.
  unfold all_ascii. apply in_map_iff. exists (nat_of_ascii c). split.
  - apply ascii_nat_embedding.
  - apply in_seq. pose proof (nat_ascii_bounded c). lia.
Qed.

Section Body.

Variable body : matcher.
Variable R : mstate -> mstate -> Prop.
Hypothesis body_sound :
  forall A st k a, body A st k = Some a -> exists st', R st st' /\ k st' = Some a.

Lemma rep_more_sound greedy fuel : forall budget A st k a,
  rep_more body greedy fuel budget A st k = Some a ->
  exists n st', iter R n st st' /\ k st' = Some a.
Proof.
  induction fuel as [|fuel IH]; intros budget A st k a H; simpl in H.
  - exists 0%nat, st. split; [constructor | exact H].
  - assert (Hstop : forall a', k st = Some a' ->
      exists n st', iter R n st st' /\ k st' = Some a').
    { intros a' Hk. exists 0%nat, st. split; [constructor | exact Hk]. }
    assert (Hagain : forall a' budget',
      body A st (fun st' =>
        if (List.length (rest st') <? List.length (rest st))%nat
        then rep_more body greedy fuel budget' A st' k
        else None) = Some a' ->
      exists n st', iter R n st st' /\ k st' = Some a').
    { intros a' budget' Hb. apply body_sound in Hb as (st1 & HR & Hk).
      destruct (_ <? _)%nat; [|discriminate].
      apply IH in Hk as (n & st' & Hit & Hk).
      exists (S n), st'. split; [econstructor; eauto | exact Hk]. }
    destruct budget as [[|b]|]; [auto | |]; destruct greedy;
      repeat match type of H with
             | match ?x with Some _ => _ | None => _ end = Some _ =>
                 let E := fresh "E" in
                 destruct x eqn:E; [injection H as ->|]
             end; eauto.
Qed.

Lemma rep_must_sound greedy lo : forall budget A st k a,
  rep_must body greedy lo budget A st k = Some a ->
  exists n st', (lo <= n)%nat /\ iter R n st st' /\ k st' = Some a.
Proof.
  induction lo as [|lo IH]; intros budget A st k a H; cbn [rep_must] in H.
  - apply rep_more_sound in H as (n & st' & Hit & Hk).
    exists n, st'. split; [lia | auto].
  - apply body_sound in H as (st1 & HR & Hk).
    apply IH in Hk as (n & st' & Hle & Hit & Hk).
    exists (S n), st'. split; [lia |]. split; [econstructor; eauto | exact Hk].
Qed.

End Body.

(** Whatever the matcher hands to its continuation is an end state of the
    pattern. *)
Lemma rmatch_sound (r : regex) : forall A st k a,
  rmatch r A st k = Some a ->
  exists st', matches r st st' /\ k st' = Some a.
Proof.
  induction r as [ | negated items | | r1 IH1 r2 IH2 | r1 IH1 r2 IH2
                 | lo hi greedy r IH | i r IH | | | r IH | negated items ];
    intros A st k a H; simpl in H.
  - exists st. split; [reflexivity | exact H].
  - unfold step_char in H. destruct (rest st) as [|c l] eqn:Hr; [discriminate|].
    destruct (cls_match negated items c) eqn:Hc; [|discriminate].
    eexists. split; [|exact H]. simpl. eauto 6.
  - unfold step_char in H. destruct (rest st) as [|c l] eqn:Hr; [discriminate|].
    destruct (negb (Ascii.eqb c "010")) eqn:Hc; [|discriminate].
    eexists. split; [|exact H]. simpl. exists c, l. auto.
  - apply IH1 in H as (st1 & H1 & H). apply IH2 in H as (st2 & H2 & H).
    exists st2. split; [|exact H]. simpl. eauto.
  - destruct (rmatch r1 A st k) eqn:H1.
    + injection H as ->. apply IH1 in H1 as (st' & H1 & Hk).
      exists st'. split; [left; exact H1 | exact Hk].
    + apply IH2 in H as (st' & H2 & Hk).
      exists st'. split; [right; exact H2 | exact Hk].
  - apply (rep_must_sound _ (matches r) IH) in H as (n & st' & Hle & Hit & Hk).
    exists st'. split; [|exact Hk]. simpl. eauto.
  - apply IH in H as (st1 & H1 & Hk).
    exists (set_cap i st st1). split; [|exact Hk]. simpl. eauto.
  - destruct (pre st) eqn:Hp; [|discriminate].
    exists st. split; [|exact H]. simpl. auto.
  - exists st. split; [reflexivity|].
    destruct (rest st) as [|c [|c' l]]; try discriminate; auto.
    destruct (Ascii.eqb c "010"); [exact H | discriminate].
  - destruct (rmatch r unit st _); [|discriminate].
    exists st. split; [reflexivity | exact H].
  - destruct (pre st) as [|c l]; [discriminate|].
    destruct (cls_match negated items c); [|discriminate].
    exists st. split; [reflexivity | exact H].
Qed.

(** The word between two states: what a match consumed. *)
Definition spans (st st' : mstate) (w : list ascii) : Prop :=
  rest st = (w ++ rest st')%list /\ pre st' = (rev w ++ pre st)%list.

Lemma spans_consumed st st' w : spans st st' w -> consumed st st' = w.
Proof.
  intros [_ Hpre]. unfold consumed, position. rewrite Hpre.
  rewrite length_app, length_rev.
  replace (List.length w + List.length (pre st) - List.length (pre st))%nat
    with (List.length (rev w)) by (rewrite length_rev; lia).
  rewrite take_app_length. apply rev_involutive.
Qed.

Lemma spans_refl st : spans st st [].
Proof. split; reflexivity. Qed.

Lemma spans_trans st st1 st2 w1 w2 :
  spans st st1 w1 -> spans st1 st2 w2 -> spans st st2 (w1 ++ w2).
Proof.
  intros [Hr1 Hp1] [Hr2 Hp2]. split.
  - rewrite Hr1, Hr2. rewrite <- app_assoc. reflexivity.
  - rewrite Hp2, Hp1, rev_app_distr. rewrite <- app_assoc. reflexivity.
Qed.

Lemma within_class p (ok : ascii -> bool) c :
  forallb (fun c => implb (ok c) (p c)) all_ascii = true ->
  ok c = true -> p c = true.
Proof.
  intros H Hc. rewrite forallb_forall in H.
  specialize (H c (all_ascii_complete c)). rewrite Hc in H. exact H.
Qed.

(** What one match consumes: a word of at least [min_len r] characters,
    all of them in any class the pattern stays [within]. *)
Lemma matches_word (r : regex) : forall st st',
  matches r st st' ->
  exists w, spans st st' w /\ (min_len r <= List.length w)%nat
            /\ forall p, within p r = true -> Forall (fun c => p c = true) w.
Proof.
  induction r as [ | negated items | | r1 IH1 r2 IH2 | r1 IH1 r2 IH2
                 | lo hi greedy r IH | i r IH | | | r IH | negated items ];
    intros st st' H; simpl in H.
  - subst. exists []. split; [apply spans_refl|]. split; [simpl; lia | auto].
  - destruct H as (c & l & Hr & Hc & ->). exists [c]. split.
    + split; simpl; auto.
    + split; [simpl; lia|]. intros p Hp. constructor; [|constructor].
      eapply within_class; [exact Hp | exact Hc].
  - destruct H as (c & l & Hr & Hc & ->). exists [c]. split.
    + split; simpl; auto.
    + split; [simpl; lia|]. intros p Hp. constructor; [|constructor].
      eapply (within_class p (fun c => negb (Ascii.eqb c newline)));
        [exact Hp | exact Hc].
  - destruct H as (st1 & H1 & H2).
    apply IH1 in H1 as (w1 & Hs1 & Hl1 & Hp1).
    apply IH2 in H2 as (w2 & Hs2 & Hl2 & Hp2).
    exists (w1 ++ w2)%list. split; [eapply spans_trans; eauto|]. split.
    + rewrite length_app. simpl. lia.
    + intros p Hp. simpl in Hp. apply andb_prop in Hp as [Ha Hb].
      apply Forall_app. split; auto.
  - destruct H as [H | H].
    + apply IH1 in H as (w & Hs & Hl & Hp). exists w. split; [exact Hs|].
      split; [simpl; lia|]. intros p Hw. simpl in Hw.
      apply andb_prop in Hw as [Ha _]. auto.
    + apply IH2 in H as (w & Hs & Hl & Hp). exists w. split; [exact Hs|].
      split; [simpl; lia|]. intros p Hw. simpl in Hw.
      apply andb_prop in Hw as [_ Hb]. auto.
  - destruct H as (n & Hle & Hit).
    assert (Hn : exists w, spans st st' w
              /\ (n * min_len r <= List.length w)%nat
              /\ forall p, within p r = true -> Forall (fun c => p c = true) w).
    { clear Hle. induction Hit as [st | n st st1 st2 H1 Hit IHit].
      - exists []. split; [apply spans_refl|]. split; [simpl; lia | auto].
      - apply IH in H1 as (w1 & Hs1 & Hl1 & Hp1).
        destruct IHit as (w2 & Hs2 & Hl2 & Hp2).
        exists (w1 ++ w2)%list. split; [eapply spans_trans; eauto|]. split.
        + rewrite length_app. simpl. lia.
        + intros p Hp. apply Forall_app. split; auto. }
    destruct Hn as (w & Hs & Hl & Hp). exists w. split; [exact Hs|].
    split; [simpl; nia | exact Hp].
  - destruct H as (st1 & H1 & ->).
    apply IH in H1 as (w & [Hr Hpre] & Hl & Hp). exists w.
    split; [split; simpl; auto|]. split; [exact Hl | exact Hp].
  - destruct H as [_ ->]. exists []. split; [apply spans_refl|].
    split; [simpl; lia | auto].
  - subst. exists []. split; [apply spans_refl|]. split; [simpl; lia | auto].
  - subst. exists []. split; [apply spans_refl|]. split; [simpl; lia | auto].
  - subst. exists []. split; [apply spans_refl|]. split; [simpl; lia | auto].
Qed.

(** A match keeps every captured group within its claim. *)
Lemma matches_caps (spec : group_spec) (r : regex) :
  groups_ok spec r = true ->
  forall st st', matches r st st' ->
    caps_ok spec (caps st) -> caps_ok spec (caps st').
Proof.
  induction r as [ | negated items | | r1 IH1 r2 IH2 | r1 IH1 r2 IH2
                 | lo hi greedy r IH | i r IH | | | r IH | negated items ];
    intros Hok st st' H Hc; simpl in H, Hok.
  - subst. exact Hc.
  - destruct H as (c & l & _ & _ & ->). exact Hc.
  - destruct H as (c & l & _ & _ & ->). exact Hc.
  - apply andb_prop in Hok as [Ha Hb]. destruct H as (st1 & H1 & H2). eauto.
  - apply andb_prop in Hok as [Ha Hb]. destruct H as [H | H]; eauto.
  - destruct H as (n & _ & Hit).
    induction Hit as [st | n st st1 st2 H1 Hit IHit]; eauto.
  - apply andb_prop in Hok as [Hok Hg]. apply andb_prop in Hok as [Hw Hl].
    destruct H as (st1 & H1 & ->).
    pose proof (IH Hg _ _ H1 Hc) as Hc1.
    apply matches_word in H1 as (w & Hs & Hlen & Hp).
    intros j u Hj. simpl in Hj.
    apply list_lookup_insert_Some in Hj as [(<- & Hu & _) | (_ & Hj)].
    + injection Hu as <-. rewrite (spans_consumed _ _ _ Hs). split.
      * apply Hp. exact Hw.
      * apply Nat.leb_le in Hl. lia.
    + apply Hc1. exact Hj.
  - destruct H as [_ ->]. exact Hc.
  - subst. exact Hc.
  - subst. exact Hc.
  - subst. exact Hc.
Qed.

Lemma chars_str (l : list ascii) : Py.chars (Py.str l) = l.
Proof. apply list_ascii_of_string_of_list_ascii. Qed.

Lemma str_chars (s : string) : Py.str (Py.chars s) = s.
Proof. apply string_of_list_ascii_of_string. Qed.

(** The groups of [re.match(pat, s).groups()] are within their claims. *)
Theorem groups_sound (spec : group_spec) (rn : regex * nat) (s : string)
  (gs : list (option string)) :
  groups_ok spec (fst rn) = true ->
  groups rn s = Some gs ->
  forall i t, gs !! i = Some (Some t) -> word_ok spec (S i) (Py.chars t).
Proof.
  intros Hok Hg i t Hi. unfold groups, match_ in Hg.
  destruct (match_here rn false [] (Py.chars s)) as [st'|] eqn:Hm;
    [|discriminate].
  simpl in Hg. injection Hg as <-.
  unfold match_here in Hm. apply rmatch_sound in Hm as (st1 & Hm & Hk).
  simpl in Hk. injection Hk as ->.
  assert (Hc : caps_ok spec (caps st')).
  { eapply matches_caps; [exact Hok | exact Hm |].
    intros j w Hj. unfold start_state in Hj. cbn [caps] in Hj.
    apply lookup_replicate in Hj as [Hj _]. discriminate. }
  unfold match_of in Hi. simpl in Hi.
  rewrite list_lookup_fmap in Hi.
  destruct (tail (caps st') !! i) as [[w|]|] eqn:Hw; try discriminate.
  simpl in Hi. injection Hi as <-. rewrite chars_str.
  apply Hc. rewrite <- Hw. destruct (caps st'); reflexivity.
Qed.

End ReFacts.

(* ===================================================================== *)
(** * Loops: invariants and fuel *)
(* ===================================================================== *)

Lemma bind_Ok {A B : Type} (c : outcome A) (k : A -> outcome B) (b : B) :
  (x ← c; k x) = Ok b -> exists a, c = Ok a /\ k a = Ok b.
Proof.
  unfold mbind, outcome_bind, bind. destruct c as [a|e]; [eauto | discriminate].
Qed.

Lemma catch_Ok {A : Type} (c : outcome A) caught (h : outcome A) (a : A) :
  catch c caught h = Ok a -> c = Ok a \/ h = Ok a.
Proof.
  unfold catch. destruct c as [a'|e]; [auto|].
  destruct (caught e); [auto | discriminate].
Qed.

Lemma for_each_inv {A S : Type} (P : S -> Prop) (body : A -> S -> outcome S) :
  (forall a s s', P s -> body a s = Ok s' -> P s') ->
  forall l s s', P s -> for_each body l s = Ok s' -> P s'.
Proof.
  intros Hbody l. induction l as [|a l IH]; intros s s' Hs H; simpl in H.
  - injection H as <-. exact Hs.
  - apply bind_Ok in H as (s1 & H1 & H). eauto.
Qed.

Lemma while_inv {S R : Type} (I : S -> Prop) (Q : R -> Prop)
  (body : S -> outcome (step S R)) (out_of_fuel : S -> R) :
  (forall s s', I s -> body s = Ok (Continue s') -> I s') ->
  (forall s r, I s -> body s = Ok (Break r) -> Q r) ->
  (forall s, I s -> Q (out_of_fuel s)) ->
  forall fuel s r, I s -> while fuel body out_of_fuel s = Ok r -> Q r.
Proof.
  intros Hc Hb Ho fuel. induction fuel as [|fuel IH]; intros s r Hs H; simpl in H.
  - injection H as <-. auto.
  - destruct (body s) as [[s'|r']|e] eqn:E; try discriminate.
    + eauto.
    + injection H as <-. eauto.
Qed.

(** With a measure that every iteration decreases, any fuel above the
    measure gives the same result: the loop never runs out. *)
Lemma while_enough_fuel {S R : Type} (measure : S -> nat)
  (body : S -> outcome (step S R)) (out_of_fuel : S -> R) :
  (forall s s', body s = Ok (Continue s') -> (measure s' < measure s)%nat) ->
  forall fuel1 fuel2 s,
    (measure s < fuel1)%nat -> (measure s < fuel2)%nat ->
    while fuel1 body out_of_fuel s = while fuel2 body out_of_fuel s.
Proof.
  intros Hdec fuel1. induction fuel1 as [|fuel1 IH]; intros fuel2 s H1 H2.
  - lia.
  - destruct fuel2 as [|fuel2]; [lia|]. simpl.
    destruct (body s) as [[s'|r]|e] eqn:E; try reflexivity.
    apply Hdec in E. apply IH; lia.
Qed.

Lemma over_pages_inv (P : list LineItem -> Prop)
  (scan_page : list string -> list LineItem -> outcome (list LineItem)) :
  (forall lines items items',
     P items -> scan_page lines items = Ok items' -> P items') ->
  forall doc items items',
    P items -> over_pages scan_page doc items = Ok items' -> P items'.
Proof.
  intros Hscan doc. induction doc as [|p doc IH]; intros items items' Hi H;
    simpl in H.
  - injection H as <-. exact Hi.
  - destruct (extract_text p) as [text|]; [|eauto].
    destruct (truthy text); [|eauto].
    apply bind_Ok in H as (items1 & H1 & H). eauto.
Qed.

Lemma Ok_Some_inj {A : Type} (a b : A) :
  @Ok (option A) (Some a) = Ok (Some b) -> a = b.
Proof. congruence. Qed.

Lemma truthy_nonempty (s : string) : truthy s = true -> s <> "".
Proof.
  unfold truthy. intros H ->. discriminate.
Qed.

(* ===================================================================== *)
(** * The table-based parser: what every record satisfies *)
(* ===================================================================== *)

Module InvoiceParserFacts.

Import InvoiceParser.




Lemma collect_rows_inv (P : LineItem -> Prop)
  (parse_row : row -> outcome (option LineItem)) :
  (forall r it, parse_row r = Ok (Some it) -> P it) ->
  forall rows items items',
    Forall P items -> collect_rows parse_row rows items = Ok items' ->
    Forall P items'.
Proof.
  intros Hrow rows. induction rows as [|r rows IH]; intros items items' Hi H;
    simpl in H.
  - injection H as <-. exact Hi.
  - apply bind_Ok in H as (o & Ho & H). eapply IH; [|exact H].
    destruct o as [it|]; [|exact Hi].
    apply Forall_app. split; [exact Hi|]. constructor; [eauto | constructor].
Qed.



End InvoiceParserFacts.


(* ===================================================================== *)
(** * The Montblanc scanner: the article number of every record *)
(* ===================================================================== *)

Lemma length_chars (s : string) : List.length (chars s) = String.length s.
Proof.
  induction s as [|c s IH]; simpl; [reflexivity | now rewrite IH].
Qed.

Module MontblancFacts.

Import MontblancParser ReSpec.

(** The first group of both item patterns is five digits or more. *)
Definition article_spec : group_spec :=
  fun i => if (i =? 1)%nat then (is_digit, 5%nat) else (fun _ => true, 0%nat).

Definition article_ok (it : LineItem) : Prop :=
  sku it = item_number it
  /\ (5 <= String.length (item_number it))%nat
  /\ Forall (fun c => is_digit c = true) (chars (item_number it)).

Lemma article_of_groups rn line item_code gs :
  ReSpec.groups_ok article_spec (fst rn) = true ->
  Re.groups rn line = Some (Some item_code :: gs) ->
  (5 <= String.length item_code)%nat
  /\ Forall (fun c => is_digit c = true) (chars item_code).
Proof.
  intros Hok Hg.
  destruct (ReFacts.groups_sound article_spec rn line _ Hok Hg 0%nat item_code
              eq_refl) as [Hall Hlen].
  simpl in Hall, Hlen. rewrite length_chars in Hlen. auto.
Qed.

Definition keeps (P : LineItem -> Prop)
  (c : outcome (step state (list LineItem))) : Prop :=
  match c with
  | Ok (Continue s') => Forall P (items s')
  | Ok (Break r) => Forall P r
  | Raise _ => True
  end.

Lemma montblanc_body_keeps include_zero_qty lines s :
  Forall article_ok (items s) ->
  keeps article_ok (body include_zero_qty lines s).
Proof.
  intros Hs. unfold body.
  destruct (lines !! i s) as [line|]; [|exact Hs].
  destruct (_ && _); [exact Hs|].
  destruct (negb (in_items s)); [exact Hs|].
  destruct (re_matches footer_re (strip line)); [exact Hs|].
  destruct (Re.groups format_a_re (strip line)) as [ga|] eqn:Ea;
    [|destruct (Re.groups format_b_re (strip line)) as [gb|] eqn:Eb].
  - destruct ga as [|[a|] [|[b|] [|[c|] [|d [|[e|] [|[f|] [|? ?]]]]]]];
      try exact Hs.
    apply (article_of_groups format_a_re) in Ea; [|vm_compute; reflexivity].
    unfold catch, mbind, outcome_bind, bind.
    destruct (int c) as [qty|[]]; try exact Hs; try exact I.
    destruct (_ && _); [exact Hs|].
    destruct (float_no_commas e) as [up|[]]; try exact Hs; try exact I.
    destruct (float_no_commas f) as [tot|[]]; try exact Hs; try exact I.
    destruct (following_lines _) as [parts n]. simpl.
    apply Forall_app. split; [exact Hs|]. constructor; [|constructor].
    split; [reflexivity | exact Ea].
  - destruct gb as [|[a|] [|[b|] [|c [|[e|] [|[f|] [|? ?]]]]]];
      try exact Hs.
    apply (article_of_groups format_b_re) in Eb; [|vm_compute; reflexivity].
    destruct (int b) as [qty|[]]; try exact Hs; try exact I.
    destruct (_ && _); [exact Hs|].
    destruct (following_lines _) as [parts n].
    unfold catch, mbind, outcome_bind, bind.
    destruct (float_no_commas e) as [up|[]]; try exact Hs; try exact I.
    destruct (float_no_commas f) as [tot|[]]; try exact Hs; try exact I.
    simpl.
    apply Forall_app. split; [exact Hs|]. constructor; [|constructor].
    split; [reflexivity | exact Eb].
  - exact Hs.
Qed.

Lemma montblanc_scan_page_keeps include_zero_qty lines found items :
  Forall article_ok found ->
  scan_page include_zero_qty lines found = Ok items ->
  Forall article_ok items.
Proof.
  intros Hf H. unfold scan_page in H.
  eapply (while_inv (fun s => Forall article_ok (MontblancParser.items s))
            (Forall article_ok)); [| | | |exact H]; [| | |exact Hf].
  - intros s s' Hs Hb. pose proof (montblanc_body_keeps include_zero_qty lines s Hs) as K.
    rewrite Hb in K. exact K.
  - intros s r Hs Hb. pose proof (montblanc_body_keeps include_zero_qty lines s Hs) as K.
    rewrite Hb in K. exact K.
  - auto.
Qed.

Lemma montblanc_parse_keeps doc include_zero_qty items :
  parse doc include_zero_qty = Ok items -> Forall article_ok items.
Proof.
  unfold parse. apply over_pages_inv; [|constructor].
  intros lines its its'. apply montblanc_scan_page_keeps.
Qed.

End MontblancFacts.

(* ===================================================================== *)
(** * Numbers read from digits and periods *)
(* ===================================================================== *)

Module PyFacts.

(** A digit or a period: what the numeric groups of the patterns hold. *)
Definition digit_or_dot (c : ascii) : bool := is_digit c || Ascii.eqb c ".".

(** A float that is not negative and not a NaN. *)
Definition nonneg_float (x : float) : Prop :=
  match x with
  | Fin false m _ => 0 <= m
  | Inf false => True
  | _ => False
  end.

Lemma Forall_ldrop {P : ascii -> Prop} p l : Forall P l -> Forall P (ldrop p l).
Proof.
  induction 1 as [|c l Hc Hl IH]; simpl; [constructor|].
  destruct (p c); [exact IH | constructor; assumption].
Qed.

Lemma Forall_trim {P : ascii -> Prop} p l : Forall P l -> Forall P (trim p l).
Proof.
  intros H. unfold trim.
  apply Forall_rev, Forall_ldrop, Forall_rev, Forall_ldrop, H.
Qed.

Lemma Forall_drop_underscores {P : ascii -> Prop} l :
  Forall P l -> Forall P (drop_underscores l).
Proof.
  unfold drop_underscores. induction 1 as [|c l Hc Hl IH]; simpl; [constructor|].
  destruct (negb _); [constructor; assumption | exact IH].
Qed.

Lemma digit_val_nonneg c : is_digit c = true -> 0 <= digit_val c.
Proof.
  unfold is_digit, in_range, digit_val. intros H.
  apply andb_prop in H as [H _]. apply N.leb_le in H. lia.
Qed.

Lemma digits_val_nonneg ds :
  Forall (fun c => is_digit c = true) ds -> 0 <= digits_val ds.
Proof.
  unfold digits_val. intros H.
  assert (G : forall acc, 0 <= acc ->
            0 <= fold_left (fun a c => 10 * a + digit_val c) ds acc).
  { induction H as [|c l Hc Hl IH]; intros acc Hacc; simpl; [exact Hacc|].
    apply IH. pose proof (digit_val_nonneg c Hc). lia. }
  apply G. lia.
Qed.

Lemma span_digits_digits l :
  Forall (fun c => is_digit c = true) (fst (span_digits l)).
Proof.
  induction l as [|c l IH]; simpl; [constructor|].
  destruct (is_digit c) eqn:E; [|constructor].
  destruct (span_digits l) as [ds r]. simpl in *. constructor; assumption.
Qed.

Lemma div_half_even_nonneg n d : 0 <= n -> 0 < d -> 0 <= div_half_even n d.
Proof.
  intros Hn Hd. unfold div_half_even.
  pose proof (Z.div_pos n d Hn Hd).
  repeat (destruct (_ <? _)); try destruct (Z.even _); lia.
Qed.

Lemma round64_nonneg n d : 0 <= n -> 0 < d -> nonneg_float (round64 false n d).
Proof.
  intros Hn Hd. unfold round64.
  destruct (n =? 0); [simpl; lia|].
  cbv zeta.
  match goal with |- context [Z.max ?a ?b] => set (q := Z.max a b) end.
  assert (Hm : 0 <= (if 0 <=? q then div_half_even n (d * 2 ^ q)
                     else div_half_even (n * 2 ^ (- q)) d)).
  { destruct (0 <=? q) eqn:Eq.
    - apply Z.leb_le in Eq. apply div_half_even_nonneg; [lia|].
      apply Z.mul_pos_pos; [lia|]. apply Z.pow_pos_nonneg; lia.
    - apply div_half_even_nonneg; [|lia].
      apply Z.mul_nonneg_nonneg; [lia|]. apply Z.pow_nonneg. lia. }
  destruct (_ =? 2 ^ 53); destruct (971 <? _); simpl; try exact I; lia.
Qed.

Lemma round64_dec_nonneg c e nd : 0 <= c -> nonneg_float (round64_dec false c e nd).
Proof.
  intros Hc. unfold round64_dec.
  destruct (c =? 0); [simpl; lia|].
  destruct (400 <? _); [exact I|].
  destruct (_ <? -400); [simpl; lia|].
  destruct (0 <=? e) eqn:Ee.
  - apply round64_nonneg; [|lia].
    apply Z.mul_nonneg_nonneg; [lia|]. apply Z.pow_nonneg. lia.
  - apply Z.leb_gt in Ee. apply round64_nonneg; [lia|].
    apply Z.pow_pos_nonneg; lia.
Qed.

Lemma digit_or_dot_lower c : digit_or_dot c = true -> lower_char c = c.
Proof.
  unfold digit_or_dot, lower_char, is_upper, is_digit, in_range. intros H.
  assert (Hc : (code c <= 57)%N).
  { apply orb_prop in H as [H | H].
    - apply andb_prop in H as [_ H]. now apply N.leb_le in H.
    - apply Ascii.eqb_eq in H. subst c. vm_compute. discriminate. }
  replace (_ || _ || _) with false; [reflexivity|].
  symmetry. rewrite !orb_false_iff, !andb_false_iff, !N.leb_gt. lia.
Qed.

(** [float(s)] of digits and periods, when it has a value, has one that is
    not negative. *)
Lemma float_of_str_unsigned s x :
  Forall (fun c => digit_or_dot c = true) (chars s) ->
  float_of_str s = Ok x -> nonneg_float x.
Proof.
  intros Hs. unfold float_of_str.
  set (l := trim is_cspace (chars s)).
  assert (Hl : Forall (fun c => digit_or_dot c = true) (drop_underscores l))
    by (apply Forall_drop_underscores, Forall_trim, Hs).
  destruct (negb (underscores_ok false l)); [discriminate|].
  destruct (drop_underscores l) as [|c body] eqn:El.
  - simpl. discriminate.
  - assert (Hc : digit_or_dot c = true) by (inversion Hl; assumption).
    assert (Hsign : take_sign (c :: body) = (false, c :: body)).
    { unfold take_sign.
      destruct (Ascii.eqb c "-") eqn:E1;
        [apply Ascii.eqb_eq in E1; subst c; discriminate|].
      destruct (Ascii.eqb c "+") eqn:E2;
        [apply Ascii.eqb_eq in E2; subst c; discriminate|].
      reflexivity. }
    rewrite Hsign.
    destruct (String.eqb _ "inf" || String.eqb _ "infinity");
      [intros H; injection H as <-; exact I|].
    destruct (String.eqb (lower (str (c :: body))) "nan") eqn:En.
    { apply String.eqb_eq in En. simpl in En.
      rewrite (digit_or_dot_lower c Hc) in En. injection En as -> _.
      discriminate. }
    destruct (span_digits (c :: body)) as [ip r1] eqn:E1.
    destruct (match r1 with
              | [] => ([], [])
              | c0 :: r1' => if Ascii.eqb c0 "." then span_digits r1' else ([], r1)
              end) as [fp r2] eqn:E2.
    destruct (ip ++ fp)%list as [|d ds] eqn:Eds; [discriminate|].
    destruct (take_exponent r2) as [ex|]; [|discriminate].
    intros H. injection H as <-. apply round64_dec_nonneg.
    apply digits_val_nonneg. rewrite <- Eds. apply Forall_app. split.
    + pose proof (span_digits_digits (c :: body)) as K. rewrite E1 in K. exact K.
    + destruct r1 as [|c0 r1']; [injection E2 as <- _; constructor|].
      destruct (Ascii.eqb c0 ".").
      * pose proof (span_digits_digits r1') as K. rewrite E2 in K. exact K.
      * injection E2 as <- _. constructor.
Qed.


End PyFacts.

(* ===================================================================== *)
(** * The Avanti scanner: the quantity of every record *)
(* ===================================================================== *)

Module AvantiFacts.

Import AvantiParser ReSpec PyFacts.






End AvantiFacts.

(* ===================================================================== *)
(** * The claims *)
(* ===================================================================== *)

Import Spec Samples.

(** ** Vendor detection *)

Lemma first_match_cases rules text :
  first_match rules text = ""
  \/ In (first_match rules text) (List.map snd rules).
Proof.
  induction rules as [|[p v] rules IH]; simpl; [auto|].
  destruct (p text); [auto|]. destruct IH; auto.
Qed.

Lemma detect_vendor_first_match text :
  detect_vendor text = first_match vendor_rules text.
Proof.
  unfold detect_vendor, vendor_rules, tests, vendor_priorities.
  cbn [List.map first_match fst snd test].
  repeat match goal with
         | |- (if ?c then _ else _) = _ => destruct c; [reflexivity|]
         end.
  reflexivity.
Qed.

Module DetectFacts.

Lemma startswith_prefix p : forall s,
  startswith p s = true <-> exists after, s = p +:+ after.
Proof.
  induction p as [|a p IH]; intros s; cbn [startswith].
  - split; [intros _; now exists s | reflexivity].
  - destruct s as [|b s].
    + split; [discriminate | intros [after H]; discriminate H].
    + rewrite andb_true_iff, Ascii.eqb_eq, IH. split.
      * intros [-> [after ->]]. now exists after.
      * intros [after H]. injection H as -> ->. split; [reflexivity|].
        now exists after.
Qed.

Lemma contains_occurs phrase : forall text,
  contains phrase text = true <-> occurs phrase text.
Proof.
  unfold occurs. induction text as [|c text IH]; cbn [contains].
  - rewrite orb_false_r, startswith_prefix. split.
    + intros [after H]. now exists "", after.
    + intros ([|b before] & after & H); [now exists after | discriminate H].
  - rewrite orb_true_iff, startswith_prefix, IH. split.
    + intros [[after H] | (before & after & H)].
      * now exists "", after.
      * exists (String c before), after. cbn. now rewrite H.
    + intros ([|b before] & after & H).
      * left. now exists after.
      * right. injection H as -> ->. now exists before, after.
Qed.

Lemma test_triggered t text : test t text = true <-> triggered t text.
Proof.
  induction t as [p|p|t1 IH1 t2 IH2|t1 IH1 t2 IH2]; cbn [test triggered].
  - apply contains_occurs.
  - apply contains_occurs.
  - now rewrite andb_true_iff, IH1, IH2.
  - now rewrite orb_true_iff, IH1, IH2.
Qed.

Lemma test_not_triggered t text : test t text = false <-> ~ triggered t text.
Proof.
  rewrite <- test_triggered. destruct (test t text); split; congruence.
Qed.

Lemma first_match_first rules text : forall earlier t vendor later,
  rules = (earlier ++ (t, vendor) :: later)%list ->
  triggered t text ->
  Forall (fun rule => ~ triggered (fst rule) text) earlier ->
  first_match (tests rules) text = vendor.
Proof.
  intros earlier t vendor later -> Ht He.
  induction He as [|[t0 v0] earlier H0 _ IH]; cbn.
  - apply test_triggered in Ht. now rewrite Ht.
  - cbn in H0. apply test_not_triggered in H0. now rewrite H0.
Qed.

Lemma first_match_nothing rules text :
  Forall (fun rule => ~ triggered (fst rule) text) rules ->
  first_match (tests rules) text = "".
Proof.
  induction 1 as [|[t0 v0] rules H0 _ IH]; cbn; [reflexivity|].
  cbn in H0. apply test_not_triggered in H0. now rewrite H0.
Qed.

End DetectFacts.

(** C5.  [detect_vendor] is a function of the first-page text alone, and
    reads its rules as a priority list: when the trigger of a rule holds of
    the text and the trigger of no earlier rule does, the result is the
    identifier of that rule, whatever the later rules say; when no trigger
    holds the result is the empty string, the no-vendor result; and the
    result is always the empty string or one of the fixed identifiers. *)
Theorem C5_detect_vendor_first_match (text : string) :
  (forall earlier t vendor later,
     vendor_priorities = (earlier ++ (t, vendor) :: later)%list ->
     triggered t text ->
     Forall (fun rule => ~ triggered (fst rule) text) earlier ->
     detect_vendor text = vendor)
  /\ (Forall (fun rule => ~ triggered (fst rule) text) vendor_priorities ->
      detect_vendor text = "")
  /\ (detect_vendor text = ""
      \/ In (detect_vendor text) (List.map snd vendor_priorities)).
Proof.
  rewrite detect_vendor_first_match. unfold vendor_rules.
  split; [|split].
  - intros earlier t vendor later. apply DetectFacts.first_match_first.
  - apply DetectFacts.first_match_nothing.
  - apply first_match_cases.
Qed.

(** A text that triggers two rules, Lamy's and Chartpak's: the result is
    the identifier of the earlier one. *)
Lemma C5_witness :
  triggered (Either (Phrase "CHARTPAK") (Phrase "CHARTPAK, INC"))
    "LAMY refills, shipped by CHARTPAK, INC"
  /\ detect_vendor "LAMY refills, shipped by CHARTPAK, INC" = "lamy".
Proof.
  split.
  - left. exists "LAMY refills, shipped by ", ", INC". reflexivity.
  - apply (proj1 (C5_detect_vendor_first_match
                    "LAMY refills, shipped by CHARTPAK, INC")
             (take 5 vendor_priorities)
             (Either (Phrase "Lamy USA") (Phrase "LAMY")) "lamy"
             (drop 6 vendor_priorities)).
    + reflexivity.
    + right. exists "", " refills, shipped by CHARTPAK, INC". reflexivity.
    + repeat constructor; apply DetectFacts.test_not_triggered; reflexivity.
Defined.

(** ** The registry and the dispatch *)

Lemma detect_vendor_registered text :
  detect_vendor text <> "" ->
  exists parser_class, CUSTOM_PARSERS !! detect_vendor text = Some parser_class.
Proof.
  intros Hne.
  rewrite detect_vendor_first_match in *.
  destruct (first_match_cases vendor_rules text) as [H | H];
    [contradiction|].
  revert H. generalize (first_match vendor_rules text). intros v H.
  unfold vendor_ids, vendor_rules in H. simpl in H.
  repeat (destruct H as [<- | H]; [eexists; vm_compute; reflexivity|]).
  destruct H.
Qed.

(** C10 (as amended).  Every non-empty identifier [detect_vendor] returns
    is a key of [CUSTOM_PARSERS], so a successful detection runs the parser
    registered for it and returns that parser's result; with no page, or
    with the empty string from the detection, the result is the empty
    list. *)
Theorem C10_dispatch (other_parse : parser_class -> parse_method)
  (doc : pdf) (include_zero_qty : bool) :
  (forall text, detect_vendor text <> "" ->
     exists parser_class,
       CUSTOM_PARSERS !! detect_vendor text = Some parser_class)
  /\ (doc <> [] -> detect_vendor (first_page_text doc) <> "" ->
      exists parser_class,
        CUSTOM_PARSERS !! detect_vendor (first_page_text doc)
          = Some parser_class
        /\ parse_with_custom_parser other_parse doc include_zero_qty
           = parse_of other_parse parser_class doc include_zero_qty)
  /\ (doc = [] \/ detect_vendor (first_page_text doc) = "" ->
      parse_with_custom_parser other_parse doc include_zero_qty = Ok []).
Proof.
  split; [exact detect_vendor_registered|]. split.
  - intros Hdoc Hv. destruct doc as [|p doc]; [contradiction|].
    unfold first_page_text in *.
    destruct (detect_vendor_registered _ Hv) as [c Hc].
    exists c. split; [exact Hc|].
    unfold parse_with_custom_parser. cbv beta iota zeta. rewrite Hc.
    destruct (truthy _) eqn:Et; [reflexivity|].
    unfold truthy in Et. apply negb_false_iff, String.eqb_eq in Et.
    contradiction.
  - intros [-> | Hv]; [reflexivity|].
    destruct doc as [|p doc]; [reflexivity|].
    unfold parse_with_custom_parser, first_page_text in *.
    cbv beta iota zeta. rewrite Hv. reflexivity.
Qed.

(** The Chartpak sample is dispatched to the Chartpak scanner. *)
Lemma C10_witness :
  exists parser_class,
    CUSTOM_PARSERS !! detect_vendor (first_page_text chartpak_backorder_only)
      = Some parser_class
    /\ parse_with_custom_parser (fun _ _ _ => Ok []) chartpak_backorder_only false
       = parse_of (fun _ _ _ => Ok []) parser_class chartpak_backorder_only false.
Proof.
  apply (proj1 (proj2 (C10_dispatch (fun _ _ _ => Ok [])
                         chartpak_backorder_only false))).
  - discriminate.
  - vm_compute. discriminate.
Defined.

(** C10, as stated, fails: a document detected as Itoya whose pages hold no
    item line gets the empty list from the Itoya scanner, with a page
    present and a non-empty identifier detected. *)
Lemma C10_counterexample :
  ~ (forall (other_parse : parser_class -> parse_method) doc include_zero_qty,
       parse_with_custom_parser other_parse doc include_zero_qty = Ok []
       <-> (doc = [] \/ detect_vendor (first_page_text doc) = "")).
Proof.
  intros H.
  destruct (proj1 (H (fun _ _ _ => Ok []) itoya_header_only true)) as [E | E].
  - vm_compute. reflexivity.
  - discriminate.
  - vm_compute in E. discriminate.
Qed.

(** ** Zero quantities *)

(** C1 (the code departs from the claim).  With exclusion of zero
    quantities requested, the Chartpak scanner still emits the record of a
    backorder-only line, whose quantity is 0. *)
Theorem C1_chartpak_backorder_only_emitted :
  exists it,
    parse_with_custom_parser (fun _ _ _ => Ok []) chartpak_backorder_only false
      = Ok [it]
    /\ ChartpakParser.parse chartpak_backorder_only false = Ok [it]
    /\ quantity it = Int 0.
Proof.
  eexists. split; [vm_compute; reflexivity|].
  split; [vm_compute; reflexivity | reflexivity].
Qed.

(** ** Quantities *)




(** ** Required texts *)




(** ** Header detection *)

Lemma occurs_in_source (r : row) (indicator : string) :
  contains indicator "" = false ->
  existsb (contains indicator) (List.map InvoiceParser.header_text r)
  = occurs_in r indicator.
Proof.
  intros He. induction r as [|c r IH]; [reflexivity|].
  cbn [List.map existsb occurs_in]. fold (occurs_in r indicator).
  rewrite IH. destruct c as [s|]; unfold InvoiceParser.header_text;
    [reflexivity | rewrite He; reflexivity].
Qed.

Lemma _is_line_items_table_hits (r : row) :
  InvoiceParser._is_line_items_table r
  = (3 <=? hits InvoiceParser.indicators r)%nat.
Proof.
  destruct r as [|c r]; [reflexivity|].
  unfold InvoiceParser._is_line_items_table, hits. cbv zeta.
  f_equal. f_equal. apply filter_ext_in. intros ind Hin.
  apply occurs_in_source.
  unfold InvoiceParser.indicators in Hin. simpl in Hin.
  repeat (destruct Hin as [<- | Hin]; [reflexivity|]). destruct Hin.
Qed.

Lemma find_header_spec (rows : list row) : forall k idx r,
  InvoiceParser.find_header k rows = Some (idx, r)
  <-> exists j, idx = (k + j)%nat /\ rows !! j = Some r
                /\ InvoiceParser._is_line_items_table r = true
                /\ forall j' r', (j' < j)%nat -> rows !! j' = Some r' ->
                     InvoiceParser._is_line_items_table r' = false.
Proof.
  induction rows as [|r0 rows IH]; intros k idx r; simpl.
  - split; [discriminate|]. intros (j & _ & Hj & _). discriminate.
  - destruct (InvoiceParser._is_line_items_table r0) eqn:E0.
    + split.
      * intros H. injection H as <- <-. exists 0%nat.
        split; [lia|]. split; [reflexivity|]. split; [exact E0|].
        intros j' r' Hlt. lia.
      * intros (j & -> & Hj & Hr & Hmin). destruct j as [|j].
        -- simpl in Hj. injection Hj as <-. f_equal. f_equal. lia.
        -- specialize (Hmin 0%nat r0 ltac:(lia) eq_refl). congruence.
    + rewrite IH. split.
      * intros (j & -> & Hj & Hr & Hmin). exists (S j).
        split; [lia|]. split; [exact Hj|]. split; [exact Hr|].
        intros [|j'] r' Hlt Hl.
        -- simpl in Hl. injection Hl as <-. exact E0.
        -- simpl in Hl. eapply Hmin; [|exact Hl]. lia.
      * intros (j & -> & Hj & Hr & Hmin). destruct j as [|j].
        -- simpl in Hj. injection Hj as <-. congruence.
        -- exists j. split; [lia|]. split; [exact Hj|]. split; [exact Hr|].
           intros j' r' Hlt Hl. apply (Hmin (S j') r'); [lia | exact Hl].
Qed.

(** Below an index, either some row has three terms or none has. *)
Lemma classic_earlier (t : table) (idx : nat) :
  (exists j r, (j < idx)%nat /\ t !! j = Some r
               /\ (3 <= hits InvoiceParser.indicators r)%nat)
  \/ (forall j r, (j < idx)%nat -> t !! j = Some r ->
        (hits InvoiceParser.indicators r < 3)%nat).
Proof.
  induction idx as [|idx IH].
  - right. intros j r Hlt. lia.
  - destruct IH as [(j & r & Hlt & Hj & Hge) | Hall].
    + left. exists j, r. split; [lia | auto].
    + destruct (t !! idx) as [r|] eqn:E.
      * destruct (Nat.lt_ge_cases (hits InvoiceParser.indicators r) 3)
          as [Hlt | Hge].
        -- right. intros j r' Hj Hr'.
           destruct (Nat.eq_dec j idx) as [-> | Hne];
             [congruence | apply (Hall j r'); [lia | exact Hr']].
        -- left. exists idx, r. split; [lia | auto].
      * right. intros j r' Hj Hr'.
        destruct (Nat.eq_dec j idx) as [-> | Hne];
          [congruence | apply (Hall j r'); [lia | exact Hr']].
Qed.

(** C6, as stated, fails: a row with Qty, Item and SKU holds two of the
    seven listed terms and is selected all the same, the source counting
    the term qty as well. *)
Lemma C6_counterexample :
  InvoiceParser.find_header 0 (take 5 [[Some "Qty"; Some "Item"; Some "SKU"]])
    = Some (0%nat, [Some "Qty"; Some "Item"; Some "SKU"])
  /\ hits spec_indicators [Some "Qty"; Some "Item"; Some "SKU"] = 2%nat
  /\ ~ earliest_header spec_indicators [[Some "Qty"; Some "Item"; Some "SKU"]]
         0 [Some "Qty"; Some "Item"; Some "SKU"].
Proof.
  split; [reflexivity|]. split; [reflexivity|].
  intros (_ & _ & H & _). vm_compute in H. lia.
Qed.

(** C6 (as amended).  The header row of a table is the earliest of its
    first five rows in which three or more of the eight terms qty,
    quantity, item, sku, product, price, amount, total occur as substrings
    of the lower-cased cell texts, and no header is found when there is no
    such row; the row Qty, Item#, SKU, Description, Price, Amount is
    recognized. *)
Theorem C6_header_detection (t : table) :
  (forall idx r,
     InvoiceParser.find_header 0 (take 5 t) = Some (idx, r)
     <-> earliest_header InvoiceParser.indicators t idx r)
  /\ (InvoiceParser.find_header 0 (take 5 t) = None
      <-> forall idx r, (idx < 5)%nat -> t !! idx = Some r ->
            (hits InvoiceParser.indicators r < 3)%nat)
  /\ InvoiceParser._is_line_items_table
       [Some "Qty"; Some "Item#"; Some "SKU"; Some "Description";
        Some "Price"; Some "Amount"] = true.
Proof.
  assert (Hhdr : forall r, InvoiceParser._is_line_items_table r = true
                           <-> (3 <= hits InvoiceParser.indicators r)%nat).
  { intros r. rewrite _is_line_items_table_hits. apply Nat.leb_le. }
  assert (Hnot : forall r, InvoiceParser._is_line_items_table r = false
                           <-> (hits InvoiceParser.indicators r < 3)%nat).
  { intros r. rewrite _is_line_items_table_hits. apply Nat.leb_gt. }
  assert (Hsome : forall idx r,
            InvoiceParser.find_header 0 (take 5 t) = Some (idx, r)
            <-> earliest_header InvoiceParser.indicators t idx r).
  { intros idx r. rewrite find_header_spec. unfold earliest_header. split.
    - intros (j & -> & Hj & Hr & Hmin). simpl.
      apply lookup_take_Some in Hj as [Hj Hlt].
      split; [exact Hlt|]. split; [exact Hj|]. split; [apply Hhdr, Hr|].
      intros j' r' Hlt' Hj'. apply Hnot. apply (Hmin j' r' Hlt').
      apply lookup_take_Some. split; [exact Hj' | lia].
    - intros (Hlt & Hj & Hr & Hmin). exists idx. split; [reflexivity|].
      split; [apply lookup_take_Some; auto|]. split; [apply Hhdr, Hr|].
      intros j' r' Hlt' Hj'. apply Hnot.
      apply lookup_take_Some in Hj' as [Hj' _]. eauto. }
  split; [exact Hsome|]. split; [|reflexivity].
  split.
  - intros Hnone idx r Hlt Hr.
    destruct (Nat.lt_ge_cases (hits InvoiceParser.indicators r) 3) as [|Hge];
      [assumption|].
    exfalso.
    assert (Hex : exists j r', (j <= idx)%nat /\ t !! j = Some r'
                    /\ (3 <= hits InvoiceParser.indicators r')%nat
                    /\ forall j' r'', (j' < j)%nat -> t !! j' = Some r'' ->
                         (hits InvoiceParser.indicators r'' < 3)%nat).
    { clear Hnone Hsome. revert r Hr Hge.
      induction idx as [idx IH] using lt_wf_ind. intros r Hr Hge.
      destruct (classic_earlier t idx) as [(j & r' & Hj & Hr' & Hge') | Hall].
      - destruct (IH j Hj ltac:(lia) r' Hr' Hge')
          as (j0 & r0 & Hle & H0 & Hge0 & Hmin0).
        exists j0, r0. split; [lia | auto].
      - exists idx, r. split; [lia|]. split; [exact Hr|]. split; [exact Hge|].
        exact Hall. }
    destruct Hex as (j & r' & Hle & Hj & Hge' & Hmin).
    assert (Hfound : InvoiceParser.find_header 0 (take 5 t) = Some (j, r')).
    { apply Hsome. unfold earliest_header. split; [lia | auto]. }
    congruence.
  - intros Hall. apply eq_None_not_Some. intros [[idx r] E].
    apply Hsome in E as (Hlt & Hj & Hge & _).
    specialize (Hall idx r Hlt Hj). lia.
Qed.

(** ** Continuation tables *)

Module ContinuationFacts.

Import InvoiceParser.

Lemma lstrip_nil (l : list ascii) :
  lstrip_chars l = [] <-> forallb is_space l = true.
Proof.
  induction l as [|c l IH]; simpl; [tauto|].
  destruct (is_space c); simpl; [exact IH|]. split; discriminate.
Qed.

Lemma lstrip_head (l : list ascii) c l' :
  lstrip_chars l = c :: l' -> is_space c = false.
Proof.
  induction l as [|a l IH]; simpl; [discriminate|].
  destruct (is_space a) eqn:E; [exact IH|]. intros H. congruence.
Qed.

Lemma forallb_rev {A : Type} (p : A -> bool) (l : list A) :
  forallb p (rev l) = forallb p l.
Proof.
  induction l as [|a l IH]; simpl; [reflexivity|].
  rewrite forallb_app, IH. simpl. rewrite andb_true_r. apply andb_comm.
Qed.

Lemma rstrip_nil (l : list ascii) :
  rstrip_chars l = [] <-> forallb is_space l = true.
Proof.
  unfold rstrip_chars. rewrite <- (forallb_rev is_space l), <- lstrip_nil.
  destruct (lstrip_chars (rev l)) as [|a x]; simpl; [tauto|].
  split; [|discriminate]. intros H. apply app_eq_nil in H as [_ H]. discriminate.
Qed.

Lemma str_nil (l : list ascii) : str l = "" <-> l = [].
Proof. destruct l; simpl; split; congruence. Qed.

Lemma strip_blank (s : string) :
  truthy (strip s) = negb (forallb is_space (chars s)).
Proof.
  unfold truthy, strip. f_equal.
  destruct (forallb is_space (chars s)) eqn:E.
  - apply String.eqb_eq, str_nil, rstrip_nil.
    apply lstrip_nil in E. rewrite E. reflexivity.
  - apply String.eqb_neq. rewrite str_nil, rstrip_nil. intros H.
    destruct (lstrip_chars (chars s)) as [|c l] eqn:El.
    + apply lstrip_nil in El. congruence.
    + apply lstrip_head in El. simpl in H. rewrite El in H. discriminate.
Qed.















End ContinuationFacts.



(** ** The Itoya example *)

Module ItoyaFacts.

Import ItoyaParser.

Definition description : string := "KOP - TAMENURI RADEN 'NAMI' LE".

(** The record of the item line, with the description it ends up with. *)
Definition record (d : string) : LineItem :=
  Item (Int 2) None "10-9847-620" "10-9847-620" d
       (Some (float_of_Z 1680)) (Some (float_of_Z 3360)).

Lemma while_step {S R : Type} fuel (body : S -> outcome (step S R)) out s :
  while (Datatypes.S fuel) body out s =
  match body s with
  | Raise e => Raise e
  | Ok (Break r) => Ok r
  | Ok (Continue s') => while fuel body out s'
  end.
Proof. reflexivity. Qed.

Lemma contains_blank a n hay :
  is_space a = false -> forallb is_space (chars hay) = true ->
  contains (String a n) hay = false.
Proof.
  intros Ha. induction hay as [|b hay IH]; intros Hb; [reflexivity|].
  simpl in Hb. apply andb_prop in Hb as [Hb Hh].
  cbn [contains startswith].
  destruct (Ascii.eqb_spec a b) as [-> | _]; [congruence|].
  simpl. auto.
Qed.

Lemma step_header flag rest found :
  body flag (itoya_header_line :: rest) (St 0 false found)
  = Ok (Continue (St 1 true found)).
Proof. vm_compute. reflexivity. Qed.

Lemma step_item flag c :
  re_matches next_item_re (strip c) = false ->
  body flag [itoya_header_line; itoya_item_line; c] (St 1 true [])
  = Ok (Continue
          (if truthy (strip c)
           then St 3 true [record (description +:+ " " +:+ strip c)]
           else St 2 true [record description])).
Proof.
  intros Hc. unfold body.
  cbn [i in_items_section items].
  change ([itoya_header_line; itoya_item_line; c] !! 1%nat) with (Some itoya_item_line).
  cbv iota.
  replace (contains "Item Description UOM" itoya_item_line) with false
    by (vm_compute; reflexivity).
  replace (contains "Subtotal" itoya_item_line || contains "Total" itoya_item_line
           || contains "Page:" itoya_item_line || contains "Net Invoice" itoya_item_line)
    with false by (vm_compute; reflexivity).
  replace (truthy (strip itoya_item_line)) with true by (vm_compute; reflexivity).
  cbn [andb].
  replace (Re.groups item_re itoya_item_line)
    with (Some [Some "10-9847-620"; Some description; Some "2";
                Some "1,680.00"; Some "3,360.00"])
    by (vm_compute; reflexivity).
  cbv iota.
  unfold description_lines.
  change ([itoya_header_line; itoya_item_line; c] !! (1 + 1)%nat) with (Some c).
  cbv iota zeta. rewrite Hc. cbn [negb].
  replace (int "2") with (@Ok Z 2) by (vm_compute; reflexivity).
  replace (float_no_commas "1,680.00") with (Ok (float_of_Z 1680))
    by (vm_compute; reflexivity).
  replace (float_no_commas "3,360.00") with (Ok (float_of_Z 3360))
    by (vm_compute; reflexivity).
  replace (strip "10-9847-620") with "10-9847-620" by (vm_compute; reflexivity).
  replace (strip description) with description by (vm_compute; reflexivity).
  destruct (truthy (strip c)); cbn [andb].
  - change ([itoya_header_line; itoya_item_line; c] !! (1 + 1 + 1)%nat) with (@None string).
    cbv iota. reflexivity.
  - cbv iota. reflexivity.
Qed.

Lemma step_blank flag c found :
  truthy (strip c) = false ->
  body flag [itoya_header_line; itoya_item_line; c] (St 2 true found)
  = Ok (Continue (St 3 true found)).
Proof.
  intros Hc.
  assert (Hb : forallb is_space (chars c) = true).
  { rewrite ContinuationFacts.strip_blank in Hc.
    apply negb_false_iff in Hc. exact Hc. }
  unfold body. cbn [i in_items_section items].
  change ([itoya_header_line; itoya_item_line; c] !! 2%nat) with (Some c).
  cbv iota.
  rewrite !(contains_blank _ _ c) by (reflexivity || exact Hb).
  rewrite Hc. reflexivity.
Qed.

Lemma step_end flag c found :
  body flag [itoya_header_line; itoya_item_line; c] (St 3 true found) = Ok (Break found).
Proof. reflexivity. Qed.

Lemma scan_page_example flag c :
  re_matches next_item_re (strip c) = false ->
  scan_page flag [itoya_header_line; itoya_item_line; c] []
  = Ok [record (if truthy (strip c)
                then description +:+ " " +:+ strip c
                else description)].
Proof.
  intros Hc. unfold scan_page.
  change (Datatypes.S (List.length [itoya_header_line; itoya_item_line; c])) with 4%nat.
  rewrite while_step, step_header, while_step, (step_item flag c Hc).
  destruct (truthy (strip c)) eqn:Et.
  - rewrite while_step, step_end. reflexivity.
  - rewrite while_step, (step_blank flag c _ Et), while_step, step_end.
    reflexivity.
Qed.

End ItoyaFacts.

(** C8.  On a page whose lines are the Itoya header, the item line of the
    example and one more line that does not start like an item, the Itoya
    scanner emits exactly one record: quantity 2 (the shipped column),
    item number and sku 10-9847-620, unit price 1680.00 and total 3360.00;
    the further line, when it is not blank, continues the description. *)
Theorem C8_itoya_example (text c : string) (tables : list table)
  (include_zero_qty : bool) :
  lines_of text = [itoya_header_line; itoya_item_line; c] ->
  re_matches ItoyaParser.next_item_re (strip c) = false ->
  exists it unit total,
    ItoyaParser.parse [Page (Some text) tables] include_zero_qty = Ok [it]
    /\ quantity it = Int 2
    /\ item_number it = "10-9847-620" /\ sku it = "10-9847-620"
    /\ unit_price it = Some unit /\ float_is unit 1680 1
    /\ total_amount it = Some total /\ float_is total 3360 1
    /\ product_description it
       = if truthy (strip c)
         then ItoyaFacts.description +:+ " " +:+ strip c
         else ItoyaFacts.description.
Proof.
  intros Hlines Hc.
  exists (ItoyaFacts.record
            (if truthy (strip c)
             then ItoyaFacts.description +:+ " " +:+ strip c
             else ItoyaFacts.description)),
         (float_of_Z 1680), (float_of_Z 3360).
  split.
  - unfold ItoyaParser.parse, over_pages.
    cbn [extract_text].
    destruct text as [|a text]; [discriminate Hlines|].
    change (truthy (String a text)) with true. cbv iota.
    rewrite Hlines, (ItoyaFacts.scan_page_example _ c Hc). reflexivity.
  - repeat split; vm_compute; reflexivity.
Qed.

(** The example with the continuation line FOUNTAIN PEN (M NIB). *)
Lemma C8_witness :
  exists it unit total,
    ItoyaParser.parse [Page (Some itoya_page_text) []] false = Ok [it]
    /\ quantity it = Int 2
    /\ item_number it = "10-9847-620" /\ sku it = "10-9847-620"
    /\ unit_price it = Some unit /\ float_is unit 1680 1
    /\ total_amount it = Some total /\ float_is total 3360 1
    /\ product_description it
       = "KOP - TAMENURI RADEN 'NAMI' LE FOUNTAIN PEN (M NIB)".
Proof.
  apply (C8_itoya_example itoya_page_text "FOUNTAIN PEN (M NIB)" [] false).
  - vm_compute. reflexivity.
  - vm_compute. reflexivity.
Defined.

(* ===================================================================== *)
(** * Further properties of the parsers

    What follows is read off the code rather than off the specification:
    the error and edge behaviour of the table parser, the invariants of
    the records of each scanner, and the progress of the scanning
    loops. *)
(* ===================================================================== *)

(** ** Sample invoices *)

Module Invoices.

Import Samples.

Definition qty_header : row :=
  [Some "Qty"; Some "Item#"; Some "SKU"; Some "Description";
   Some "Price"; Some "Amount"].

Definition zero_and_widget : pdf :=
  [table_page
     [qty_header;
      [Some "0"; Some "ZZ9"; Some "ZZ9"; Some "Backordered"; Some "1.00";
       Some "0.00"];
      [Some "3"; Some "ABC1"; Some "ABC1"; Some "Widget";
       Some "10.00"; Some "30.00"]]].

Definition infinite_quantity : pdf :=
  [Page None [[qty_header;
               [Some " Infinity "; Some "ABC1"; Some "ABC1"; Some "Widget"]]]].

Definition itoya_two_lines : pdf :=
  [text_page ["Item Description UOM Ordered Shipped Back Ordered Price Amount";
              "10-1 PEN A EACH 2 0 2 5.00 0.00";
              "10-2 PEN B EACH 2 2 0 5.00 10.00"]].

Definition montblanc_two_lines : pdf :=
  [text_page ["Article Description QTY RSP PRICE TOTAL";
              "12345 PEN A 0 PC 10.00 8.00 0.00";
              "12346 PEN B 2 PC 10.00 8.00 16.00"]].

Definition kenro_table : pdf :=
  [table_page
     [[Some "Item Code"; Some "Description"; None; Some "Qty"];
      [Some "EB100"; Some "E s t e r b r o o k"; None; Some "2"; None; None;
       None; None; Some "10.00"; Some "1"; None; Some "20.00"];
      [Some "EB200"; Some "Estie"; None; Some "0"; None; None;
       None; None; Some "10.00"; Some "3"; None; Some "0.00"]]].

Definition avanti_two_lines : pdf :=
  [text_page ["AVANTI PRESS"; "#1 NB2014 QUILLED QUEEN 7.475 0.0 0.00";
              "#2 NB2015 QUILLED CARD 1.50 2.5 3.75"]].

Definition exaclair_two_lines : pdf :=
  [text_page ["Item Number Description";
              "10 0 10 68145C CLASSIC NBK WB 10.45 50.00 0.00";
              "10 10 0 68146C CLASSIC NBK WB 10.45 50.00 52.25"]].

Definition pilot_two_lines : pdf :=
  [text_page ["0 2 EA 21965 CUSTOM 74 FP 150.00 0.00";
              "2 2 EA 21966 CUSTOM 74 FP SOFT FINE NIB LFOG 150.00 300.00"]].

Definition twsbi_lines : list string :=
  ["TWSBI INC"; "SKU ACTIVITY QTY RATE AMOUNT";
   "M7443140 Diamond 580 1 34.00 34.00T"; "SUBTOTAL 34.00";
   "M7443141 Diamond 580 1 34.00 34.00T"].

Definition retro51_lines : list string :=
  ["Retro 1951"; "ITEM DESCRIPTION QTY RATE AMOUNT";
   "PARR-2508K PAN AM TORNADO 3 37.00 1,111.00T"; "SUBTOTAL 1,111.00";
   "PARR-2509K PAN AM TORNADO 3 37.00 111.00T"].

Definition exaclair_malformed_price : pdf :=
  [text_page
     ["EXACLAIR, INC."; "Item Number Description";
      "10 10 0 68145C CLASSIC NBK WB R/MAR 50S 8X11 10.45 50.00 52.25";
      "10 10 0 68146C CLASSIC NBK WB 1.2.3 50.00 52.25"]].

Definition chartpak_mixed : pdf :=
  [text_page
     ["CHARTPAK, INC"; "QTY SHIPPED UNIT B/O CATALOG NO. DESCRIPTION";
      "EA 0 N868-51 A6 5MM GRE 32.000 .550 14.400 .00";
      "15 EA 5 N195A A5 NOTEBOO 10.900 .550 4.905 73.58";
      "0 EA 5 N195B A5 NOTEBOO 1.2.3 .550 4.905 73.58";
      "20 EA N104 B5 MM DOT 12.400 .550 5.580 111.60"]].

End Invoices.

Import Invoices.

(** ** Texts *)

Module TextFacts.

Lemma chars_app (a b : string) : chars (a +:+ b) = (chars a ++ chars b)%list.
Proof.
  induction a as [|c a IH]; simpl; [reflexivity|]. unfold chars in *. simpl.
  now rewrite IH.
Qed.

Lemma contains_char (c : ascii) (s : string) :
  contains (String c "") s = existsb (Ascii.eqb c) (chars s).
Proof.
  induction s as [|a s IH]; [reflexivity|].
  cbn [contains startswith]. rewrite IH. unfold chars. cbn [list_ascii_of_string existsb].
  destruct s; now rewrite andb_true_r.
Qed.

Lemma lacks_char (c : ascii) (s : string) :
  contains (String c "") s = false <-> Forall (fun a => a <> c) (chars s).
Proof.
  rewrite contains_char. induction (chars s) as [|a l IH]; simpl.
  - split; [constructor | reflexivity].
  - rewrite orb_false_iff, IH. split.
    + intros [Ha Hl]. constructor; [|exact Hl]. intros ->.
      now rewrite Ascii.eqb_refl in Ha.
    + intros H. inversion H; subst. split; [|assumption].
      apply Ascii.eqb_neq. congruence.
Qed.

Lemma Forall_lstrip {P : ascii -> Prop} l : Forall P l -> Forall P (lstrip_chars l).
Proof.
  induction 1 as [|c l Hc Hl IH]; simpl; [constructor|].
  destruct (is_space c); [exact IH | now constructor].
Qed.

Lemma Forall_rstrip {P : ascii -> Prop} l : Forall P l -> Forall P (rstrip_chars l).
Proof.
  intros H. unfold rstrip_chars. apply Forall_rev, Forall_lstrip, Forall_rev, H.
Qed.

Lemma Forall_strip {P : ascii -> Prop} s :
  Forall P (chars s) -> Forall P (chars (strip s)).
Proof.
  intros H. unfold strip. rewrite ReFacts.chars_str.
  apply Forall_rstrip, Forall_lstrip, H.
Qed.

(** The first piece of a split holds no separator; a split into one piece
    is the text itself. *)
Lemma split_chars_first sep l : forall cur,
  exists p more,
    split_chars sep cur l = str (rev cur ++ p) :: more
    /\ Forall (fun c => c <> sep) p
    /\ (more = [] -> l = p).
Proof.
  induction l as [|c l IH]; intros cur; simpl.
  - exists [], []. rewrite app_nil_r. repeat split; constructor.
  - destruct (Ascii.eqb c sep) eqn:E.
    + exists [], (split_chars sep [] l). rewrite app_nil_r.
      repeat split; [constructor|].
      destruct (IH []) as (p & more & -> & _). discriminate.
    + destruct (IH (c :: cur)) as (p & more & -> & Hp & Hm).
      exists (c :: p), more. simpl. rewrite <- app_assoc. simpl.
      repeat split.
      * constructor; [|exact Hp]. now apply Ascii.eqb_neq.
      * intros Hnil. now rewrite (Hm Hnil).
Qed.

Lemma split_chars_none sep l : forall cur,
  Forall (fun c => c <> sep) l ->
  split_chars sep cur l = [str (rev cur ++ l)].
Proof.
  induction l as [|c l IH]; intros cur H; simpl.
  - now rewrite app_nil_r.
  - inversion H as [|? ? Hc Hl]; subst.
    apply Ascii.eqb_neq in Hc. rewrite Hc, (IH _ Hl). simpl.
    now rewrite <- app_assoc.
Qed.

End TextFacts.

Import InvoiceParser.

(** X1.  [_extract_first_item_number] never returns a text with a slash
    in it, and returns a text without a slash as it is. *)
Theorem first_item_number_without_slash (item_num : string) :
  contains "/" (_extract_first_item_number item_num) = false
  /\ (contains "/" item_num = false ->
      _extract_first_item_number item_num = item_num).
Proof.
  unfold _extract_first_item_number.
  destruct (TextFacts.split_chars_first "/" (chars item_num) [])
    as (p & more & Hsplit & Hp & Hone).
  unfold split_on. rewrite Hsplit. simpl rev. simpl app.
  destruct (truthy item_num) eqn:Ht; simpl negb; cbv iota.
  - destruct more as [|m more].
    + specialize (Hone eq_refl). split; [|reflexivity].
      apply TextFacts.lacks_char. now rewrite Hone.
    + split.
      * apply TextFacts.lacks_char, TextFacts.Forall_strip.
        now rewrite ReFacts.chars_str.
      * intros Hno. apply TextFacts.lacks_char in Hno.
        rewrite (TextFacts.split_chars_none _ _ [] Hno) in Hsplit.
        discriminate.
  - unfold truthy in Ht. apply negb_false_iff, String.eqb_eq in Ht. subst.
    split; reflexivity.
Qed.

(** A text in which every white-space character is one space standing
    between two other characters: read from the left, a white-space
    character is a space and follows neither the start nor another one, and
    the text does not end in one. *)
Fixpoint spaced_ok (after_space : bool) (l : list ascii) : bool :=
  match l with
  | [] => negb after_space
  | c :: l' =>
      if is_space c
      then Ascii.eqb c " " && negb after_space && spaced_ok true l'
      else spaced_ok false l'
  end.

Definition single_spaced (s : string) : bool := spaced_ok true (chars s).

Module SqueezeFacts.

Definition is_word_text (w : string) : Prop :=
  chars w <> [] /\ Forall (fun c => is_space c = false) (chars w).

Lemma words_chars_words l : forall cur,
  Forall (fun c => is_space c = false) cur ->
  Forall is_word_text (words_chars cur l).
Proof.
  assert (Hw : forall c cur, Forall (fun c => is_space c = false) (c :: cur) ->
                 is_word_text (str (rev (c :: cur)))).
  { intros c cur H. unfold is_word_text. rewrite ReFacts.chars_str. split.
    - simpl. destruct (rev cur); discriminate.
    - now apply Forall_rev. }
  induction l as [|c l IH]; intros cur Hcur; simpl.
  - destruct cur; [constructor|]. constructor; [now apply Hw | constructor].
  - destruct (is_space c) eqn:E.
    + destruct cur; [apply IH; constructor|].
      constructor; [now apply Hw | apply IH; constructor].
    + apply IH. now constructor.
Qed.

Lemma spaced_ok_word w rest b :
  w <> [] -> Forall (fun c => is_space c = false) w ->
  spaced_ok b (w ++ rest) = spaced_ok false rest.
Proof.
  intros Hne Hw. revert b. induction Hw as [|c w Hc Hw IH]; [congruence|].
  intros b. simpl. rewrite Hc. destruct w as [|d w]; [reflexivity|].
  apply IH. discriminate.
Qed.

Lemma join_single_spaced ws :
  ws <> [] -> Forall is_word_text ws -> single_spaced (join " " ws) = true.
Proof.
  unfold single_spaced. intros Hne H. induction H as [|w ws [Hw1 Hw2] Hws IH];
    [congruence|].
  destruct ws as [|w' ws].
  - simpl. rewrite <- (app_nil_r (chars w)). now rewrite spaced_ok_word.
  - change (join " " (w :: w' :: ws)) with (w +:+ " " +:+ join " " (w' :: ws)).
    rewrite !TextFacts.chars_app, spaced_ok_word by assumption.
    change (chars " ") with [" "%char]. simpl.
    apply IH. discriminate.
Qed.

Lemma squeeze_single_spaced s :
  truthy (squeeze s) = true -> single_spaced (squeeze s) = true.
Proof.
  unfold squeeze, split_ws. intros Ht. apply join_single_spaced.
  - intros E. rewrite E in Ht. discriminate.
  - apply words_chars_words. constructor.
Qed.

End SqueezeFacts.

(** X2.  A value [_extract_field] returns is not empty, is not the word
    none or null in any casing, and is single-spaced: its only white-space
    characters are single spaces between two other characters, so it has
    no line break, tab or no-break space, no white space at either end and
    no two spaces in a row. *)
Theorem extract_field_clean (row_dict : gmap string cell)
  (possible_keys : list string) (value : string) :
  _extract_field row_dict possible_keys = Some value ->
  value <> "" /\ lower value <> "none" /\ lower value <> "null"
  /\ single_spaced value = true.
Proof.
  induction possible_keys as [|key keys IH]; simpl; [discriminate|].
  destruct (present row_dict key) as [v|]; [|exact IH].
  destruct (truthy _ && _) eqn:E; [|exact IH].
  intros [= <-]. apply andb_prop in E as [Ht Hn].
  apply negb_true_iff, bool_decide_eq_false in Hn.
  repeat split.
  - now apply truthy_nonempty.
  - intros Heq. apply Hn. rewrite Heq. constructor.
  - intros Heq. apply Hn. rewrite Heq. constructor. constructor.
  - now apply SqueezeFacts.squeeze_single_spaced.
Qed.

Lemma extract_field_clean_witness :
  "AB 12" <> "" /\ lower "AB 12" <> "none" /\ lower "AB 12" <> "null"
  /\ single_spaced "AB 12" = true.
Proof.
  apply (extract_field_clean
           (<["sku" := Some (String "160" (String "009" " AB")
                             +:+ String "160" (String "010" "12 ")
                             +:+ String "133" "")]> ∅)
           ["item_code"; "sku"] "AB 12").
  vm_compute. reflexivity.
Defined.

Module TableFacts.

Lemma float_of_str_raises s e : float_of_str s = Raise e -> e = ValueError.
Proof.
  unfold float_of_str. intros H.
  repeat case_match; congruence.
Qed.

Lemma int_of_float_raises x e :
  int_of_float x = Raise e -> e = OverflowError \/ e = ValueError.
Proof.
  destruct x; simpl; intros [= <-]; auto.
Qed.

Lemma _extract_quantity_from_raises keys row_dict e :
  _extract_quantity_from keys row_dict = Raise e -> e = OverflowError.
Proof.
  induction keys as [|key keys IH]; simpl; [discriminate|].
  destruct (present row_dict key) as [v|]; [|exact IH].
  destruct (truthy (strip v)); [|exact IH].
  destruct (float_of_str (strip v)) as [x|e1] eqn:Ef.
  - destruct (int_of_float x) as [n|e2] eqn:Ei; [discriminate|].
    destruct (int_of_float_raises _ _ Ei) as [-> | ->]; [congruence | exact IH].
  - rewrite (float_of_str_raises _ _ Ef). exact IH.
Qed.

Lemma bind_Raise {A B : Type} (c : outcome A) (k : A -> outcome B) (e : exn) :
  (x ← c; k x) = Raise e -> c = Raise e \/ exists a, c = Ok a /\ k a = Raise e.
Proof.
  unfold mbind, outcome_bind, bind. destruct c as [a|e']; [eauto|].
  intros [= ->]. auto.
Qed.

Lemma _parse_line_item_row_raises cfg r headers e :
  _parse_line_item_row cfg r headers = Raise e -> e = OverflowError.
Proof.
  unfold _parse_line_item_row. intros H.
  destruct (_ <? _)%nat; [discriminate|].
  apply bind_Raise in H as [H | (qty & _ & H)].
  - eapply _extract_quantity_from_raises, H.
  - repeat case_match; discriminate.
Qed.

Lemma continuation_fields_raises cfg cells e :
  continuation_fields cfg cells = Raise e -> e = OverflowError.
Proof.
  unfold continuation_fields. intros H.
  destruct (truthy_opt _); [|discriminate].
  destruct (float_of_str _) as [x|e1] eqn:Ef.
  - destruct (int_of_float x) as [n|e2] eqn:Ei.
    + repeat case_match; discriminate.
    + destruct (int_of_float_raises _ _ Ei) as [-> | ->]; congruence.
  - rewrite (float_of_str_raises _ _ Ef) in H. discriminate.
Qed.

Lemma _parse_continuation_row_raises cfg r header e :
  _parse_continuation_row cfg r header = Raise e -> e = OverflowError.
Proof.
  unfold _parse_continuation_row. intros H.
  destruct r; [discriminate|].
  destruct (_ =? _)%nat; [eapply _parse_line_item_row_raises, H|].
  destruct (_ <=? _)%nat; [eapply continuation_fields_raises, H | discriminate].
Qed.

Lemma collect_rows_raises (parse_row : row -> outcome (option LineItem)) e0 :
  (forall r e, parse_row r = Raise e -> e = e0) ->
  forall rows items e, collect_rows parse_row rows items = Raise e -> e = e0.
Proof.
  intros Hrow rows. induction rows as [|r rows IH]; intros items e H;
    simpl in H; [discriminate|].
  apply bind_Raise in H as [H | (o & _ & H)]; eauto.
Qed.

Lemma table_step_raises cfg t st e :
  table_step cfg t st = Raise e -> e = OverflowError.
Proof.
  unfold table_step. destruct st as [line_items last_header]. intros H.
  destruct t as [|r0 t]; [discriminate|].
  destruct (find_header _ _) as [[idx h]|].
  - apply bind_Raise in H as [H | (its & _ & H)]; [|discriminate].
    eapply collect_rows_raises; [|exact H].
    intros r e'. apply _parse_line_item_row_raises.
  - destruct last_header as [[|h hs]|]; try discriminate.
    apply bind_Raise in H as [H | (its & _ & H)]; [|discriminate].
    eapply collect_rows_raises; [|exact H].
    intros r e'. apply _parse_continuation_row_raises.
Qed.

Lemma tables_loop_raises cfg ts : forall st e,
  tables_loop cfg ts st = Raise e -> e = OverflowError.
Proof.
  induction ts as [|t ts IH]; intros st e H; simpl in H; [discriminate|].
  apply bind_Raise in H as [H | (st' & _ & H)]; eauto using table_step_raises.
Qed.

End TableFacts.

(** X3.  The only exception that escapes [_extract_table_based] is
    [OverflowError]: every [ValueError] of a number conversion is caught
    on the way. *)
Theorem extract_table_based_raises_only_overflow (INCLUDE_ZERO_QUANTITY : bool)
  (doc : pdf) (e : exn) :
  _extract_table_based INCLUDE_ZERO_QUANTITY doc = Raise e -> e = OverflowError.
Proof.
  unfold _extract_table_based. intros H.
  apply TableFacts.bind_Raise in H as [H | (st & _ & H)]; [|discriminate].
  eapply TableFacts.tables_loop_raises, H.
Qed.

Lemma extract_table_based_raises_only_overflow_witness :
  _extract_table_based true infinite_quantity = Raise OverflowError
  /\ OverflowError = OverflowError.
Proof.
  split; [vm_compute; reflexivity|].
  apply (extract_table_based_raises_only_overflow true infinite_quantity).
  vm_compute. reflexivity.
Defined.

Module TableInv.

Section Inv.

Variable cfg : bool.
Variable P : LineItem -> Prop.
Hypothesis Hrow : forall r headers it,
  _parse_line_item_row cfg r headers = Ok (Some it) -> P it.
Hypothesis Hcont : forall cells it,
  continuation_fields cfg cells = Ok (Some it) -> P it.

Lemma _parse_continuation_row_inv r header it :
  _parse_continuation_row cfg r header = Ok (Some it) -> P it.
Proof.
  unfold _parse_continuation_row. intros H.
  destruct r; [discriminate|].
  destruct (_ =? _)%nat; [eapply Hrow, H|].
  destruct (_ <=? _)%nat; [eapply Hcont, H | discriminate].
Qed.

Lemma table_step_inv t items lh items' lh' :
  Forall P items ->
  table_step cfg t (items, lh) = Ok (items', lh') ->
  Forall P items'.
Proof.
  intros Hi H. unfold table_step in H.
  destruct t as [|r0 t]; [injection H as <- <-; exact Hi|].
  destruct (find_header _ _) as [[idx h]|].
  - apply bind_Ok in H as (its & H1 & H). injection H as <- <-.
    eapply InvoiceParserFacts.collect_rows_inv; [|exact Hi|exact H1].
    intros r it. apply Hrow.
  - destruct lh as [[|h hs]|]; try (injection H as <- <-; exact Hi).
    apply bind_Ok in H as (its & H1 & H). injection H as <- <-.
    eapply InvoiceParserFacts.collect_rows_inv; [|exact Hi|exact H1].
    intros r it. apply _parse_continuation_row_inv.
Qed.

Lemma _extract_table_based_inv doc items :
  _extract_table_based cfg doc = Ok items -> Forall P items.
Proof.
  unfold _extract_table_based. intros H.
  apply bind_Ok in H as ([its lh] & H1 & H). injection H as <-. simpl.
  assert (Hgen : forall ts st st',
            Forall P (fst st) -> tables_loop cfg ts st = Ok st' ->
            Forall P (fst st')).
  { intros ts. induction ts as [|t ts IH]; intros st st' Hs Hl; simpl in Hl.
    - injection Hl as <-. exact Hs.
    - apply bind_Ok in Hl as ([i1 l1] & Hstep & Hl). eapply IH; [|exact Hl].
      destruct st as [i0 l0]. eapply table_step_inv; eauto. }
  apply (Hgen _ ([], None) _ ltac:(constructor) H1).
Qed.

End Inv.

Definition nonzero (it : LineItem) : Prop :=
  exists z, quantity it = Int z /\ z <> 0.

Lemma _parse_line_item_row_nonzero r headers it :
  _parse_line_item_row false r headers = Ok (Some it) -> nonzero it.
Proof.
  unfold _parse_line_item_row. intros H.
  destruct (_ <? _)%nat; [discriminate|].
  apply bind_Ok in H as ([qty|] & _ & H); [|discriminate].
  destruct (qty =? 0) eqn:E; [discriminate|]. apply Z.eqb_neq in E.
  cbn [negb andb] in H.
  repeat case_match; try discriminate.
  all: apply Ok_Some_inj in H; subst it.
  all: exists qty; split; [reflexivity | exact E].
Qed.

Lemma continuation_fields_nonzero cells it :
  continuation_fields false cells = Ok (Some it) -> nonzero it.
Proof.
  unfold continuation_fields. intros H.
  destruct (truthy_opt _); [|discriminate].
  destruct (float_of_str _) as [x|[]]; try discriminate.
  destruct (int_of_float x) as [qty|[]]; try discriminate.
  destruct (qty =? 0) eqn:E; [discriminate|]. apply Z.eqb_neq in E.
  cbn [negb andb] in H.
  repeat case_match; try discriminate.
  all: apply Ok_Some_inj in H; subst it.
  all: exists qty; split; [reflexivity | exact E].
Qed.

End TableInv.

(** X5.  With [INCLUDE_ZERO_QUANTITY] off, every record of the table
    parser, from a header table or from a continuation table, has an
    integer quantity other than zero. *)
Theorem extract_table_based_zero_gate (doc : pdf) (items : list LineItem) :
  _extract_table_based false doc = Ok items ->
  Forall (fun it => exists z, quantity it = Int z /\ z <> 0) items.
Proof.
  apply (TableInv._extract_table_based_inv false TableInv.nonzero).
  - apply TableInv._parse_line_item_row_nonzero.
  - apply TableInv.continuation_fields_nonzero.
Qed.

Lemma extract_table_based_zero_gate_witness :
  exists items,
    _extract_table_based false zero_and_widget = Ok items
    /\ List.length items = 1%nat
    /\ Forall (fun it => exists z, quantity it = Int z /\ z <> 0) items.
Proof.
  eexists. split; [vm_compute; reflexivity|]. split; [reflexivity|].
  apply (extract_table_based_zero_gate zero_and_widget).
  vm_compute. reflexivity.
Defined.



(** ** The table of character references *)

Definition cid_entries : list (string * string) := map_to_list cid_map.

(** The one-character text with the code [n]. *)
Definition chr (n : Z) : string := String (ascii_of_N (Z.to_N n)) "".

Definition cid_entry_ok (kv : string * string) : bool :=
  let '(k, v) := kv in
  String.eqb (decode_cid_references ("(cid:" +:+ k +:+ ")")) v
  && (String.eqb k "192"
      || match int k with
         | Ok n => String.eqb v (chr n)
         | Raise _ => false
         end).

Lemma cid_entries_ok : forallb cid_entry_ok cid_entries = true.
Proof. vm_compute. reflexivity. Qed.

(** X6.  For every entry of [cid_map], [decode_cid_references] turns the
    reference [(cid:N)] into the entry's text; and, the entry 192 apart,
    that text is the one character whose code is [N]. *)
Theorem cid_map_is_ascii (cid_num ch : string) :
  cid_map !! cid_num = Some ch ->
  decode_cid_references ("(cid:" +:+ cid_num +:+ ")") = ch
  /\ (cid_num <> "192" -> exists n, int cid_num = Ok n /\ ch = chr n).
Proof.
  intros H. apply elem_of_map_to_list in H.
  pose proof cid_entries_ok as Hall. rewrite forallb_forall in Hall.
  apply list_elem_of_In in H. specialize (Hall _ H). cbn beta iota in Hall.
  apply andb_prop in Hall as [Hd Hc]. apply String.eqb_eq in Hd.
  split; [exact Hd|]. intros Hne.
  apply orb_prop in Hc as [Hc|Hc].
  - apply String.eqb_eq in Hc. contradiction.
  - destruct (int cid_num) as [n|]; [|discriminate].
    apply String.eqb_eq in Hc. exists n. split; [reflexivity | exact Hc].
Qed.

Lemma cid_map_is_ascii_witness :
  decode_cid_references "(cid:54)" = "6"
  /\ ("54" <> "192" -> exists n, int "54" = Ok n /\ "6" = chr n).
Proof.
  apply (cid_map_is_ascii "54" "6"). vm_compute. reflexivity.
Defined.

(** ** Scanning loops *)

(** What one turn of a scanning loop leaves true of the state it goes on
    with, or of the result it leaves with. *)
Definition turn {S R : Type} (Inv : S -> Prop) (Q : R -> Prop)
  (c : outcome (step S R)) : Prop :=
  match c with
  | Ok (Continue s') => Inv s'
  | Ok (Break r) => Q r
  | Raise _ => True
  end.

Lemma turn_bind {S R A : Type} (Inv : S -> Prop) (Q : R -> Prop)
  (c : outcome A) (k : A -> outcome (step S R)) :
  (forall a, c = Ok a -> turn Inv Q (k a)) -> turn Inv Q (x ← c; k x).
Proof.
  intros H. destruct c as [a|e]; [apply H; reflexivity | exact I].
Qed.

Lemma turn_catch {S R : Type} (Inv : S -> Prop) (Q : R -> Prop)
  (c : outcome (step S R)) caught (h : outcome (step S R)) :
  turn Inv Q c -> turn Inv Q h -> turn Inv Q (catch c caught h).
Proof.
  intros Hc Hh. unfold catch. destruct c as [a|e]; [exact Hc|].
  destruct (caught e); [exact Hh | exact I].
Qed.

Lemma while_turns {S R : Type} (Inv : S -> Prop) (Q : R -> Prop)
  (body : S -> outcome (step S R)) (out_of_fuel : S -> R) :
  (forall s, Inv s -> turn Inv Q (body s)) ->
  (forall s, Inv s -> Q (out_of_fuel s)) ->
  forall fuel s r, Inv s -> while fuel body out_of_fuel s = Ok r -> Q r.
Proof.
  intros Hb Ho. apply while_inv; [| |exact Ho].
  - intros s s' Hs E. specialize (Hb s Hs). now rewrite E in Hb.
  - intros s r Hs E. specialize (Hb s Hs). now rewrite E in Hb.
Qed.

Module ItoyaLoop.

Import ItoyaParser.

Lemma itoya_description_lines_index lines n d :
  (n <= snd (description_lines lines n d))%nat.
Proof.
  unfold description_lines. repeat case_match; simpl; lia.
Qed.

Lemma itoya_body_turn include_zero_qty lines (P : LineItem -> Prop) s :
  (forall it z, quantity it = Int z ->
     (0 <? z) || include_zero_qty = true -> P it) ->
  Forall P (items s) ->
  turn (fun s' => (i s < i s')%nat /\ (i s < List.length lines)%nat
                  /\ Forall P (items s'))
       (fun r => Forall P r)
       (body include_zero_qty lines s).
Proof.
  intros HP Hs. unfold body.
  destruct (lines !! i s) as [line|] eqn:El; [|exact Hs].
  apply lookup_lt_Some in El.
  assert (Hskip : forall b,
            turn (fun s' => (i s < i s')%nat /\ (i s < List.length lines)%nat
                            /\ Forall P (items s'))
              (fun r => Forall P r)
              (Ok (Continue (St (i s + 1) b (items s))))).
  { intros b. simpl. repeat split; [lia | exact El | exact Hs]. }
  destruct (contains "Item Description UOM" line); [apply Hskip|].
  destruct (in_items_section s && _); [exact Hs|].
  destruct (in_items_section s && truthy (strip line)); [|apply Hskip].
  destruct (Re.groups item_re line) as [gs|]; [|apply Hskip].
  destruct gs as [|[item_num|] gs]; try apply Hskip.
  destruct gs as [|[description|] gs]; try apply Hskip.
  destruct gs as [|[shipped|] gs]; try apply Hskip.
  destruct gs as [|[price|] gs]; try apply Hskip.
  destruct gs as [|[amount|] gs]; try apply Hskip.
  destruct gs as [|? ?]; try apply Hskip.
  pose proof (itoya_description_lines_index lines (i s) description) as Hi.
  destruct (description_lines lines (i s) description) as [desc_parts i'].
  simpl in Hi.
  apply turn_bind. intros qty _.
  destruct ((0 <? qty) || include_zero_qty) eqn:Eq.
  - apply turn_bind. intros unit_price _.
    apply turn_bind. intros total_amount _.
    simpl. repeat split; [lia | exact El |].
    apply Forall_app. split; [exact Hs|].
    constructor; [|constructor]. eapply HP; [reflexivity | exact Eq].
  - simpl. repeat split; [lia | exact El | exact Hs].
Qed.

End ItoyaLoop.

(** X7.  Every turn of the Itoya loop over the lines of a page that goes
    on moves the index forward and starts below the number of lines; so
    the loop ends within that many turns, and the result of the scan is the
    same for any number of turns allowed above it. *)
Theorem itoya_loop_advances (include_zero_qty : bool) (lines : list string) :
  (forall s s',
     ItoyaParser.body include_zero_qty lines s = Ok (Continue s') ->
     (ItoyaParser.i s < ItoyaParser.i s')%nat
     /\ (ItoyaParser.i s < List.length lines)%nat)
  /\ (forall fuel found,
        (List.length lines < fuel)%nat ->
        while fuel (ItoyaParser.body include_zero_qty lines) ItoyaParser.items
          (ItoyaParser.St 0 false found)
        = ItoyaParser.scan_page include_zero_qty lines found).
Proof.
  assert (Hadv : forall s s',
     ItoyaParser.body include_zero_qty lines s = Ok (Continue s') ->
     (ItoyaParser.i s < ItoyaParser.i s')%nat
     /\ (ItoyaParser.i s < List.length lines)%nat).
  { intros s s' E.
    pose proof (ItoyaLoop.itoya_body_turn include_zero_qty lines (fun _ => True) s
                  (fun _ _ _ _ => I)
                  (proj2 (Forall_forall _ _) (fun _ _ => I))) as H.
    rewrite E in H. simpl in H. tauto. }
  split; [exact Hadv|].
  intros fuel found Hfuel. unfold ItoyaParser.scan_page.
  apply (while_enough_fuel
           (fun s => (List.length lines - ItoyaParser.i s)%nat)).
  - intros s s' E. apply Hadv in E. lia.
  - simpl. lia.
  - simpl. lia.
Qed.

(** X10.  With [include_zero_qty] off, every record of the Itoya scanner
    has a positive integer quantity. *)
Theorem itoya_zero_gate (doc : pdf) (items : list LineItem) :
  ItoyaParser.parse doc false = Ok items ->
  Forall (fun it => exists z, quantity it = Int z /\ 0 < z) items.
Proof.
  unfold ItoyaParser.parse.
  apply (over_pages_inv
           (Forall (fun it => exists z, quantity it = Int z /\ 0 < z)));
    [|constructor].
  intros lines found found' Hfound. unfold ItoyaParser.scan_page.
  apply (while_turns
           (fun s => Forall (fun it => exists z, quantity it = Int z /\ 0 < z)
                       (ItoyaParser.items s))
           (Forall (fun it => exists z, quantity it = Int z /\ 0 < z)));
    [| auto | exact Hfound].
  intros s Hs.
  pose proof (ItoyaLoop.itoya_body_turn false lines
                (fun it => exists z, quantity it = Int z /\ 0 < z) s) as H.
  destruct (ItoyaParser.body false lines s) as [[s'|r]|e]; simpl in *.
  - apply H; [|exact Hs]. intros it z Hq Hz. exists z. split; [exact Hq|].
    rewrite orb_false_r in Hz. now apply Z.ltb_lt.
  - apply H; [|exact Hs]. intros it z Hq Hz. exists z. split; [exact Hq|].
    rewrite orb_false_r in Hz. now apply Z.ltb_lt.
  - exact I.
Qed.

Lemma itoya_zero_gate_witness :
  exists items,
    ItoyaParser.parse itoya_two_lines false = Ok items
    /\ List.length items = 1%nat
    /\ Forall (fun it => exists z, quantity it = Int z /\ 0 < z) items.
Proof.
  eexists. split; [vm_compute; reflexivity|]. split; [reflexivity|].
  apply (itoya_zero_gate itoya_two_lines).
  vm_compute. reflexivity.
Defined.

Module MontblancLoop.

Import MontblancParser.

Lemma montblanc_body_turn include_zero_qty lines (P : LineItem -> Prop) s :
  (forall it z, quantity it = Int z ->
     (z =? 0) && negb include_zero_qty = false -> P it) ->
  Forall P (items s) ->
  turn (fun s' => (i s < i s')%nat /\ (i s < List.length lines)%nat
                  /\ Forall P (items s'))
       (fun r => Forall P r)
       (body include_zero_qty lines s).
Proof.
  intros HP Hs. unfold body.
  destruct (lines !! i s) as [line|] eqn:El; [|exact Hs].
  apply lookup_lt_Some in El.
  assert (Hskip : forall b n,
            turn (fun s' => (i s < i s')%nat /\ (i s < List.length lines)%nat
                            /\ Forall P (items s'))
              (fun r => Forall P r)
              (Ok (Continue (St (i s + 1 + n) b (items s))))).
  { intros b n. simpl. repeat split; [lia | exact El | exact Hs]. }
  assert (Hskip0 : forall b,
            turn (fun s' => (i s < i s')%nat /\ (i s < List.length lines)%nat
                            /\ Forall P (items s'))
              (fun r => Forall P r)
              (Ok (Continue (St (i s + 1) b (items s))))).
  { intros b. simpl. repeat split; [lia | exact El | exact Hs]. }
  destruct (_ && _); [apply Hskip0|].
  destruct (negb (in_items s)); [apply Hskip0|].
  destruct (re_matches footer_re (strip line)); [apply Hskip0|].
  destruct (Re.groups format_a_re (strip line)) as [ga|];
    [|destruct (Re.groups format_b_re (strip line)) as [gb|]].
  - destruct ga as [|[a|] ga]; try apply Hskip0.
    destruct ga as [|[b|] ga]; try apply Hskip0.
    destruct ga as [|[c|] ga]; try apply Hskip0.
    destruct ga as [|d ga]; try apply Hskip0.
    destruct ga as [|[e|] ga]; try apply Hskip0.
    destruct ga as [|[f|] ga]; try apply Hskip0.
    destruct ga as [|? ?]; try apply Hskip0.
    apply turn_catch; [|apply Hskip0].
    apply turn_bind. intros qty _.
    destruct ((qty =? 0) && negb include_zero_qty) eqn:Eq; [apply Hskip0|].
    apply turn_bind. intros unit_price _.
    apply turn_bind. intros total _.
    destruct (following_lines _) as [parts n]. simpl.
    repeat split; [lia | exact El |].
    apply Forall_app. split; [exact Hs|]. constructor; [|constructor].
    eapply HP; [reflexivity | exact Eq].
  - destruct gb as [|[a|] gb]; try apply Hskip0.
    destruct gb as [|[b|] gb]; try apply Hskip0.
    destruct gb as [|c gb]; try apply Hskip0.
    destruct gb as [|[e|] gb]; try apply Hskip0.
    destruct gb as [|[f|] gb]; try apply Hskip0.
    destruct gb as [|? ?]; try apply Hskip0.
    destruct (int b) as [qty|err]; [|destruct (is_ValueError err);
                                      [apply Hskip0 | exact I]].
    destruct ((qty =? 0) && negb include_zero_qty) eqn:Eq; [apply Hskip0|].
    destruct (following_lines _) as [parts n].
    apply turn_catch.
    + apply turn_bind. intros unit_price _.
      apply turn_bind. intros total _. simpl.
      repeat split; [lia | exact El |].
      apply Forall_app. split; [exact Hs|]. constructor; [|constructor].
      eapply HP; [reflexivity | exact Eq].
    + simpl. repeat split; [lia | exact El | exact Hs].
  - apply Hskip0.
Qed.

End MontblancLoop.

(** X8.  Every turn of the Montblanc loop that goes on moves the index
    forward, the inner loops over the following lines included; the scan
    of a page is the same for any number of turns allowed above the number
    of lines. *)
Theorem montblanc_loop_advances (include_zero_qty : bool)
  (lines : list string) :
  (forall s s',
     MontblancParser.body include_zero_qty lines s = Ok (Continue s') ->
     (MontblancParser.i s < MontblancParser.i s')%nat
     /\ (MontblancParser.i s < List.length lines)%nat)
  /\ (forall fuel found,
        (List.length lines < fuel)%nat ->
        while fuel (MontblancParser.body include_zero_qty lines)
          MontblancParser.items (MontblancParser.St 0 false found)
        = MontblancParser.scan_page include_zero_qty lines found).
Proof.
  assert (Hadv : forall s s',
     MontblancParser.body include_zero_qty lines s = Ok (Continue s') ->
     (MontblancParser.i s < MontblancParser.i s')%nat
     /\ (MontblancParser.i s < List.length lines)%nat).
  { intros s s' E.
    pose proof (MontblancLoop.montblanc_body_turn include_zero_qty lines (fun _ => True) s
                  (fun _ _ _ _ => I)
                  (proj2 (Forall_forall _ _) (fun _ _ => I))) as H.
    rewrite E in H. simpl in H. tauto. }
  split; [exact Hadv|].
  intros fuel found Hfuel. unfold MontblancParser.scan_page.
  apply (while_enough_fuel
           (fun s => (List.length lines - MontblancParser.i s)%nat)).
  - intros s s' E. apply Hadv in E. lia.
  - simpl. lia.
  - simpl. lia.
Qed.

(** X11.  Every record of the Montblanc scanner, of format A or of format
    B, has an integer quantity (not zero when [include_zero_qty] is off)
    and an item number of five digits or more that is also its sku. *)
Theorem montblanc_records (doc : pdf) (include_zero_qty : bool)
  (items : list LineItem) :
  MontblancParser.parse doc include_zero_qty = Ok items ->
  Forall (fun it =>
            (exists z, quantity it = Int z
                       /\ (include_zero_qty = false -> z <> 0))
            /\ sku it = item_number it
            /\ (5 <= String.length (item_number it))%nat
            /\ Forall (fun c => is_digit c = true) (chars (item_number it)))
    items.
Proof.
  intros H. apply Forall_and. split.
  - revert H. unfold MontblancParser.parse.
    apply (over_pages_inv
             (Forall (fun it => exists z, quantity it = Int z
                                /\ (include_zero_qty = false -> z <> 0))));
      [|constructor].
    intros lines found found' Hfound. unfold MontblancParser.scan_page.
    apply (while_turns
             (fun s => Forall (fun it => exists z, quantity it = Int z
                                 /\ (include_zero_qty = false -> z <> 0))
                         (MontblancParser.items s))
             (Forall (fun it => exists z, quantity it = Int z
                                /\ (include_zero_qty = false -> z <> 0))));
      [| auto | exact Hfound].
    intros s Hs.
    assert (HP : forall it z, quantity it = Int z ->
                   (z =? 0) && negb include_zero_qty = false ->
                   exists z, quantity it = Int z
                             /\ (include_zero_qty = false -> z <> 0)).
    { intros it z Hq Hz. exists z. split; [exact Hq|]. intros ->.
      rewrite andb_true_r in Hz. now apply Z.eqb_neq. }
    pose proof (MontblancLoop.montblanc_body_turn include_zero_qty lines _ s
                  HP Hs) as K.
    destruct (MontblancParser.body include_zero_qty lines s) as [[s'|r]|e];
      simpl in *; tauto.
  - exact (MontblancFacts.montblanc_parse_keeps _ _ _ H).
Qed.

Lemma montblanc_records_witness :
  exists items,
    MontblancParser.parse montblanc_two_lines false = Ok items
    /\ List.length items = 1%nat
    /\ Forall (fun it =>
                 (exists z, quantity it = Int z /\ (false = false -> z <> 0))
                 /\ sku it = item_number it
                 /\ (5 <= String.length (item_number it))%nat
                 /\ Forall (fun c => is_digit c = true)
                      (chars (item_number it)))
         items.
Proof.
  eexists. split; [vm_compute; reflexivity|]. split; [reflexivity|].
  apply (montblanc_records montblanc_two_lines false).
  vm_compute. reflexivity.
Defined.

Module KenroLoop.

Import KenroParser.

Lemma kenro_body_turn include_zero_qty t (P : LineItem -> Prop) s :
  (forall it z, quantity it = Int z ->
     (z =? 0) && negb include_zero_qty = false ->
     sku it = item_number it -> item_number it <> "" ->
     product_description it <> "" -> backorder it <> None -> P it) ->
  Forall P (items s) ->
  turn (fun s' => (i s < i s')%nat /\ (i s < List.length t)%nat
                  /\ Forall P (items s'))
       (fun r => Forall P r)
       (body include_zero_qty t s).
Proof.
  intros HP Hs. unfold body.
  destruct (_ !! i s) as [r|] eqn:El; [|exact Hs].
  apply lookup_lt_Some in El.
  assert (Hnext : forall n,
            turn (fun s' => (i s < i s')%nat /\ (i s < List.length t)%nat
                            /\ Forall P (items s'))
              (fun r => Forall P r)
              (Ok (Continue (St (i s + S n) (items s))))).
  { intros n. simpl. repeat split; [lia | exact El | exact Hs]. }
  destruct (_ <? _)%nat; [apply (Hnext 0%nat)|].
  destruct (negb _ || negb _); [apply (Hnext 0%nat)|].
  destruct (continuation _ _ _) as [description continuation_rows].
  apply turn_catch; [|apply (Hnext 0%nat)].
  apply turn_bind. intros qty _.
  destruct ((qty =? 0) && negb include_zero_qty) eqn:Eq;
    [apply (Hnext continuation_rows)|].
  apply turn_bind. intros price _.
  apply turn_bind. intros backorder _.
  apply turn_bind. intros amount _.
  destruct (truthy _ && truthy description) eqn:Et;
    [|apply (Hnext continuation_rows)].
  apply andb_prop in Et as [Hcode Hdesc].
  simpl. repeat split; [lia | exact El |].
  apply Forall_app. split; [exact Hs|]. constructor; [|constructor].
  eapply HP; [reflexivity | exact Eq | reflexivity | | |].
  - simpl. now apply truthy_nonempty.
  - simpl. now apply truthy_nonempty.
  - simpl. discriminate.
Qed.

Lemma kenro_over_tables_inv include_zero_qty (Q : list LineItem -> Prop) :
  (forall t found found',
     Q found -> scan_table include_zero_qty t found = Ok found' -> Q found') ->
  forall ts found found',
    Q found -> over_tables include_zero_qty ts found = Ok found' -> Q found'.
Proof.
  intros Hscan ts. induction ts as [|t ts IH]; intros found found' Hf H;
    simpl in H.
  - injection H as <-. exact Hf.
  - apply bind_Ok in H as (f1 & H1 & H). eauto.
Qed.

Lemma kenro_parse_inv include_zero_qty (P : LineItem -> Prop) doc found :
  (forall it z, quantity it = Int z ->
     (z =? 0) && negb include_zero_qty = false ->
     sku it = item_number it -> item_number it <> "" ->
     product_description it <> "" -> backorder it <> None -> P it) ->
  parse doc include_zero_qty = Ok found -> Forall P found.
Proof.
  intros HP. unfold parse.
  apply (kenro_over_tables_inv include_zero_qty (Forall P)); [|constructor].
  intros t f f' Hf. unfold scan_table.
  destruct (_ <? _)%nat; [intros [= <-]; exact Hf|].
  destruct (find_header _ _) as [h|]; [|intros [= <-]; exact Hf].
  apply (while_turns (fun s => Forall P (items s)) (Forall P));
    [| auto | exact Hf].
  intros s Hs.
  pose proof (kenro_body_turn include_zero_qty t P s HP Hs) as H.
  destruct (body include_zero_qty t s) as [[s'|r]|e]; simpl in *; tauto.
Qed.

End KenroLoop.

(** X9.  Every turn of the Kenro loop over the rows of a table that goes
    on moves the index forward, by one more than the continuation rows it
    took; the scan of the rows is the same for any number of turns allowed
    above the number of rows. *)
Theorem kenro_loop_advances (include_zero_qty : bool) (t : table) :
  (forall s s',
     KenroParser.body include_zero_qty t s = Ok (Continue s') ->
     (KenroParser.i s < KenroParser.i s')%nat
     /\ (KenroParser.i s < List.length t)%nat)
  /\ (forall fuel start found,
        (List.length t < fuel)%nat ->
        while fuel (KenroParser.body include_zero_qty t) KenroParser.items
          (KenroParser.St start found)
        = while (S (List.length t)) (KenroParser.body include_zero_qty t)
            KenroParser.items (KenroParser.St start found)).
Proof.
  assert (Hadv : forall s s',
     KenroParser.body include_zero_qty t s = Ok (Continue s') ->
     (KenroParser.i s < KenroParser.i s')%nat
     /\ (KenroParser.i s < List.length t)%nat).
  { intros s s' E.
    pose proof (KenroLoop.kenro_body_turn include_zero_qty t (fun _ => True) s
                  (fun _ _ _ _ _ _ _ _ => I)
                  (proj2 (Forall_forall _ _) (fun _ _ => I))) as H.
    rewrite E in H. simpl in H. tauto. }
  split; [exact Hadv|].
  intros fuel start found Hfuel.
  apply (while_enough_fuel
           (fun s => (List.length t - KenroParser.i s)%nat)).
  - intros s s' E. apply Hadv in E. lia.
  - simpl. lia.
  - simpl. lia.
Qed.

(** X12.  Every record of the Kenro scanner has an integer quantity (not
    zero when [include_zero_qty] is off), a non-empty item number that is
    also its sku, a non-empty description and a backorder count. *)
Theorem kenro_records (doc : pdf) (include_zero_qty : bool)
  (items : list LineItem) :
  KenroParser.parse doc include_zero_qty = Ok items ->
  Forall (fun it =>
            (exists z, quantity it = Int z
                       /\ (include_zero_qty = false -> z <> 0))
            /\ sku it = item_number it /\ item_number it <> ""
            /\ product_description it <> "" /\ backorder it <> None) items.
Proof.
  apply KenroLoop.kenro_parse_inv.
  intros it z Hq Hz Hsku Hitem Hdesc Hbo. repeat split; try assumption.
  exists z. split; [exact Hq|]. intros ->.
  rewrite andb_true_r in Hz. now apply Z.eqb_neq.
Qed.

Lemma kenro_records_witness :
  exists items,
    KenroParser.parse kenro_table false = Ok items
    /\ List.length items = 1%nat
    /\ Forall (fun it =>
                (exists z, quantity it = Int z /\ (false = false -> z <> 0))
                /\ sku it = item_number it /\ item_number it <> ""
                /\ product_description it <> "" /\ backorder it <> None)
         items.
Proof.
  eexists. split; [vm_compute; reflexivity|]. split; [reflexivity|].
  apply (kenro_records kenro_table false).
  vm_compute. reflexivity.
Defined.

(** ** Zero quantities and page headers *)

Module GateFacts.

Lemma float_eq_int_zero x : float_eq_int x 0 = true -> float_is_zero x = true.
Proof.
  destruct x as [neg m e| |]; simpl; try discriminate.
  destruct (0 <=? e) eqn:E; intros H; apply Z.eqb_eq in H; apply Z.eqb_eq.
  - apply Z.leb_le in E.
    assert (0 < 2 ^ e) by (apply Z.pow_pos_nonneg; lia).
    destruct neg; nia.
  - destruct neg; lia.
Qed.

Definition counted (it : LineItem) : Prop :=
  match quantity it with
  | Int z => z <> 0
  | Float x => float_is_zero x = false
  end.

Lemma avanti_body_counted line items items' :
  Forall counted items ->
  AvantiParser.body false line items = Ok items' ->
  Forall counted items'.
Proof.
  intros Hi. unfold AvantiParser.body.
  destruct (Re.groups _ _) as [gs|]; [|intros [= <-]; exact Hi].
  destruct gs as [|[a|] gs]; try (intros [= <-]; exact Hi).
  destruct gs as [|[b|] gs]; try (intros [= <-]; exact Hi).
  destruct gs as [|[c|] gs]; try (intros [= <-]; exact Hi).
  destruct gs as [|[d|] gs]; try (intros [= <-]; exact Hi).
  destruct gs as [|[e|] gs]; try (intros [= <-]; exact Hi).
  destruct gs as [|[f|] gs]; try (intros [= <-]; exact Hi).
  destruct gs as [|? ?]; try (intros [= <-]; exact Hi).
  intros H. apply bind_Ok in H as (qty & _ & H).
  destruct (float_is_zero qty) eqn:Ez; [injection H as <-; exact Hi|].
  cbn [andb] in H.
  apply bind_Ok in H as (price & _ & H).
  apply bind_Ok in H as (amount & _ & H).
  apply bind_Ok in H as (q & Hq & H). injection H as <-.
  apply Forall_app. split; [exact Hi|]. constructor; [|constructor].
  unfold counted. cbn [quantity].
  unfold AvantiParser.quantity_of in Hq.
  apply bind_Ok in Hq as (n & _ & Hq). injection Hq as <-.
  destruct (float_eq_int qty n) eqn:En; [|exact Ez].
  intros ->. apply float_eq_int_zero in En. congruence.
Qed.

Lemma exaclair_body_inv include_zero_qty (P : LineItem -> Prop)
  line b items b' items' :
  (forall it z, quantity it = Int z ->
     (z =? 0) && negb include_zero_qty = false ->
     sku it = item_number it -> P it) ->
  Forall P items ->
  ExaclairParser.body include_zero_qty line (b, items) = Ok (b', items') ->
  Forall P items'.
Proof.
  intros HP Hi. unfold ExaclairParser.body.
  destruct (_ || _); [intros [= <- <-]; exact Hi|].
  destruct (b && (_ || _ || _)); [intros [= <- <-]; exact Hi|].
  destruct (b && truthy _); [|intros [= <- <-]; exact Hi].
  destruct (Re.groups _ _) as [gs|]; [|intros [= <- <-]; exact Hi].
  destruct gs as [|[g1|] gs]; try (intros [= <- <-]; exact Hi).
  destruct gs as [|[g2|] gs]; try (intros [= <- <-]; exact Hi).
  destruct gs as [|[g3|] gs]; try (intros [= <- <-]; exact Hi).
  destruct gs as [|[g4|] gs]; try (intros [= <- <-]; exact Hi).
  destruct gs as [|[g5|] gs]; try (intros [= <- <-]; exact Hi).
  destruct gs as [|[g6|] gs]; try (intros [= <- <-]; exact Hi).
  destruct gs as [|[g7|] gs]; try (intros [= <- <-]; exact Hi).
  destruct gs as [|[g8|] gs]; try (intros [= <- <-]; exact Hi).
  destruct gs as [|? ?]; try (intros [= <- <-]; exact Hi).
  intros H. apply catch_Ok in H as [H|H]; [|injection H as <- <-; exact Hi].
  apply bind_Ok in H as (qty & _ & H).
  destruct ((qty =? 0) && negb include_zero_qty) eqn:Ez;
    [injection H as <- <-; exact Hi|].
  apply bind_Ok in H as (retail & _ & H).
  apply bind_Ok in H as (disc & _ & H).
  apply bind_Ok in H as (up & _ & H).
  apply bind_Ok in H as (total & _ & H). injection H as <- <-.
  apply Forall_app. split; [exact Hi|]. constructor; [|constructor].
  eapply HP; [reflexivity | exact Ez | reflexivity].
Qed.

Lemma exaclair_parse_inv include_zero_qty (P : LineItem -> Prop) doc items :
  (forall it z, quantity it = Int z ->
     (z =? 0) && negb include_zero_qty = false ->
     sku it = item_number it -> P it) ->
  ExaclairParser.parse doc include_zero_qty = Ok items -> Forall P items.
Proof.
  intros HP. unfold ExaclairParser.parse.
  apply (over_pages_inv (Forall P)); [|constructor].
  intros lines found found' Hf. unfold ExaclairParser.scan_page. intros H.
  apply bind_Ok in H as ([b its] & H & E). injection E as <-.
  revert H.
  apply (for_each_inv (fun s => Forall P (snd s))
           (ExaclairParser.body include_zero_qty)); [|exact Hf].
  intros line [b0 i0] [b1 i1]. now apply exaclair_body_inv.
Qed.

End GateFacts.

(** X13.  With [include_zero_qty] off, no record of the Avanti scanner
    has the quantity zero, as an integer or as a float. *)
Theorem avanti_zero_gate (doc : pdf) (items : list LineItem) :
  AvantiParser.parse doc false = Ok items ->
  Forall (fun it => match quantity it with
                    | Int z => z <> 0
                    | Float x => float_is_zero x = false
                    end) items.
Proof.
  unfold AvantiParser.parse.
  apply (over_pages_inv (Forall GateFacts.counted)); [|constructor].
  intros lines found found' Hf. unfold AvantiParser.scan_page.
  apply (for_each_inv (Forall GateFacts.counted)); [|exact Hf].
  intros line s s'. apply GateFacts.avanti_body_counted.
Qed.

Lemma avanti_zero_gate_witness :
  exists items,
    AvantiParser.parse avanti_two_lines false = Ok items
    /\ List.length items = 1%nat
    /\ Forall (fun it => match quantity it with
                      | Int z => z <> 0
                      | Float x => float_is_zero x = false
                      end) items.
Proof.
  eexists. split; [vm_compute; reflexivity|]. split; [reflexivity|].
  apply (avanti_zero_gate avanti_two_lines).
  vm_compute. reflexivity.
Defined.

(** X14.  With [include_zero_qty] off, every record of the Exaclair
    scanner has an integer quantity other than zero. *)
Theorem exaclair_zero_gate (doc : pdf) (items : list LineItem) :
  ExaclairParser.parse doc false = Ok items ->
  Forall (fun it => exists z, quantity it = Int z /\ z <> 0) items.
Proof.
  apply GateFacts.exaclair_parse_inv.
  intros it z Hq Hz _. exists z. split; [exact Hq|].
  rewrite andb_true_r in Hz. now apply Z.eqb_neq.
Qed.

Lemma exaclair_zero_gate_witness :
  exists items,
    ExaclairParser.parse exaclair_two_lines false = Ok items
    /\ List.length items = 1%nat
    /\ Forall (fun it => exists z, quantity it = Int z /\ z <> 0) items.
Proof.
  eexists. split; [vm_compute; reflexivity|]. split; [reflexivity|].
  apply (exaclair_zero_gate exaclair_two_lines).
  vm_compute. reflexivity.
Defined.

Module PageFacts.

(** No line of the page holds the text [h]. *)
Definition lacks (h : string) (lines : list string) : Prop :=
  Forall (fun line => contains h line = false) lines.

Lemma exaclair_skip include_zero_qty line found :
  contains "Item Number Description" line = false ->
  contains "Ordered Shipped B. Order" line = false ->
  ExaclairParser.body include_zero_qty line (false, found) = Ok (false, found).
Proof.
  intros H1 H2. unfold ExaclairParser.body. now rewrite H1, H2.
Qed.

Lemma exaclair_headerless include_zero_qty lines found :
  lacks "Item Number Description" lines ->
  lacks "Ordered Shipped B. Order" lines ->
  for_each (ExaclairParser.body include_zero_qty) lines (false, found)
  = Ok (false, found).
Proof.
  intros H1. induction H1 as [|line lines Hl H1 IH]; intros H2; [reflexivity|].
  inversion H2 as [|? ? Hl2 H2']; subst.
  cbn [for_each]. rewrite (exaclair_skip _ _ _ Hl Hl2). exact (IH H2').
Qed.

Lemma chartpak_skip include_zero_qty line found :
  contains "CATALOG" line = false ->
  ChartpakParser.body include_zero_qty line (false, found) = Ok (false, found).
Proof.
  intros H. unfold ChartpakParser.body. rewrite H, andb_false_r.
  now destruct (_ || _).
Qed.

Lemma chartpak_headerless include_zero_qty lines found :
  lacks "CATALOG" lines ->
  for_each (ChartpakParser.body include_zero_qty) lines (false, found)
  = Ok (false, found).
Proof.
  intros H1. induction H1 as [|line lines Hl H1 IH]; [reflexivity|].
  cbn [for_each]. rewrite (chartpak_skip _ _ _ Hl). exact IH.
Qed.

Lemma itoya_headerless include_zero_qty lines found :
  lacks "Item Description UOM" lines ->
  forall fuel n,
    while fuel (ItoyaParser.body include_zero_qty lines) ItoyaParser.items
      (ItoyaParser.St n false found) = Ok found.
Proof.
  intros H fuel. induction fuel as [|fuel IH]; intros n; [reflexivity|].
  cbn [while]. unfold ItoyaParser.body at 1. cbn [ItoyaParser.i
    ItoyaParser.in_items_section ItoyaParser.items].
  destruct (lines !! n) as [line|] eqn:El; [|reflexivity].
  rewrite (Forall_lookup_1 _ _ _ _ H El).
  cbn [andb]. apply IH.
Qed.

Lemma montblanc_headerless include_zero_qty lines found :
  lacks "Article" lines ->
  forall fuel n,
    while fuel (MontblancParser.body include_zero_qty lines)
      MontblancParser.items (MontblancParser.St n false found) = Ok found.
Proof.
  intros H fuel. induction fuel as [|fuel IH]; intros n; [reflexivity|].
  cbn [while]. unfold MontblancParser.body at 1. cbn [MontblancParser.i
    MontblancParser.in_items MontblancParser.items].
  destruct (lines !! n) as [line|] eqn:El; [|reflexivity].
  rewrite (Forall_lookup_1 _ _ _ _ H El).
  cbn [andb negb]. apply IH.
Qed.

End PageFacts.

(** X15.  The Exaclair, Chartpak, Itoya and Montblanc scanners start
    every page outside the items section: a page none of whose lines
    holds the column header adds no record, whatever its lines are. *)
Theorem page_without_header_adds_nothing (include_zero_qty : bool)
  (lines : list string) (found : list LineItem) :
  (PageFacts.lacks "Item Number Description" lines ->
   PageFacts.lacks "Ordered Shipped B. Order" lines ->
   ExaclairParser.scan_page include_zero_qty lines found = Ok found)
  /\ (PageFacts.lacks "CATALOG" lines ->
      ChartpakParser.scan_page include_zero_qty lines found = Ok found)
  /\ (PageFacts.lacks "Item Description UOM" lines ->
      ItoyaParser.scan_page include_zero_qty lines found = Ok found)
  /\ (PageFacts.lacks "Article" lines ->
      MontblancParser.scan_page include_zero_qty lines found = Ok found).
Proof.
  repeat split.
  - intros H1 H2. unfold ExaclairParser.scan_page.
    now rewrite PageFacts.exaclair_headerless.
  - intros H. unfold ChartpakParser.scan_page.
    now rewrite PageFacts.chartpak_headerless.
  - intros H. now apply PageFacts.itoya_headerless.
  - intros H. now apply PageFacts.montblanc_headerless.
Qed.

(** ** The one-line scanners: Pilot, TWSBI, Retro 51 *)

Lemma for_each_until_turns {A S : Type} (Inv : S -> Prop)
  (body : A -> S -> outcome (step S S)) :
  (forall a s, Inv s -> turn Inv Inv (body a s)) ->
  forall l s s', Inv s -> for_each_until body l s = Ok s' -> Inv s'.
Proof.
  intros Hb l. induction l as [|a l IH]; intros s s' Hs H; simpl in H.
  - injection H as <-. exact Hs.
  - specialize (Hb a s Hs).
    destruct (body a s) as [[s1|r]|e]; simpl in Hb; try discriminate.
    + eauto.
    + injection H as <-. exact Hb.
Qed.

Module LineFacts.

Import ReSpec PyFacts.

Lemma int_unsigned s z :
  Forall (fun c => is_digit c = true) (chars s) -> int s = Ok z -> 0 <= z.
Proof.
  intros Hs. unfold int.
  set (l := trim is_cspace (chars s)).
  assert (Hl : Forall (fun c => is_digit c = true) (drop_underscores l))
    by (apply Forall_drop_underscores, Forall_trim, Hs).
  destruct (negb (underscores_ok false l)); [discriminate|].
  destruct (drop_underscores l) as [|c body] eqn:El; [discriminate|].
  assert (Hc : is_digit c = true) by (inversion Hl; assumption).
  assert (Hsign : take_sign (c :: body) = (false, c :: body)).
  { unfold take_sign.
    destruct (Ascii.eqb c "-") eqn:E1;
      [apply Ascii.eqb_eq in E1; subst c; discriminate|].
    destruct (Ascii.eqb c "+") eqn:E2;
      [apply Ascii.eqb_eq in E2; subst c; discriminate|].
    reflexivity. }
  rewrite Hsign. destruct (forallb is_digit (c :: body)); [|discriminate].
  destruct (_ <? _)%nat; [discriminate|].
  intros [= <-]. now apply digits_val_nonneg.
Qed.

Lemma digit_is_digit_or_dot c : is_digit c = true -> digit_or_dot c = true.
Proof. unfold digit_or_dot. now intros ->. Qed.

Lemma chars_replace_empty c s :
  chars (replace c "" s)
  = List.filter (fun a => negb (Ascii.eqb a c)) (chars s).
Proof.
  induction s as [|a s IH]; [reflexivity|].
  cbn [replace]. unfold chars in *. cbn [list_ascii_of_string List.filter].
  destruct (Ascii.eqb a c); cbn [negb]; [exact IH|].
  cbn [list_ascii_of_string]. now rewrite IH.
Qed.

(** A digit, a period or a comma: the amount group of some patterns. *)
Definition digit_dot_comma (c : ascii) : bool :=
  digit_or_dot c || Ascii.eqb c ",".

Lemma float_no_commas_unsigned s x :
  Forall (fun c => digit_dot_comma c = true) (chars s) ->
  float_no_commas s = Ok x -> nonneg_float x.
Proof.
  intros Hs. unfold float_no_commas. apply float_of_str_unsigned.
  rewrite chars_replace_empty.
  induction Hs as [|c l Hc Hl IH]; [constructor|].
  cbn [List.filter]. destruct (Ascii.eqb c ",") eqn:E; cbn [negb]; [exact IH|].
  constructor; [|exact IH].
  unfold digit_dot_comma in Hc. now rewrite E, orb_false_r in Hc.
Qed.

(** What the records of the three one-line scanners have in common: the
    quantity is an integer that is not negative (and not zero when zero
    quantities are left out), the sku is the item number, a non-empty text
    of characters of the class [code], and the two prices are floats that
    are not negative. *)
Definition line_record (include_zero_qty : bool) (code : ascii -> bool)
  (it : LineItem) : Prop :=
  (exists z, quantity it = Int z /\ 0 <= z
             /\ (include_zero_qty = false -> z <> 0))
  /\ sku it = item_number it
  /\ item_number it <> ""
  /\ Forall (fun c => code c = true) (chars (item_number it))
  /\ (exists p, unit_price it = Some p /\ nonneg_float p)
  /\ (exists a, total_amount it = Some a /\ nonneg_float a).

Lemma word_nonempty spec n t :
  word_ok spec n (chars t) -> (1 <= snd (spec n))%nat -> t <> "".
Proof.
  intros [_ Hlen] H1 ->. simpl in Hlen. lia.
Qed.

Lemma line_record_intro include_zero_qty code qty_str item_code
  description qty p a :
  Forall (fun c => is_digit c = true) (chars qty_str) ->
  Forall (fun c => code c = true) (chars item_code) ->
  item_code <> "" ->
  int qty_str = Ok qty ->
  (qty =? 0) && negb include_zero_qty = false ->
  nonneg_float p -> nonneg_float a ->
  line_record include_zero_qty code
    (Item (Int qty) None item_code item_code description (Some p) (Some a)).
Proof.
  intros Wq Wc Hne Hint Hz Hp Ha.
  unfold line_record. cbn [quantity sku item_number unit_price total_amount].
  repeat split; eauto.
  exists qty. split; [reflexivity|]. split.
  - eapply int_unsigned; [exact Wq | exact Hint].
  - intros ->. rewrite andb_true_r in Hz. now apply Z.eqb_neq.
Qed.

End LineFacts.

Module PilotFacts.

Import ReSpec PyFacts LineFacts PilotParser.

Definition pilot_spec : group_spec :=
  fun i => match i with
           | 1%nat | 2%nat => (is_digit, 1%nat)
           | 4%nat | 5%nat => (digit_or_dot, 1%nat)
           | _ => (fun _ => true, 0%nat)
           end.

Lemma pilot_body_keeps include_zero_qty line items items' :
  Forall (line_record include_zero_qty is_digit) items ->
  body include_zero_qty line items = Ok items' ->
  Forall (line_record include_zero_qty is_digit) items'.
Proof.
  intros Hi. unfold body.
  destruct (Re.groups _ _) as [gs|] eqn:Eg; [|intros [= <-]; exact Hi].
  pose proof (ReFacts.groups_sound pilot_spec pattern _ gs
                ltac:(vm_compute; reflexivity) Eg) as G.
  destruct gs as [|[g1|] gs]; try (intros [= <-]; exact Hi).
  destruct gs as [|[g2|] gs]; try (intros [= <-]; exact Hi).
  destruct gs as [|[g3|] gs]; try (intros [= <-]; exact Hi).
  destruct gs as [|[g4|] gs]; try (intros [= <-]; exact Hi).
  destruct gs as [|[g5|] gs]; try (intros [= <-]; exact Hi).
  destruct gs as [|? ?]; try (intros [= <-]; exact Hi).
  intros H. apply catch_Ok in H as [H|H]; [|injection H as <-; exact Hi].
  apply bind_Ok in H as (qty & Hq & H).
  destruct ((qty =? 0) && negb include_zero_qty) eqn:Ez;
    [injection H as <-; exact Hi|].
  apply bind_Ok in H as (p & Hp & H).
  apply bind_Ok in H as (a & Ha & H). injection H as <-.
  apply Forall_app. split; [exact Hi|]. constructor; [|constructor].
  destruct (G 0%nat g1 eq_refl) as [W1 _].
  pose proof (G 1%nat g2 eq_refl) as W2.
  destruct (G 3%nat g4 eq_refl) as [W4 _].
  destruct (G 4%nat g5 eq_refl) as [W5 _].
  apply (line_record_intro _ _ g1); try assumption.
  - apply W2.
  - eapply word_nonempty; [exact W2 | simpl; lia].
  - eapply float_of_str_unsigned; [exact W4 | exact Hp].
  - eapply float_of_str_unsigned; [exact W5 | exact Ha].
Qed.

End PilotFacts.

(** X16.  Every record of the Pilot scanner has an integer quantity that
    is not negative (and not zero when [include_zero_qty] is off), a
    non-empty item number of digits that is also its sku, and a unit price
    and a total that are floats and not negative. *)
Theorem pilot_records (doc : pdf) (include_zero_qty : bool)
  (items : list LineItem) :
  PilotParser.parse doc include_zero_qty = Ok items ->
  Forall (LineFacts.line_record include_zero_qty is_digit) items.
Proof.
  unfold PilotParser.parse.
  apply (over_pages_inv
           (Forall (LineFacts.line_record include_zero_qty is_digit)));
    [|constructor].
  intros lines found found' Hf. unfold PilotParser.scan_page.
  apply (for_each_inv
           (Forall (LineFacts.line_record include_zero_qty is_digit)));
    [|exact Hf].
  intros line s s'. apply PilotFacts.pilot_body_keeps.
Qed.

Lemma pilot_records_witness :
  exists items,
    PilotParser.parse pilot_two_lines false = Ok items
    /\ List.length items = 1%nat
    /\ Forall (LineFacts.line_record false is_digit) items.
Proof.
  eexists. split; [vm_compute; reflexivity|]. split; [reflexivity|].
  apply (pilot_records pilot_two_lines false).
  vm_compute. reflexivity.
Defined.

Module UntilFacts.

Section Until.

Context {A S : Type}.
Variable body : A -> S -> outcome (step S S).
Variable started : S -> Prop.
Variables header stop : A.
Hypothesis Hheader : forall s,
  turn started (fun _ => False) (body header s)
  /\ exists s', body header s = Ok (Continue s').
Hypothesis Hstop : forall s, started s -> body stop s = Ok (Break s).
Hypothesis Hkeep : forall a s,
  started s -> turn started (fun _ => True) (body a s).

Lemma after_stop l1 l2 : forall s,
  started s ->
  for_each_until body (l1 ++ stop :: l2) s
  = for_each_until body (l1 ++ [stop]) s.
Proof.
  induction l1 as [|a l1 IH]; intros s Hs; simpl.
  - now rewrite (Hstop s Hs).
  - pose proof (Hkeep a s Hs) as K.
    destruct (body a s) as [[s'|r]|e]; simpl in K; auto.
Qed.

Lemma after_header_and_stop l0 l1 l2 : forall s,
  for_each_until body (l0 ++ header :: l1 ++ stop :: l2) s
  = for_each_until body (l0 ++ header :: l1 ++ [stop]) s.
Proof.
  induction l0 as [|a l0 IH]; intros s; simpl.
  - destruct (Hheader s) as [K [s' E]]. rewrite E in *. simpl in K.
    now apply after_stop.
  - destruct (body a s) as [[s'|r]|e]; auto.
Qed.

End Until.

End UntilFacts.

Module TWSBIFacts.

Import ReSpec PyFacts LineFacts TWSBIParser.

Definition twsbi_code (c : ascii) : bool := is_upper c || is_digit c.

Definition twsbi_spec : group_spec :=
  fun i => match i with
           | 1%nat => (twsbi_code, 1%nat)
           | 3%nat => (is_digit, 1%nat)
           | 4%nat | 5%nat => (digit_or_dot, 1%nat)
           | _ => (fun _ => true, 0%nat)
           end.

Lemma twsbi_body_turn include_zero_qty line (P : LineItem -> Prop) s :
  (forall it, line_record include_zero_qty twsbi_code it -> P it) ->
  Forall P (snd s) ->
  turn (fun s' => (fst s = true -> fst s' = true) /\ Forall P (snd s'))
       (fun r => Forall P (snd r))
       (body include_zero_qty line s).
Proof.
  intros HP Hs. unfold body. destruct s as [in_items items]. cbn [fst snd] in *.
  destruct (_ && _ && _); [simpl; auto|].
  destruct in_items; [|simpl; auto].
  destruct (_ || _); [exact Hs|].
  assert (Hskip : turn
            (fun s' : bool * list LineItem =>
               (true = true -> fst s' = true) /\ Forall P (snd s'))
            (fun r : bool * list LineItem => Forall P (snd r))
            (Ok (Continue (true, items)))) by (simpl; auto).
  destruct (Re.groups _ _) as [gs|] eqn:Eg; [|exact Hskip].
  pose proof (ReFacts.groups_sound twsbi_spec pattern _ gs
                ltac:(vm_compute; reflexivity) Eg) as G.
  destruct gs as [|[g1|] gs]; try exact Hskip.
  destruct gs as [|[g2|] gs]; try exact Hskip.
  destruct gs as [|[g3|] gs]; try exact Hskip.
  destruct gs as [|[g4|] gs]; try exact Hskip.
  destruct gs as [|[g5|] gs]; try exact Hskip.
  destruct gs as [|? ?]; try exact Hskip.
  apply turn_catch; [|exact Hskip].
  apply turn_bind. intros qty Hq.
  destruct ((qty =? 0) && negb include_zero_qty) eqn:Ez; [exact Hskip|].
  apply turn_bind. intros p Hp.
  apply turn_bind. intros a Ha. simpl. split; [auto|].
  apply Forall_app. split; [exact Hs|]. constructor; [|constructor].
  pose proof (G 0%nat g1 eq_refl) as W1.
  destruct (G 2%nat g3 eq_refl) as [W3 _].
  destruct (G 3%nat g4 eq_refl) as [W4 _].
  destruct (G 4%nat g5 eq_refl) as [W5 _].
  apply HP. apply (line_record_intro _ _ g3); try assumption.
  - apply W1.
  - eapply word_nonempty; [exact W1 | simpl; lia].
  - eapply float_of_str_unsigned; [exact W4 | exact Hp].
  - eapply float_of_str_unsigned; [exact W5 | exact Ha].
Qed.

End TWSBIFacts.

(** X17.  Every record of the TWSBI scanner has an integer quantity that
    is not negative (and not zero when [include_zero_qty] is off), a
    non-empty item number of capital letters and digits that is also its
    sku, and a unit price and a total that are not negative. *)
Theorem twsbi_records (doc : pdf) (include_zero_qty : bool)
  (items : list LineItem) :
  TWSBIParser.parse doc include_zero_qty = Ok items ->
  Forall (LineFacts.line_record include_zero_qty
            (fun c => is_upper c || is_digit c)) items.
Proof.
  unfold TWSBIParser.parse.
  apply (over_pages_inv
           (Forall (LineFacts.line_record include_zero_qty TWSBIFacts.twsbi_code)));
    [|constructor].
  intros lines found found' Hf. unfold TWSBIParser.scan_page. intros H.
  apply bind_Ok in H as (s & H & E). injection E as <-. revert H.
  apply (for_each_until_turns
           (fun s => Forall (LineFacts.line_record include_zero_qty
                               TWSBIFacts.twsbi_code) (snd s)));
    [|exact Hf].
  intros line s0 Hs0.
  pose proof (TWSBIFacts.twsbi_body_turn include_zero_qty line _ s0
                (fun it H => H) Hs0) as K.
  destruct (TWSBIParser.body include_zero_qty line s0) as [[s1|r]|e];
    simpl in *; tauto.
Qed.

Lemma twsbi_records_witness :
  exists items,
    TWSBIParser.parse [Samples.text_page twsbi_lines] false = Ok items
    /\ List.length items = 1%nat
    /\ Forall (LineFacts.line_record false (fun c => is_upper c || is_digit c)) items.
Proof.
  eexists. split; [vm_compute; reflexivity|]. split; [reflexivity|].
  apply (twsbi_records [Samples.text_page twsbi_lines] false).
  vm_compute. reflexivity.
Defined.

(** X18.  Once the header line of a TWSBI page has been seen, a line
    with SUBTOTAL or BALANCE that is not itself a header line (it does not
    have SKU, ACTIVITY and QTY all three) ends the page: the lines after it
    change nothing.  The header test comes first in the loop, so a line
    that passes it does not end the page. *)
Theorem twsbi_stops_at_subtotal (include_zero_qty : bool)
  (before between after : list string) (header stop : string)
  (found : list LineItem) :
  contains "SKU" header && contains "ACTIVITY" header
    && contains "QTY" header = true ->
  contains "SKU" stop && contains "ACTIVITY" stop
    && contains "QTY" stop = false ->
  contains "SUBTOTAL" stop || contains "BALANCE" stop = true ->
  TWSBIParser.scan_page include_zero_qty
    (before ++ header :: between ++ stop :: after) found
  = TWSBIParser.scan_page include_zero_qty
      (before ++ header :: between ++ [stop]) found.
Proof.
  intros Hh Hs1 Hs2. unfold TWSBIParser.scan_page.
  rewrite (UntilFacts.after_header_and_stop
             (TWSBIParser.body include_zero_qty)
             (fun s => fst s = true) header stop); [reflexivity| | |].
  - intros [b its]. unfold TWSBIParser.body. rewrite Hh. simpl. eauto.
  - intros [b its] Hb. cbn [fst] in Hb. subst b.
    unfold TWSBIParser.body. now rewrite Hs1, Hs2.
  - intros a s Hb.
    pose proof (TWSBIFacts.twsbi_body_turn include_zero_qty a (fun _ => True) s
                  (fun _ _ => I)
                  (proj2 (Forall_forall _ _) (fun _ _ => I))) as K.
    destruct (TWSBIParser.body include_zero_qty a s) as [[s1|r]|e];
      simpl in *; tauto.
Qed.

Lemma twsbi_stops_at_subtotal_witness :
  TWSBIParser.scan_page true twsbi_lines []
  = TWSBIParser.scan_page true (take 4 twsbi_lines) [].
Proof.
  apply (twsbi_stops_at_subtotal true ["TWSBI INC"]
           ["M7443140 Diamond 580 1 34.00 34.00T"]
           ["M7443141 Diamond 580 1 34.00 34.00T"]
           "SKU ACTIVITY QTY RATE AMOUNT" "SUBTOTAL 34.00" []);
    vm_compute; reflexivity.
Defined.

Module Retro51Facts.

Import ReSpec PyFacts LineFacts Retro51Parser.

Definition retro51_code (c : ascii) : bool :=
  is_upper c || is_digit c || Ascii.eqb c "-".

Definition retro51_spec : group_spec :=
  fun i => match i with
           | 1%nat => (retro51_code, 1%nat)
           | 3%nat => (is_digit, 1%nat)
           | 4%nat => (digit_or_dot, 1%nat)
           | 5%nat => (digit_dot_comma, 1%nat)
           | _ => (fun _ => true, 0%nat)
           end.

Lemma retro51_body_turn include_zero_qty line (P : LineItem -> Prop) s :
  (forall it, line_record include_zero_qty retro51_code it -> P it) ->
  Forall P (snd s) ->
  turn (fun s' => (fst s = true -> fst s' = true) /\ Forall P (snd s'))
       (fun r => Forall P (snd r))
       (body include_zero_qty line s).
Proof.
  intros HP Hs. unfold body. destruct s as [in_items items]. cbn [fst snd] in *.
  destruct (_ && _ && _); [simpl; auto|].
  destruct in_items; [|simpl; auto].
  destruct (_ || _); [exact Hs|].
  assert (Hskip : turn
            (fun s' : bool * list LineItem =>
               (true = true -> fst s' = true) /\ Forall P (snd s'))
            (fun r : bool * list LineItem => Forall P (snd r))
            (Ok (Continue (true, items)))) by (simpl; auto).
  destruct (Re.groups _ _) as [gs|] eqn:Eg; [|exact Hskip].
  pose proof (ReFacts.groups_sound retro51_spec pattern _ gs
                ltac:(vm_compute; reflexivity) Eg) as G.
  destruct gs as [|[g1|] gs]; try exact Hskip.
  destruct gs as [|[g2|] gs]; try exact Hskip.
  destruct gs as [|[g3|] gs]; try exact Hskip.
  destruct gs as [|[g4|] gs]; try exact Hskip.
  destruct gs as [|[g5|] gs]; try exact Hskip.
  destruct gs as [|? ?]; try exact Hskip.
  apply turn_catch; [|exact Hskip].
  apply turn_bind. intros qty Hq.
  destruct ((qty =? 0) && negb include_zero_qty) eqn:Ez; [exact Hskip|].
  apply turn_bind. intros p Hp.
  apply turn_bind. intros a Ha. simpl. split; [auto|].
  apply Forall_app. split; [exact Hs|]. constructor; [|constructor].
  pose proof (G 0%nat g1 eq_refl) as W1.
  destruct (G 2%nat g3 eq_refl) as [W3 _].
  destruct (G 3%nat g4 eq_refl) as [W4 _].
  destruct (G 4%nat g5 eq_refl) as [W5 _].
  apply HP. apply (line_record_intro _ _ g3); try assumption.
  - apply W1.
  - eapply word_nonempty; [exact W1 | simpl; lia].
  - eapply float_of_str_unsigned; [exact W4 | exact Hp].
  - eapply float_no_commas_unsigned; [exact W5 | exact Ha].
Qed.

End Retro51Facts.

(** X19.  Every record of the Retro 51 scanner has an integer quantity
    that is not negative (and not zero when [include_zero_qty] is off), a
    non-empty item number of capital letters, digits and hyphens that is
    also its sku, and a unit price and a total that are not negative. *)
Theorem retro51_records (doc : pdf) (include_zero_qty : bool)
  (items : list LineItem) :
  Retro51Parser.parse doc include_zero_qty = Ok items ->
  Forall (LineFacts.line_record include_zero_qty
            (fun c => is_upper c || is_digit c || Ascii.eqb c "-")) items.
Proof.
  unfold Retro51Parser.parse.
  apply (over_pages_inv
           (Forall (LineFacts.line_record include_zero_qty Retro51Facts.retro51_code)));
    [|constructor].
  intros lines found found' Hf. unfold Retro51Parser.scan_page. intros H.
  apply bind_Ok in H as (s & H & E). injection E as <-. revert H.
  apply (for_each_until_turns
           (fun s => Forall (LineFacts.line_record include_zero_qty
                               Retro51Facts.retro51_code) (snd s)));
    [|exact Hf].
  intros line s0 Hs0.
  pose proof (Retro51Facts.retro51_body_turn include_zero_qty line _ s0
                (fun it H => H) Hs0) as K.
  destruct (Retro51Parser.body include_zero_qty line s0) as [[s1|r]|e];
    simpl in *; tauto.
Qed.

Lemma retro51_records_witness :
  exists items,
    Retro51Parser.parse [Samples.text_page retro51_lines] false = Ok items
    /\ List.length items = 1%nat
    /\ Forall (LineFacts.line_record false
                (fun c => is_upper c || is_digit c || Ascii.eqb c "-")) items.
Proof.
  eexists. split; [vm_compute; reflexivity|]. split; [reflexivity|].
  apply (retro51_records [Samples.text_page retro51_lines] false).
  vm_compute. reflexivity.
Defined.

(** X20.  Once the header line of a Retro 51 page has been seen, a line
    with SUBTOTAL or SUB TOTAL that is not itself a header line (it does
    not have ITEM, DESCRIPTION and QTY all three) ends the page: the lines
    after it change nothing.  The header test comes first in the loop, so
    a line that passes it does not end the page. *)
Theorem retro51_stops_at_subtotal (include_zero_qty : bool)
  (before between after : list string) (header stop : string)
  (found : list LineItem) :
  contains "ITEM" header && contains "DESCRIPTION" header
    && contains "QTY" header = true ->
  contains "ITEM" stop && contains "DESCRIPTION" stop
    && contains "QTY" stop = false ->
  contains "SUBTOTAL" stop || contains "SUB TOTAL" stop = true ->
  Retro51Parser.scan_page include_zero_qty
    (before ++ header :: between ++ stop :: after) found
  = Retro51Parser.scan_page include_zero_qty
      (before ++ header :: between ++ [stop]) found.
Proof.
  intros Hh Hs1 Hs2. unfold Retro51Parser.scan_page.
  rewrite (UntilFacts.after_header_and_stop
             (Retro51Parser.body include_zero_qty)
             (fun s => fst s = true) header stop); [reflexivity| | |].
  - intros [b its]. unfold Retro51Parser.body. rewrite Hh. simpl. eauto.
  - intros [b its] Hb. cbn [fst] in Hb. subst b.
    unfold Retro51Parser.body. now rewrite Hs1, Hs2.
  - intros a s Hb.
    pose proof (Retro51Facts.retro51_body_turn include_zero_qty a (fun _ => True) s
                  (fun _ _ => I)
                  (proj2 (Forall_forall _ _) (fun _ _ => I))) as K.
    destruct (Retro51Parser.body include_zero_qty a s) as [[s1|r]|e];
      simpl in *; tauto.
Qed.

Lemma retro51_stops_at_subtotal_witness :
  Retro51Parser.scan_page true retro51_lines []
  = Retro51Parser.scan_page true (take 4 retro51_lines) [].
Proof.
  apply (retro51_stops_at_subtotal true ["Retro 1951"]
           ["PARR-2508K PAN AM TORNADO 3 37.00 1,111.00T"]
           ["PARR-2509K PAN AM TORNADO 3 37.00 111.00T"]
           "ITEM DESCRIPTION QTY RATE AMOUNT" "SUBTOTAL 1,111.00" []);
    vm_compute; reflexivity.
Defined.

(** ** A price that is not a number *)

Lemma for_each_app {A S : Type} (body : A -> S -> outcome S) l1 l2 s :
  for_each body (l1 ++ l2) s = (s' ← for_each body l1 s; for_each body l2 s').
Proof.
  revert s. induction l1 as [|a l1 IH]; intros s; simpl; [reflexivity|].
  destruct (body a s) as [s1|e]; simpl; [apply IH | reflexivity].
Qed.

Lemma Decimal_raises s e : Decimal s = Raise e -> e = InvalidOperation.
Proof.
  unfold Decimal. intros H. repeat case_match; congruence.
Qed.

(** X21.  On the first page of an Exaclair invoice, an item line reached
    while the scanner is within the item lines, whose shipped quantity
    passes the gate and whose price or discount field is not a decimal
    number (two periods, say), makes [extract_line_items] raise
    [InvalidOperation]: the scanner catches [ValueError] only, and the
    table parser is not tried. *)
Theorem exaclair_malformed_price_aborts
  (other_parse : parser_class -> parse_method)
  (INCLUDE_ZERO_QUANTITY : bool) (text : string) (tables : list table)
  (pages : pdf) (before rest : list string) (line : string)
  (items : list LineItem)
  (ordered shipped backordered item_num description price disc total : string)
  (qty : Z) :
  detect_vendor text = "exaclair" ->
  lines_of text = (before ++ line :: rest)%list ->
  for_each (ExaclairParser.body INCLUDE_ZERO_QUANTITY) before (false, [])
  = Ok (true, items) ->
  contains "Item Number Description" line
    || contains "Ordered Shipped B. Order" line = false ->
  contains "Subtotal" line || contains "INVOICE Page" line
    || contains "Comments:" line = false ->
  Re.groups ExaclairParser.pattern (strip line)
  = Some [Some ordered; Some shipped; Some backordered; Some item_num;
          Some description; Some price; Some disc; Some total] ->
  int shipped = Ok qty ->
  (qty =? 0) && negb INCLUDE_ZERO_QUANTITY = false ->
  Decimal (replace "," "" price) = Raise InvalidOperation
  \/ Decimal (replace "," "" disc) = Raise InvalidOperation ->
  extract_line_items other_parse INCLUDE_ZERO_QUANTITY
    (Page (Some text) tables :: pages)
  = Raise InvalidOperation.
Proof.
  intros Hv Hl Hb Hn1 Hn2 Hg Hq Hz Hd.
  assert (Ht : truthy text = true).
  { destruct text; [discriminate Hv | reflexivity]. }
  assert (Hline : ExaclairParser.body INCLUDE_ZERO_QUANTITY line (true, items)
                  = Raise InvalidOperation).
  { unfold ExaclairParser.body. rewrite Hn1, Hn2. cbn [andb].
    destruct (truthy (strip line)) eqn:Es.
    - rewrite Hg. unfold catch, mbind, outcome_bind, bind.
      rewrite Hq, Hz.
      destruct (Decimal (replace "," "" price)) as [retail|e] eqn:Ep.
      + destruct Hd as [Hd|Hd]; [discriminate Hd|]. rewrite Hd. reflexivity.
      + rewrite (Decimal_raises _ _ Ep). reflexivity.
    - unfold truthy in Es. apply negb_false_iff, String.eqb_eq in Es.
      rewrite Es in Hg.
      assert (Hnone : Re.groups ExaclairParser.pattern "" = None)
        by (vm_compute; reflexivity).
      rewrite Hnone in Hg. discriminate Hg. }
  assert (Hscan : ExaclairParser.scan_page INCLUDE_ZERO_QUANTITY
                    (lines_of text) [] = Raise InvalidOperation).
  { unfold ExaclairParser.scan_page. rewrite Hl, for_each_app, Hb.
    cbn [mbind outcome_bind bind for_each]. rewrite Hline. reflexivity. }
  unfold extract_line_items, parse_with_custom_parser.
  cbn [extract_text]. change (default "" (Some text)) with text. rewrite Hv.
  replace (CUSTOM_PARSERS !! "exaclair") with (Some ExaclairParser_)
    by (vm_compute; reflexivity).
  cbn [truthy String.eqb negb parse_of]. cbv beta iota.
  unfold ExaclairParser.parse. cbn [over_pages extract_text].
  rewrite Ht, Hscan. reflexivity.
Qed.

Lemma exaclair_malformed_price_aborts_witness :
  extract_line_items (fun _ _ _ => Ok []) true exaclair_malformed_price
  = Raise InvalidOperation.
Proof.
  eapply (exaclair_malformed_price_aborts (fun _ _ _ => Ok []) true _ []
            []
            ["EXACLAIR, INC."; "Item Number Description";
             "10 10 0 68145C CLASSIC NBK WB R/MAR 50S 8X11 10.45 50.00 52.25"]
            []
            "10 10 0 68146C CLASSIC NBK WB 1.2.3 50.00 52.25"
            _
            "10" "10" "0" "68146C" "CLASSIC NBK WB" "1.2.3" "50.00" "52.25"
            10);
    try (vm_compute; reflexivity).
  left. vm_compute. reflexivity.
Defined.

(** ** The JPT scanner *)

(** The lines of the pages of a document. *)
Definition document_lines (doc : pdf) : list string :=
  concat (List.map (fun p => match extract_text p with
                             | Some text => lines_of text
                             | None => []
                             end) doc).

Module JPTFacts.

Import JPTParser.

(** What [_parse_line] makes of the words of a line. *)
Definition read_as (line : string) (it : LineItem) : Prop :=
  exists first rest,
    split_ws line = first :: rest
    /\ ((exists n, isdigit first = true /\ int first = Ok n /\ 0 < n < 1000
                   /\ quantity it = Int n
                   /\ head rest = Some (item_number it))
        \/ ((isdigit first = false
             \/ exists n, int first = Ok n /\ ~ 0 < n < 1000)
            /\ quantity it = Int 0 /\ item_number it = first))
    /\ (exists p, unit_price it = Some p)
    /\ (exists a, total_amount it = Some a).

Lemma item_lookup parts i p :
  0 <= i -> item parts i = Ok p -> parts !! Z.to_nat i = Some p.
Proof.
  intros Hi. unfold item. replace (i <? 0) with false by lia.
  destruct (_ || _); [discriminate|].
  destruct (parts !! Z.to_nat i); [congruence | discriminate].
Qed.

Lemma _parse_line_read_as line it :
  _parse_line line = Ok (Some it) -> read_as line it.
Proof.
  unfold _parse_line, read_as. intros H.
  destruct (_ <? _)%nat; [discriminate|].
  apply catch_Ok in H as [H|H]; [|discriminate].
  apply bind_Ok in H as (amount_str & _ & H).
  apply bind_Ok in H as (price_str & _ & H).
  apply bind_Ok in H as (bo_str & _ & H).
  apply bind_Ok in H as (amount & _ & H).
  apply bind_Ok in H as (price & _ & H).
  apply bind_Ok in H as ([bo_qty parts] & Hparts & H).
  assert (Hsub : forall i p, parts !! i = Some p -> split_ws line !! i = Some p).
  { destruct (int bo_str) as [b|[]]; try discriminate Hparts;
      injection Hparts as _ <-; [auto|].
    intros i p Hi. now apply lookup_take_Some in Hi as [Hi _]. }
  apply bind_Ok in H as (first & Hfirst & H).
  apply (item_lookup _ 0) in Hfirst; [|lia]. apply Hsub in Hfirst.
  destruct (split_ws line) as [|first' rest] eqn:Ew; [discriminate Hfirst|].
  injection Hfirst as ->. exists first, rest. split; [reflexivity|].
  apply bind_Ok in H as (first_val & Hval & H).
  apply bind_Ok in H
    as ([[[shipped_qty item_id] sku] desc_start_idx] & Hq & H).
  apply Ok_Some_inj in H. subst it.
  cbn [quantity unit_price total_amount item_number].
  split; [|eauto].
  destruct ((0 <? first_val) && (first_val <? 1000)) eqn:E.
  - apply bind_Ok in Hq as (a & Ha & Hq).
    apply bind_Ok in Hq as (b & _ & Hq).
    apply bind_Ok in Hq as (c & _ & Hq).
    injection Hq as <- <- _ _.
    apply andb_prop in E as [E1 E2].
    apply Z.ltb_lt in E1. apply Z.ltb_lt in E2.
    apply (item_lookup _ 1) in Ha; [|lia]. apply Hsub in Ha.
    left. exists first_val.
    destruct (isdigit first); [|injection Hval as <-; lia].
    repeat split; try assumption; try lia.
    destruct rest; [discriminate Ha | exact Ha].
  - apply bind_Ok in Hq as (a & Ha & Hq).
    apply bind_Ok in Hq as (b & _ & Hq).
    apply bind_Ok in Hq as (c & _ & Hq).
    injection Hq as <- <- _ _.
    apply (item_lookup _ 0) in Ha; [|lia]. apply Hsub in Ha.
    injection Ha as <-.
    right. split; [|split; reflexivity].
    destruct (isdigit first); [right | now left].
    exists first_val. split; [exact Hval|].
    apply andb_false_iff in E as [E|E];
      [apply Z.ltb_ge in E | apply Z.ltb_ge in E]; lia.
Qed.

(** A record the scanner takes from a line. *)
Definition taken_from (include_zero_qty : bool) (line : string)
  (it : LineItem) : Prop :=
  read_as (strip line) it
  /\ (include_zero_qty = false -> quantity it <> Int 0).

Lemma jpt_body_adds include_zero_qty line s :
  exists s',
    body include_zero_qty line s = Ok s'
    /\ (snd s' = snd s
        \/ exists it, snd s' = (snd s ++ [it])%list
                      /\ taken_from include_zero_qty line it).
Proof.
  unfold body. destruct s as [in_items items]. cbn [snd].
  destruct (_ && _); [eauto|].
  destruct (in_items && (_ || _ || _ || _)); [eauto|].
  destruct (in_items && _ && _); [|eauto].
  destruct (_parse_line (strip line)) as [[it|]|e] eqn:E; [|eauto|eauto].
  apply _parse_line_read_as in E.
  assert (Hadd : (include_zero_qty = false -> quantity it <> Int 0) ->
            exists s',
              Ok (in_items, (items ++ [it])%list) = Ok s'
              /\ (snd s' = items
                  \/ exists it0, snd s' = (items ++ [it0])%list
                                 /\ taken_from include_zero_qty line it0)).
  { intros Hz. eexists. split; [reflexivity|]. right. exists it.
    split; [reflexivity|]. split; assumption. }
  destruct (quantity it) as [[|z|z]|x] eqn:Eq.
  - destruct include_zero_qty; cbn [negb]; [|eauto].
    apply Hadd. discriminate.
  - apply Hadd. discriminate.
  - apply Hadd. discriminate.
  - apply Hadd. discriminate.
Qed.

Lemma jpt_scan_page_adds include_zero_qty (P : LineItem -> Prop) lines :
  (forall line it, In line lines -> taken_from include_zero_qty line it ->
                   P it) ->
  forall found, Forall P found ->
  exists items, scan_page include_zero_qty lines found = Ok items
                /\ Forall P items.
Proof.
  intros HP found Hf. unfold scan_page.
  assert (G : forall s, Forall P (snd s) ->
            exists s', for_each (body include_zero_qty) lines s = Ok s'
                       /\ Forall P (snd s')).
  { induction lines as [|line lines IH]; intros s Hs; cbn [for_each];
      [eauto|].
    destruct (jpt_body_adds include_zero_qty line s) as (s1 & -> & H1).
    cbn [mbind outcome_bind bind]. apply IH.
    - intros l it Hl. apply HP. now right.
    - destruct H1 as [-> | (it & -> & Hit)]; [exact Hs|].
      apply Forall_app. split; [exact Hs|]. constructor; [|constructor].
      apply (HP line); [now left | exact Hit]. }
  destruct (G (false, found) Hf) as (s' & -> & Hs'). cbn. eauto.
Qed.

End JPTFacts.

(** X22.  [JPTParser.parse] never raises.  Every record it returns is read
    from the words of a line of the document, without the white space
    around the line: when the first word is a number from 1 to 999, that is
    the quantity and the second word is the item number; otherwise (not a
    number, or 0, or 1000 and more) the quantity is 0, kept only when
    [include_zero_qty] is on, and the first word is the item number.  The
    record has a unit price and a total. *)
Theorem jpt_parse_total (doc : pdf) (include_zero_qty : bool) :
  exists items,
    JPTParser.parse doc include_zero_qty = Ok items
    /\ Forall (fun it =>
         exists line first rest,
           In line (document_lines doc)
           /\ split_ws (strip line) = first :: rest
           /\ ((exists n, isdigit first = true /\ int first = Ok n
                          /\ 0 < n < 1000 /\ quantity it = Int n
                          /\ head rest = Some (item_number it))
               \/ ((isdigit first = false
                    \/ exists n, int first = Ok n /\ ~ 0 < n < 1000)
                   /\ quantity it = Int 0 /\ include_zero_qty = true
                   /\ item_number it = first))
           /\ (exists p, unit_price it = Some p)
           /\ (exists a, total_amount it = Some a)) items.
Proof.
  unfold JPTParser.parse.
  set (P := fun it : LineItem => _).
  assert (HP : forall line it,
            In line (document_lines doc) ->
            JPTFacts.taken_from include_zero_qty line it -> P it).
  { intros line it Hl [(first & rest & Hw & Hq & Hp & Ha) Hz].
    exists line, first, rest. repeat split; try assumption.
    destruct Hq as [Hq | (Hf & Hq & Hi)]; [now left | right].
    repeat split; try assumption.
    destruct include_zero_qty; [reflexivity|]. now destruct Hz. }
  clearbody P.
  assert (G : forall pages found,
            (forall line, In line (document_lines pages) ->
                          In line (document_lines doc)) ->
            Forall P found ->
            exists items,
              over_pages (JPTParser.scan_page include_zero_qty) pages found
              = Ok items
              /\ Forall P items).
  { induction pages as [|p pages IH]; intros found Hsub Hf;
      cbn [over_pages]; [eauto|].
    assert (Hsub' : forall line, In line (document_lines pages) ->
                                 In line (document_lines doc)).
    { intros line Hl. apply Hsub. unfold document_lines. cbn [List.map concat].
      apply in_or_app. now right. }
    destruct (extract_text p) as [text|] eqn:Et; [|auto].
    destruct (truthy text); [|auto].
    destruct (JPTFacts.jpt_scan_page_adds include_zero_qty P (lines_of text))
      with (found := found) as (its & -> & Hits); [|exact Hf|].
    - intros line it Hl. apply HP, Hsub. unfold document_lines.
      cbn [List.map concat]. rewrite Et. apply in_or_app. now left.
    - cbn [mbind outcome_bind bind]. auto. }
  apply (G doc []); [auto | constructor].
Qed.

(** Two lines of a JPT page: one with a shipped quantity first, one with
    an item number of four digits first. *)
Example jpt_first_word_sample :
  (items ← JPTParser.parse
             [text_page
                ["Ship Item# UPC SKU P65 Description B/O Price Amount";
                 "5 ITEM UPC SKU Y some desc 3 1.00 2.00";
                 "1000 UPC SKU Y some desc 3 1.00 2.00"]] true;
   Ok (List.map (fun it => (quantity it, item_number it)) items))
  = Ok [(Int 5, "ITEM"); (Int 0, "1000")].
Proof. vm_compute. reflexivity. Qed.

(** ** Chartpak: shipped items and backorders *)

Module BackorderFacts.

Import ChartpakBackorders.

Definition shipped (b : BackorderItem) : Prop :=
  exists z, quantity (line_item b) = Int z /\ 0 < z
            /\ backorder_quantity b = None.

Definition on_backorder (b : BackorderItem) : Prop :=
  exists q, backorder_quantity b = Some q
            /\ (0 < q \/ (quantity (line_item b) = Int 0
                          /\ total_amount (line_item b)
                             = Some (float_of_Z 0))).

Definition split_ok (s : state) : Prop :=
  Forall shipped (snd (fst s)) /\ Forall on_backorder (snd s).

Lemma backorders_body_keeps line s s' :
  split_ok s -> body line s = Ok s' -> split_ok s'.
Proof.
  destruct s as [[in_items regular] backorders]. intros [Hr Hb].
  cbn [fst snd] in Hr, Hb. unfold body.
  assert (Hsame : forall b, split_ok (b, regular, backorders))
    by (intros b; split; assumption).
  destruct (_ && _ && _); [intros [= <-]; apply Hsame|].
  destruct (_ || _); [intros [= <-]; apply Hsame|].
  destruct (in_items && _); [|intros [= <-]; apply Hsame].
  destruct (Re.groups ChartpakParser.format1_re _) as [g1|];
    [|destruct (Re.groups ChartpakParser.format2_re _) as [g2|]].
  - destruct g1 as [|[a1|] g1]; try (intros [= <-]; apply Hsame).
    destruct g1 as [|a2 g1]; try (intros [= <-]; apply Hsame).
    destruct g1 as [|[a3|] g1]; try (intros [= <-]; apply Hsame).
    destruct g1 as [|[a4|] g1]; try (intros [= <-]; apply Hsame).
    destruct g1 as [|[a5|] g1]; try (intros [= <-]; apply Hsame).
    destruct g1 as [|[a6|] g1]; try (intros [= <-]; apply Hsame).
    destruct g1 as [|[a7|] g1]; try (intros [= <-]; apply Hsame).
    destruct g1 as [|[a8|] g1]; try (intros [= <-]; apply Hsame).
    destruct g1 as [|? ?]; try (intros [= <-]; apply Hsame).
    intros H. apply bind_Ok in H as (shipped_qty & _ & H).
    apply bind_Ok in H as (backorder_qty & _ & H).
    apply catch_Ok in H as [H|H]; [|injection H as <-; apply Hsame].
    apply bind_Ok in H as (unit_price & _ & H).
    apply bind_Ok in H as (total & _ & H).
    apply bind_Ok in H as (retail & _ & H). injection H as <-.
    split; cbn [fst snd].
    + destruct (0 <? shipped_qty) eqn:E; [|exact Hr].
      apply Forall_app. split; [exact Hr|]. constructor; [|constructor].
      exists shipped_qty. repeat split. now apply Z.ltb_lt.
    + destruct (0 <? backorder_qty) eqn:E; [|exact Hb].
      apply Forall_app. split; [exact Hb|]. constructor; [|constructor].
      exists backorder_qty. split; [reflexivity|]. left. now apply Z.ltb_lt.
  - destruct g2 as [|[a1|] g2]; try (intros [= <-]; apply Hsame).
    destruct g2 as [|[a2|] g2]; try (intros [= <-]; apply Hsame).
    destruct g2 as [|[a3|] g2]; try (intros [= <-]; apply Hsame).
    destruct g2 as [|[a4|] g2]; try (intros [= <-]; apply Hsame).
    destruct g2 as [|[a5|] g2]; try (intros [= <-]; apply Hsame).
    destruct g2 as [|[a6|] g2]; try (intros [= <-]; apply Hsame).
    destruct g2 as [|[a7|] g2]; try (intros [= <-]; apply Hsame).
    destruct g2 as [|? ?]; try (intros [= <-]; apply Hsame).
    intros H. apply bind_Ok in H as (backorder_qty & _ & H).
    apply catch_Ok in H as [H|H]; [|injection H as <-; apply Hsame].
    apply bind_Ok in H as (unit_price & _ & H).
    apply bind_Ok in H as (retail & _ & H). injection H as <-.
    split; cbn [fst snd]; [exact Hr|].
    apply Forall_app. split; [exact Hb|]. constructor; [|constructor].
    exists backorder_qty. split; [reflexivity|]. right. split; reflexivity.
  - intros [= <-]. apply Hsame.
Qed.

End BackorderFacts.

(** X23.  In the result of Chartpak's [parse_with_backorders], every
    regular item has a positive quantity and no backorder quantity; every
    backorder item has a backorder quantity, which is positive unless the
    item comes from a backorder-only line (quantity 0, total 0.0). *)
Theorem chartpak_backorders_split (doc : pdf)
  (regular_items backorder_items : list BackorderItem) :
  ChartpakBackorders.parse_with_backorders doc
  = Ok (regular_items, backorder_items) ->
  Forall (fun b => exists z, quantity (line_item b) = Int z /\ 0 < z
                             /\ backorder_quantity b = None) regular_items
  /\ Forall (fun b => exists q,
               backorder_quantity b = Some q
               /\ (0 < q \/ (quantity (line_item b) = Int 0
                             /\ total_amount (line_item b)
                                = Some (float_of_Z 0))))
       backorder_items.
Proof.
  unfold ChartpakBackorders.parse_with_backorders.
  assert (G : forall found found',
            Forall BackorderFacts.shipped (fst found)
            /\ Forall BackorderFacts.on_backorder (snd found) ->
            ChartpakBackorders.over_pages doc found = Ok found' ->
            Forall BackorderFacts.shipped (fst found')
            /\ Forall BackorderFacts.on_backorder (snd found')).
  { induction doc as [|p doc IH]; intros found found' Hf H; simpl in H.
    - now injection H as <-.
    - destruct (extract_text p) as [text|]; [|eauto].
      destruct (truthy text); [|eauto].
      apply bind_Ok in H as (s & Hs & H).
      eapply IH; [|exact H]. cbn [fst snd].
      apply (for_each_inv BackorderFacts.split_ok ChartpakBackorders.body
               BackorderFacts.backorders_body_keeps _
               (false, fst found, snd found) s Hf Hs). }
  intros H. apply (G ([], []) _ (conj (Forall_nil_2 _) (Forall_nil_2 _)) H).
Qed.

Module BackorderSim.

Import ChartpakBackorders.

(** The two loops in step: the same flag, and every shipped record of the
    one among the items of the other. *)
Definition in_step (sp : bool * list LineItem) (sb : state) : Prop :=
  fst sp = fst (fst sb)
  /\ forall b, In b (snd (fst sb)) -> In (line_item b) (snd sp).

Lemma in_step_grow b items items' regular backorders backorders' :
  in_step (b, items) (b, regular, backorders) ->
  (forall it, In it items -> In it items') ->
  in_step (b, items') (b, regular, backorders').
Proof.
  intros [_ H] Hsub. split; [reflexivity|]. cbn [fst snd] in *. auto.
Qed.

Lemma body_in_step include_zero_qty line sp sb sp' sb' :
  in_step sp sb ->
  ChartpakParser.body include_zero_qty line sp = Ok sp' ->
  body line sb = Ok sb' ->
  in_step sp' sb'.
Proof.
  destruct sp as [b items]. destruct sb as [[b0 regular] backorders].
  intros Hstep. pose proof Hstep as [Hb Hin]. cbn [fst snd] in Hb, Hin.
  subst b0. unfold ChartpakParser.body, body.
  assert (Hsame : forall b', in_step (b', items) (b', regular, backorders))
    by (intros b'; split; [reflexivity | exact Hin]).
  destruct (_ && _ && _); [intros [= <-] [= <-]; apply Hsame|].
  destruct (_ || _); [intros [= <-] [= <-]; apply Hsame|].
  destruct (b && _); [|intros [= <-] [= <-]; apply Hsame].
  destruct (Re.groups ChartpakParser.format1_re _) as [g1|];
    [|destruct (Re.groups ChartpakParser.format2_re _) as [g2|]].
  - destruct g1 as [|[a1|] g1]; try (intros [= <-] [= <-]; apply Hsame).
    destruct g1 as [|a2 g1]; try (intros [= <-] [= <-]; apply Hsame).
    destruct g1 as [|[a3|] g1]; try (intros [= <-] [= <-]; apply Hsame).
    destruct g1 as [|[a4|] g1]; try (intros [= <-] [= <-]; apply Hsame).
    destruct g1 as [|[a5|] g1]; try (intros [= <-] [= <-]; apply Hsame).
    destruct g1 as [|[a6|] g1]; try (intros [= <-] [= <-]; apply Hsame).
    destruct g1 as [|[a7|] g1]; try (intros [= <-] [= <-]; apply Hsame).
    destruct g1 as [|[a8|] g1]; try (intros [= <-] [= <-]; apply Hsame).
    destruct g1 as [|? ?]; try (intros [= <-] [= <-]; apply Hsame).
    unfold catch, mbind, outcome_bind, bind.
    destruct (int a1) as [shipped_qty|]; [|discriminate].
    destruct (if truthy_opt a2 then _ else _) as [backorder_qty|];
      [|discriminate].
    destruct (float_of_str a7) as [unit_price|e7].
    + destruct (float_of_str a8) as [total|e8].
      * destruct (float_of_str a5) as [retail|e5].
        -- destruct (0 <? shipped_qty) eqn:E.
           ++ apply Z.ltb_lt in E.
              replace (shipped_qty =? 0) with false
                by (symmetry; apply Z.eqb_neq; lia).
              cbn [andb]. intros [= <-] [= <-].
              split; [reflexivity|]. cbn [fst snd].
              intros x Hx. apply in_app_iff in Hx as [Hx|[<-|[]]].
              ** apply in_app_iff. left. auto.
              ** apply in_app_iff. right. now left.
           ++ destruct (_ && _); intros [= <-] [= <-];
                (eapply in_step_grow; [apply Hsame|]); intros it Hit;
                try apply in_app_iff; auto.
        -- destruct (is_ValueError e5); [|discriminate].
           destruct (_ && _); intros [= <-] [= <-];
             (eapply in_step_grow; [apply Hsame|]); intros it Hit;
             try apply in_app_iff; auto.
      * destruct (is_ValueError e8); [|destruct (_ && _); discriminate].
        destruct (_ && _); intros [= <-] [= <-]; apply Hsame.
    + destruct (is_ValueError e7); [|destruct (_ && _); discriminate].
      destruct (_ && _); intros [= <-] [= <-]; apply Hsame.
  - destruct g2 as [|[a1|] g2]; try (intros [= <-] [= <-]; apply Hsame).
    destruct g2 as [|[a2|] g2]; try (intros [= <-] [= <-]; apply Hsame).
    destruct g2 as [|[a3|] g2]; try (intros [= <-] [= <-]; apply Hsame).
    destruct g2 as [|[a4|] g2]; try (intros [= <-] [= <-]; apply Hsame).
    destruct g2 as [|[a5|] g2]; try (intros [= <-] [= <-]; apply Hsame).
    destruct g2 as [|[a6|] g2]; try (intros [= <-] [= <-]; apply Hsame).
    destruct g2 as [|[a7|] g2]; try (intros [= <-] [= <-]; apply Hsame).
    destruct g2 as [|? ?]; try (intros [= <-] [= <-]; apply Hsame).
    unfold catch, mbind, outcome_bind, bind.
    destruct (int a1) as [backorder_qty|]; [|discriminate].
    destruct (float_of_str a6) as [unit_price|e6].
    + destruct (float_of_str a4) as [retail|e4].
      * intros [= <-] [= <-]. eapply in_step_grow; [apply Hsame|].
        intros it Hit. apply in_app_iff. auto.
      * destruct (is_ValueError e4); [|discriminate].
        intros [= <-] [= <-]. eapply in_step_grow; [apply Hsame|].
        intros it Hit. apply in_app_iff. auto.
    + destruct (is_ValueError e6); [|discriminate].
      intros [= <-] [= <-]. apply Hsame.
  - intros [= <-] [= <-]. apply Hsame.
Qed.

Lemma for_each_in_step include_zero_qty lines : forall sp sb sp' sb',
  in_step sp sb ->
  for_each (ChartpakParser.body include_zero_qty) lines sp = Ok sp' ->
  for_each body lines sb = Ok sb' ->
  in_step sp' sb'.
Proof.
  induction lines as [|line lines IH]; intros sp sb sp' sb' Hs Hp Hb;
    simpl in Hp, Hb.
  - injection Hp as <-. injection Hb as <-. exact Hs.
  - apply bind_Ok in Hp as (sp1 & Hp1 & Hp).
    apply bind_Ok in Hb as (sb1 & Hb1 & Hb).
    eapply IH; [|exact Hp|exact Hb].
    eapply body_in_step; eauto.
Qed.

End BackorderSim.


Lemma chartpak_backorders_split_witness :
  exists regular_items backorder_items,
    ChartpakBackorders.parse_with_backorders chartpak_mixed
    = Ok (regular_items, backorder_items)
    /\ List.length regular_items = 2%nat
    /\ List.length backorder_items = 2%nat
    /\ Forall (fun b => exists z, quantity (line_item b) = Int z /\ 0 < z
                                  /\ backorder_quantity b = None)
         regular_items
    /\ Forall (fun b => exists q,
                  backorder_quantity b = Some q
                  /\ (0 < q \/ (quantity (line_item b) = Int 0
                                /\ total_amount (line_item b)
                                   = Some (float_of_Z 0))))
         backorder_items.
Proof.
  do 2 eexists. split; [vm_compute; reflexivity|].
  split; [reflexivity|]. split; [reflexivity|].
  apply (chartpak_backorders_split chartpak_mixed).
  vm_compute. reflexivity.
Defined.

(** X24.  Every regular item of Chartpak's [parse_with_backorders] is also
    an item of [parse] on the same document, whatever [include_zero_qty]
    is. *)
Theorem chartpak_shipped_also_parsed (doc : pdf) (include_zero_qty : bool)
  (items : list LineItem) (regular_items backorder_items : list BackorderItem) :
  ChartpakParser.parse doc include_zero_qty = Ok items ->
  ChartpakBackorders.parse_with_backorders doc
  = Ok (regular_items, backorder_items) ->
  forall b, In b regular_items -> In (line_item b) items.
Proof.
  unfold ChartpakParser.parse, ChartpakBackorders.parse_with_backorders.
  assert (G : forall found fb items' fb',
            (forall b, In b (fst fb) -> In (line_item b) found) ->
            over_pages (ChartpakParser.scan_page include_zero_qty) doc found
            = Ok items' ->
            ChartpakBackorders.over_pages doc fb = Ok fb' ->
            forall b, In b (fst fb') -> In (line_item b) items').
  { induction doc as [|p doc IH]; intros found fb items' fb' Hf Hp Hb;
      simpl in Hp, Hb.
    - injection Hp as <-. injection Hb as <-. exact Hf.
    - destruct (extract_text p) as [text|]; [|eauto].
      destruct (truthy text); [|eauto].
      apply bind_Ok in Hp as (f1 & Hp1 & Hp).
      apply bind_Ok in Hb as (s1 & Hb1 & Hb).
      unfold ChartpakParser.scan_page in Hp1.
      apply bind_Ok in Hp1 as (sp1 & Hp1 & E). injection E as <-.
      eapply IH; [|exact Hp|exact Hb]. cbn [fst].
      apply (BackorderSim.for_each_in_step include_zero_qty (lines_of text)
               (false, found) (false, fst fb, snd fb) sp1 s1);
        [split; [reflexivity | exact Hf] | exact Hp1 | exact Hb1]. }
  intros Hp Hb. apply (G [] ([], []) items (regular_items, backorder_items));
    [intros b [] | exact Hp | exact Hb].
Qed.

Lemma chartpak_shipped_also_parsed_witness :
  exists items regular_items backorder_items,
    ChartpakParser.parse chartpak_mixed false = Ok items
    /\ ChartpakBackorders.parse_with_backorders chartpak_mixed
       = Ok (regular_items, backorder_items)
    /\ List.length regular_items = 2%nat
    /\ forall b, In b regular_items -> In (line_item b) items.
Proof.
  do 3 eexists. split; [vm_compute; reflexivity|].
  split; [vm_compute; reflexivity|]. split; [reflexivity|].
  eapply (chartpak_shipped_also_parsed chartpak_mixed false);
    vm_compute; reflexivity.
Defined.

(** ** The Exaclair unit price *)

Module DecimalFacts.

Lemma num_digits_from_le n k : forall fuel j,
  1 <= j <= k -> n < 10 ^ k -> num_digits_from fuel j n <= k.
Proof.
  induction fuel as [|fuel IH]; intros j Hj Hn; simpl; [lia|].
  destruct (n <? 10 ^ j) eqn:E; [lia|].
  apply Z.ltb_ge in E. apply IH; [|exact Hn].
  assert (j < k); [|lia].
  destruct (Z.lt_ge_cases j k) as [|Hge]; [assumption|].
  assert (10 ^ k <= 10 ^ j) by (apply Z.pow_le_mono_r; lia). lia.
Qed.

Lemma num_digits_le n k : 1 <= k -> n < 10 ^ k -> num_digits n <= k.
Proof.
  intros Hk Hn. unfold num_digits. apply num_digits_from_le; [lia | exact Hn].
Qed.

Lemma num_digits_from_ge n : forall fuel j, j <= num_digits_from fuel j n.
Proof.
  induction fuel as [|fuel IH]; intros j; simpl; [lia|].
  destruct (n <? 10 ^ j); [lia|]. specialize (IH (j + 1)). lia.
Qed.

Lemma num_digits_pos n : 1 <= num_digits n.
Proof. apply num_digits_from_ge. Qed.

Lemma fix_prec_id d : dcoef d < 10 ^ prec -> fix_prec d = d.
Proof.
  intros H. unfold fix_prec.
  pose proof (num_digits_le (dcoef d) prec ltac:(unfold prec; lia) H) as K.
  apply Z.leb_le in K. now rewrite K.
Qed.

Lemma strip_zeros_pow k : forall fuel c e ideal,
  0 < c -> e + Z.of_nat k <= ideal ->
  strip_zeros (k + fuel) (c * 10 ^ Z.of_nat k) e ideal
  = strip_zeros fuel c (e + Z.of_nat k) ideal.
Proof.
  induction k as [|k IH]; intros fuel c e ideal Hc He.
  - simpl. rewrite Z.mul_1_r, Z.add_0_r. reflexivity.
  - rewrite Nat2Z.inj_succ in *. cbn [Nat.add strip_zeros].
    assert (E1 : (e <? ideal) = true) by (apply Z.ltb_lt; lia).
    rewrite Z.pow_succ_r by lia.
    replace (c * (10 * 10 ^ Z.of_nat k)) with ((c * 10 ^ Z.of_nat k) * 10)
      by ring.
    rewrite Z.mod_mul by lia. rewrite Z.div_mul by lia.
    rewrite E1. cbn [andb Z.eqb].
    rewrite IH by lia. f_equal. lia.
Qed.

Lemma strip_zeros_spec : forall fuel c e ideal,
  0 < c ->
  exists j, 0 <= j <= Z.of_nat fuel
            /\ c = fst (strip_zeros fuel c e ideal) * 10 ^ j
            /\ snd (strip_zeros fuel c e ideal) = e + j
            /\ 0 < fst (strip_zeros fuel c e ideal).
Proof.
  induction fuel as [|fuel IH]; intros c e ideal Hc.
  - exists 0. simpl. repeat split; lia.
  - cbn [strip_zeros].
    destruct ((e <? ideal) && (c mod 10 =? 0)) eqn:E.
    + apply andb_prop in E as [_ E]. apply Z.eqb_eq in E.
      assert (Hc10 : c = 10 * (c / 10)) by (apply Z.div_exact; lia).
      destruct (IH (c / 10) (e + 1) ideal ltac:(lia)) as (j & Hj & H1 & H2 & H3).
      exists (j + 1). repeat split; try lia.
      rewrite Z.pow_add_r by lia. rewrite Z.pow_1_r.
      rewrite Hc10 at 1. rewrite H1 at 1. ring.
    + exists 0. simpl. repeat split; lia.
Qed.

(** [Decimal("100.0")] *)
Definition hundred : decimal := Dec false 1000 (-1).

(** A coefficient and an exponent of twelve digits at most. *)
Definition small (d : decimal) : Prop :=
  dneg d = false /\ 0 <= dcoef d < 10 ^ 12 /\ -12 <= dexp d <= 0.

Lemma dec_div_hundred d :
  small d ->
  exists c j,
    dec_div d hundred = Dec false c (dexp d - 2 + j)
    /\ 0 <= j <= 3 /\ dcoef d = c * 10 ^ j /\ 0 <= c.
Proof.
  intros (Hneg & Hc & He). unfold dec_div, hundred. cbn [dneg dcoef dexp].
  rewrite Hneg. cbn [xorb].
  destruct (dcoef d =? 0) eqn:E0.
  - apply Z.eqb_eq in E0. exists 0, 3. rewrite fix_prec_id by (cbn [dcoef]; unfold prec; lia).
    repeat split; try lia. f_equal. lia.
  - apply Z.eqb_neq in E0.
    replace (num_digits 1000) with 4 by (vm_compute; reflexivity).
    pose proof (num_digits_pos (dcoef d)) as Hn1.
    pose proof (num_digits_le (dcoef d) 12 ltac:(lia) ltac:(lia)) as Hn2.
    set (nd := num_digits (dcoef d)) in *.
    set (shift := 4 - nd + prec + 1).
    assert (Hs : 21 <= shift <= 33) by (unfold shift, prec; lia).
    replace (0 <=? shift) with true by (symmetry; apply Z.leb_le; lia).
    assert (Hpow : 10 ^ shift = 10 ^ (shift - 3) * 1000).
    { replace shift with ((shift - 3) + 3) at 1 by lia.
      rewrite Z.pow_add_r by lia. reflexivity. }
    assert (Hq : dcoef d * 10 ^ shift / 1000 = dcoef d * 10 ^ (shift - 3)).
    { rewrite Hpow, Z.mul_assoc. apply Z.div_mul. lia. }
    assert (Hr : (dcoef d * 10 ^ shift) mod 1000 = 0).
    { rewrite Hpow, Z.mul_assoc. apply Z.mod_mul. lia. }
    rewrite Hq, Hr. cbn [Z.eqb negb].
    replace (Z.to_nat shift) with (Z.to_nat (shift - 3) + 3)%nat by lia.
    replace (10 ^ (shift - 3)) with (10 ^ Z.of_nat (Z.to_nat (shift - 3)))
      by (rewrite Z2Nat.id by lia; reflexivity).
    rewrite strip_zeros_pow by (rewrite ?Z2Nat.id by lia; lia).
    rewrite Z2Nat.id by lia.
    destruct (strip_zeros_spec 3 (dcoef d) (dexp d - -1 - shift + (shift - 3))
                (dexp d - -1) ltac:(lia)) as (j & Hj & H1 & H2 & H3).
    destruct (strip_zeros 3 _ _ _) as [c e'] eqn:Es. cbn [fst snd] in *.
    exists c, j.
    assert (Hcle : c <= dcoef d).
    { rewrite H1. assert (1 <= 10 ^ j) by (apply Z.pow_le_mono_r with (b := 0); lia || (change (10^0) with 1; lia)). nia. }
    rewrite fix_prec_id by (cbn [dcoef]; unfold prec; lia).
    repeat split; try lia. f_equal. lia.
Qed.

(** [p * 10^k] (for [0 <= p]) rounded to an integer, a half upward: the
    rounding [quantize] does, with [k] the exponent plus two. *)
Definition cents_of (p k : Z) : Z :=
  if 0 <=? k then p * 10 ^ k
  else let P := 10 ^ (- k) in
       if P <=? 2 * (p mod P) then p / P + 1 else p / P.

Lemma pow10_bounds e : 0 <= e <= 14 -> 1 <= 10 ^ e <= 10 ^ 14.
Proof.
  intros He. split.
  - change 1 with (10 ^ 0). apply Z.pow_le_mono_r; lia.
  - apply Z.pow_le_mono_r; lia.
Qed.

Lemma quantize_cents_small neg p e :
  0 <= p < 10 ^ 26 -> -26 <= e <= 0 ->
  quantize_cents (Dec neg p e) = Ok (Dec neg (cents_of p (e + 2)) (-2)).
Proof.
  intros Hp He. unfold quantize_cents, cents_of. cbn [dneg dcoef dexp].
  destruct (p =? 0) eqn:E0.
  { apply Z.eqb_eq in E0. subst p. f_equal. f_equal.
    destruct (0 <=? e + 2) eqn:A; [lia|]. cbv zeta. apply Z.leb_gt in A.
    assert (HP : 0 < 10 ^ (- (e + 2))) by (apply Z.pow_pos_nonneg; lia).
    rewrite Z.mod_0_l, Z.div_0_l by lia.
    destruct (_ <=? _) eqn:E; [|reflexivity]. apply Z.leb_le in E. lia. }
  pose proof (num_digits_le p 26 ltac:(lia) ltac:(lia)) as Hn.
  replace (prec <? num_digits p + e - 1 + 2 + 1) with false
    by (symmetry; apply Z.ltb_ge; unfold prec; lia).
  replace (-2 <=? e) with (0 <=? e + 2)
    by (destruct (0 <=? e + 2) eqn:A, (-2 <=? e) eqn:B; try reflexivity;
        [apply Z.leb_le in A; apply Z.leb_gt in B
        |apply Z.leb_gt in A; apply Z.leb_le in B]; lia).
  replace (-2 - e) with (- (e + 2)) by lia.
  set (c2 := if 0 <=? e + 2 then p * 10 ^ (e + 2) else _).
  assert (Hc2 : c2 < 10 ^ 28).
  { unfold c2. destruct (0 <=? e + 2) eqn:A.
    - apply Z.leb_le in A.
      assert (10 ^ (e + 2) <= 10 ^ 2) by (apply Z.pow_le_mono_r; lia).
      assert (0 < 10 ^ (e + 2)) by (apply Z.pow_pos_nonneg; lia).
      change (10 ^ 2) with 100 in *. nia.
    - apply Z.leb_gt in A.
      assert (HP : 1 <= 10 ^ (- (e + 2))).
      { change 1 with (10 ^ 0). apply Z.pow_le_mono_r; lia. }
      assert (p / 10 ^ (- (e + 2)) <= p).
      { apply Z.div_le_upper_bound; [lia|]. nia. }
      destruct (_ <=? _); lia. }
  pose proof (num_digits_le c2 28 ltac:(lia) Hc2) as Hn2.
  replace (prec <? num_digits c2) with false
    by (symmetry; apply Z.ltb_ge; unfold prec; lia).
  reflexivity.
Qed.

(** [retail * (1 - discount / 100)] in the arithmetic of the context: no
    step rounds, and the cents are those of [quantize]. *)
Lemma unit_price_of_small retail discount :
  small retail -> small discount ->
  exists cc e0 m,
    ExaclairParser.unit_price_of retail discount
    = Ok (Dec (cc <? 0) (cents_of (dcoef retail * Z.abs cc)
                           (dexp retail + e0 + 2)) (-2))
    /\ -14 <= e0 <= 0 /\ 0 <= m /\ e0 = dexp discount - 2 + m
    /\ cc * 10 ^ m = 10 ^ (2 - dexp discount) - dcoef discount.
Proof.
  intros Hr Hd. pose proof Hr as (Hrn & Hrc & Hre).
  pose proof Hd as (Hdn & Hdc & Hde).
  destruct (dec_div_hundred discount Hd) as (c & j & Hdiv & Hj & Hc & Hc0).
  unfold ExaclairParser.unit_price_of. fold hundred. rewrite Hdiv.
  unfold dec_sub. cbn [dexp dneg dcoef signed_coef].
  set (e' := dexp discount - 2 + j).
  set (e0 := Z.min 0 e').
  set (cc := 1 * 10 ^ (0 - e0) - c * 10 ^ (e' - e0)).
  assert (He0 : -14 <= e0 <= 0) by (unfold e0, e'; lia).
  assert (Hcle : c <= dcoef discount).
  { rewrite Hc. assert (1 <= 10 ^ j).
    { change 1 with (10 ^ 0). apply Z.pow_le_mono_r; lia. }
    nia. }
  pose proof (pow10_bounds (0 - e0) ltac:(lia)) as Hp0.
  assert (Hterm : 0 <= c * 10 ^ (e' - e0) < 10 ^ 12).
  { destruct (Z.le_gt_cases e' 0) as [Hle|Hgt].
    - replace (e' - e0) with 0 by (unfold e0; lia). change (10 ^ 0) with 1. lia.
    - assert (j = 3 /\ dexp discount = 0) as [-> Hz] by (unfold e' in Hgt; lia).
      replace (e' - e0) with 1 by (unfold e0, e'; lia).
      change (10 ^ 1) with 10. change (10 ^ 3) with 1000 in Hc. lia. }
  assert (Hcc : Z.abs cc <= 10 ^ 14) by (unfold cc; lia).
  rewrite (fix_prec_id (Dec (cc <? 0) (Z.abs cc) e0))
    by (cbn [dcoef]; unfold prec; lia).
  unfold dec_mul. cbn [dexp dneg dcoef]. rewrite Hrn. cbn [xorb].
  assert (Hp : 0 <= dcoef retail * Z.abs cc < 10 ^ 26).
  { split; [nia|].
    apply Z.le_lt_trans with (m := dcoef retail * 10 ^ 14); [nia|].
    change (10 ^ 26) with (10 ^ 12 * 10 ^ 14). nia. }
  rewrite fix_prec_id by (cbn [dcoef]; unfold prec; lia).
  rewrite quantize_cents_small by lia.
  exists cc, e0, (e0 - (dexp discount - 2)).
  split; [f_equal; f_equal; f_equal; lia|].
  split; [exact He0|]. split; [unfold e0, e'; lia|]. split; [lia|].
  (* cc * 10^(e0 - ea + 2) = 10^(2 - ea) - a *)
  unfold cc. rewrite Z.mul_sub_distr_r, Z.mul_1_l.
  rewrite <- Z.pow_add_r by (unfold e0, e'; lia).
  rewrite <- Z.mul_assoc, <- Z.pow_add_r by (unfold e0, e'; lia).
  replace (0 - e0 + (e0 - (dexp discount - 2))) with (2 - dexp discount) by lia.
  replace (e' - e0 + (e0 - (dexp discount - 2))) with j by (unfold e'; lia).
  now rewrite <- Hc.
Qed.

End DecimalFacts.

From Stdlib Require QArith Qround Qpower.

(** The price an exact computation gives. *)
Module Exact.

Import QArith Qround.

(** The number a decimal stands for. *)
Definition dec_value (d : decimal) : Q :=
  (inject_Z (signed_coef d) * 10 ^ dexp d)%Q.

(** The integer nearest to [q], a half rounded away from zero. *)
Definition round_half_up (q : Q) : Z :=
  if Qle_bool 0 q then Qfloor (q + (1 # 2))%Q
  else (- Qfloor (- q + (1 # 2))%Q)%Z.

(** [retail * (1 - discount / 100)] in cents, rounded half up. *)
Definition exact_cents (retail discount : decimal) : Z :=
  round_half_up
    (100 * (dec_value retail * (1 - dec_value discount / 100)))%Q.

End Exact.

Module ExactFacts.

Import QArith Qround Qpower DecimalFacts Exact.

#[local] Open Scope Z_scope.

Lemma cents_of_spec p k m :
  0 <= p -> 0 <= m -> k <= m ->
  cents_of p k = (2 * (p * 10 ^ m) + 10 ^ (m - k)) / (2 * 10 ^ (m - k)).
Proof.
  intros Hp Hm Hk. unfold cents_of.
  assert (HT : 0 < 10 ^ (m - k)) by (apply Z.pow_pos_nonneg; lia).
  destruct (0 <=? k) eqn:A.
  - apply Z.leb_le in A.
    replace (10 ^ m) with (10 ^ k * 10 ^ (m - k))
      by (rewrite <- Z.pow_add_r by lia; f_equal; lia).
    apply Z.div_unique with (r := 10 ^ (m - k)); [lia|]. ring.
  - apply Z.leb_gt in A. cbv zeta.
    assert (HP : 0 < 10 ^ (- k)) by (apply Z.pow_pos_nonneg; lia).
    assert (HM : 0 < 10 ^ m) by (apply Z.pow_pos_nonneg; lia).
    replace (10 ^ (m - k)) with (10 ^ m * 10 ^ (- k))
      by (rewrite <- Z.pow_add_r by lia; f_equal; lia).
    set (P := 10 ^ (- k)) in *. set (M := 10 ^ m) in *.
    pose proof (Z.div_mod p P ltac:(lia)) as Hdm.
    pose proof (Z.mod_pos_bound p P HP) as Hb.
    set (q := p / P) in *. set (r := p mod P) in *.
    destruct (P <=? 2 * r) eqn:B.
    + apply Z.leb_le in B.
      apply Z.div_unique with (r := M * (2 * r - P)); [nia|]. rewrite Hdm. ring.
    + apply Z.leb_gt in B.
      apply Z.div_unique with (r := M * (2 * r + P)); [nia|]. rewrite Hdm. ring.
Qed.

Lemma round_half_up_frac (n : Z) (d : positive) :
  round_half_up (n # d)
  = if 0 <=? n then (2 * n + Z.pos d) / (2 * Z.pos d)
    else - ((2 * (- n) + Z.pos d) / (2 * Z.pos d)).
Proof.
  unfold round_half_up, Qle_bool, Qfloor, Qplus, Qopp. cbn [Qnum Qden].
  rewrite Z.mul_0_l, Z.mul_1_r.
  destruct (0 <=? n); rewrite Pos2Z.inj_mul;
    [f_equal; lia | f_equal; f_equal; lia].
Qed.

Lemma round_half_up_comp q q' : (q == q')%Q -> round_half_up q = round_half_up q'.
Proof.
  intros E. unfold round_half_up.
  assert (Hle : Qle_bool 0 q = Qle_bool 0 q').
  { destruct (Qle_bool 0 q) eqn:A, (Qle_bool 0 q') eqn:B; try reflexivity.
    - apply Qle_bool_iff in A. rewrite E in A. apply Qle_bool_iff in A.
      congruence.
    - apply Qle_bool_iff in B. rewrite <- E in B. apply Qle_bool_iff in B.
      congruence. }
  rewrite Hle. destruct (Qle_bool 0 q'); now rewrite E.
Qed.

Lemma pow10_frac e :
  e <= 0 -> (10 ^ e == 1 # Z.to_pos (10 ^ (- e)))%Q.
Proof.
  intros He.
  assert (HP : 0 < 10 ^ (- e)) by (apply Z.pow_pos_nonneg; lia).
  replace e with (- (- e)) at 1 by lia.
  rewrite Qpower_opp.
  change 10%Q with (inject_Z 10).
  rewrite <- Zpower_Qpower by lia.
  destruct (10 ^ (- e)) as [|p|p] eqn:E; try lia.
  reflexivity.
Qed.

Lemma dec_value_frac d :
  dneg d = false -> dexp d <= 0 ->
  (dec_value d == dcoef d # Z.to_pos (10 ^ (- dexp d)))%Q.
Proof.
  intros Hn He. unfold dec_value, signed_coef. rewrite Hn, pow10_frac by exact He.
  unfold Qeq, Qmult, inject_Z. cbn [Qnum Qden]. rewrite Pos.mul_1_l. ring.
Qed.

Lemma exact_cents_frac retail discount :
  small retail -> small discount ->
  exact_cents retail discount
  = round_half_up
      (dcoef retail * (10 ^ (2 - dexp discount) - dcoef discount)
       # Z.to_pos (10 ^ (- dexp retail - dexp discount))).
Proof.
  intros (Hrn & Hrc & Hre) (Hdn & Hdc & Hde). unfold exact_cents.
  apply round_half_up_comp.
  rewrite (dec_value_frac retail Hrn ltac:(lia)).
  rewrite (dec_value_frac discount Hdn ltac:(lia)).
  assert (HR : 0 < 10 ^ (- dexp retail)) by (apply Z.pow_pos_nonneg; lia).
  assert (HD : 0 < 10 ^ (- dexp discount)) by (apply Z.pow_pos_nonneg; lia).
  replace (10 ^ (2 - dexp discount)) with (100 * 10 ^ (- dexp discount))
    by (replace (2 - dexp discount) with (2 + - dexp discount) by lia;
        rewrite Z.pow_add_r by lia; reflexivity).
  replace (10 ^ (- dexp retail - dexp discount))
    with (10 ^ (- dexp retail) * 10 ^ (- dexp discount))
    by (rewrite <- Z.pow_add_r by lia; f_equal; lia).
  rewrite Z2Pos.inj_mul by assumption.
  destruct (10 ^ (- dexp retail)) as [|R|R]; try lia.
  destruct (10 ^ (- dexp discount)) as [|D|D]; try lia.
  cbn [Z.to_pos].
  unfold Qeq, Qdiv, Qminus. cbn [Qinv Qnum Qden].
  unfold Qmult, Qplus, Qopp. cbn [Qnum Qden].
  rewrite ?Pos2Z.inj_mul. ring.
Qed.

(** The cents [quantize] gives, with their sign, are the exact price
    rounded half up. *)
Lemma unit_price_of_exact retail discount :
  small retail -> small discount ->
  exists u,
    ExaclairParser.unit_price_of retail discount = Ok u
    /\ dexp u = -2
    /\ signed_coef u = exact_cents retail discount.
Proof.
  intros Hr Hd.
  destruct (unit_price_of_small _ _ Hr Hd)
    as (cc & e0 & m & Hu & He0 & Hm & Hem & Hcc).
  eexists. split; [exact Hu|]. split; [reflexivity|].
  rewrite (exact_cents_frac _ _ Hr Hd), round_half_up_frac.
  destruct Hr as (Hrn & Hrc & Hre). destruct Hd as (Hdn & Hdc & Hde).
  set (D := 10 ^ (- dexp retail - dexp discount)).
  assert (HD : 0 < D) by (apply Z.pow_pos_nonneg; lia).
  rewrite Z2Pos.id by exact HD.
  assert (HM : 0 < 10 ^ m) by (apply Z.pow_pos_nonneg; lia).
  rewrite <- Hcc.
  rewrite (cents_of_spec _ _ m) by (try nia; lia).
  replace (m - (dexp retail + e0 + 2))
    with (- dexp retail - dexp discount) by lia.
  fold D. unfold signed_coef. cbn [dneg dcoef].
  set (cr := dcoef retail) in *.
  destruct (cc <? 0) eqn:Ec.
  - apply Z.ltb_lt in Ec.
    destruct (0 <=? cr * (cc * 10 ^ m)) eqn:En.
    + apply Z.leb_le in En.
      assert (H : cr = 0) by nia. rewrite H.
      rewrite !Z.mul_0_l, !Z.mul_0_r, !Z.add_0_l.
      rewrite Z.div_small by lia. reflexivity.
    + do 2 f_equal. f_equal. f_equal. rewrite Z.abs_neq by lia. ring.
  - apply Z.ltb_ge in Ec.
    replace (0 <=? cr * (cc * 10 ^ m)) with true
      by (symmetry; apply Z.leb_le; nia).
    do 2 f_equal. f_equal. rewrite Z.abs_eq by lia. ring.
Qed.

End ExactFacts.

Import DecimalFacts.

(** X25.  For a retail price and a discount that are decimals of twelve
    digits at most (sign plus, exponent from -12 to 0), the Exaclair unit
    price [retail * (1 - discount / 100)], quantized to cents, is the exact
    product rounded to the nearest cent, a half away from zero: no step of
    the decimal arithmetic rounds.  So 10.45 at 50.00 per cent is 5.23 and
    35.20 at 52.5 per cent is 16.72. *)
Theorem exaclair_unit_price_exact (retail_price discount_pct : decimal) :
  small retail_price -> small discount_pct ->
  exists unit_price,
    ExaclairParser.unit_price_of retail_price discount_pct = Ok unit_price
    /\ dexp unit_price = -2
    /\ signed_coef unit_price = Exact.exact_cents retail_price discount_pct.
Proof.
  intros Hr Hd.
  destruct (ExactFacts.unit_price_of_exact _ _ Hr Hd) as (u & Hu & He & Hc).
  exists u. repeat split; assumption.
Qed.

Lemma exaclair_unit_price_exact_witness :
  (exists unit_price,
     ExaclairParser.unit_price_of (Dec false 1045 (-2)) (Dec false 5000 (-2))
     = Ok unit_price
     /\ dexp unit_price = -2
     /\ signed_coef unit_price
        = Exact.exact_cents (Dec false 1045 (-2)) (Dec false 5000 (-2)))
  /\ Exact.exact_cents (Dec false 1045 (-2)) (Dec false 5000 (-2)) = 523
  /\ Exact.exact_cents (Dec false 3520 (-2)) (Dec false 525 (-1)) = 1672.
Proof.
  split; [|split; vm_compute; reflexivity].
  apply (exaclair_unit_price_exact (Dec false 1045 (-2)) (Dec false 5000 (-2)));
    unfold small; cbn [dneg dcoef dexp]; (split; [reflexivity | lia]).
Defined.

(** The bound on the digits is needed: a discount of 29 digits is rounded
    to the 28 of the context, and the cents differ from the exact ones. *)
Lemma precision_limit :
  ExaclairParser.unit_price_of (Dec false 1045 (-2))
    (Dec false 50000000000000000000000000001 (-27))
  = Ok (Dec false 523 (-2))
  /\ Exact.exact_cents (Dec false 1045 (-2))
       (Dec false 50000000000000000000000000001 (-27)) = 522.
Proof. split; vm_compute; reflexivity. Qed.

Module DecimalText.

Import PyFacts LineFacts DecimalFacts.

Lemma digits_val_lt ds :
  Forall (fun c => is_digit c = true) ds ->
  0 <= digits_val ds < 10 ^ Z.of_nat (List.length ds).
Proof.
  intros H. unfold digits_val.
  assert (G : forall acc, 0 <= acc ->
            0 <= fold_left (fun a c => 10 * a + digit_val c) ds acc
            < (acc + 1) * 10 ^ Z.of_nat (List.length ds)).
  { induction H as [|c l Hc Hl IH]; intros acc Hacc.
    - simpl. lia.
    - cbn [fold_left List.length]. rewrite Nat2Z.inj_succ, Z.pow_succ_r by lia.
      assert (Hd : 0 <= digit_val c <= 9).
      { unfold is_digit, in_range, digit_val in *.
        apply andb_prop in Hc as [H1 H2].
        apply N.leb_le in H1. apply N.leb_le in H2. lia. }
      specialize (IH (10 * acc + digit_val c) ltac:(lia)).
      assert (0 < 10 ^ Z.of_nat (List.length l))
        by (apply Z.pow_pos_nonneg; lia).
      nia. }
  specialize (G 0 ltac:(lia)). lia.
Qed.

Lemma span_digits_length l :
  (List.length (fst (span_digits l)) + List.length (snd (span_digits l))
   = List.length l)%nat.
Proof.
  induction l as [|c l IH]; [reflexivity|]. simpl.
  destruct (is_digit c); [|reflexivity].
  destruct (span_digits l) as [ds r]. simpl in *. lia.
Qed.

Lemma span_digits_rest {P : ascii -> Prop} l :
  Forall P l -> Forall P (snd (span_digits l)).
Proof.
  induction 1 as [|c l Hc Hl IH]; simpl; [constructor|].
  destruct (is_digit c); [|now constructor].
  destruct (span_digits l) as [ds r]. exact IH.
Qed.

Lemma ldrop_length p l : (List.length (ldrop p l) <= List.length l)%nat.
Proof.
  induction l as [|c l IH]; simpl; [lia|]. destruct (p c); simpl; lia.
Qed.

Lemma trim_length p l : (List.length (trim p l) <= List.length l)%nat.
Proof.
  unfold trim. rewrite length_rev.
  etransitivity; [apply ldrop_length|]. rewrite length_rev. apply ldrop_length.
Qed.

Lemma drop_underscores_length l :
  (List.length (drop_underscores l) <= List.length l)%nat.
Proof.
  unfold drop_underscores. induction l as [|c l IH]; simpl; [lia|].
  destruct (negb _); simpl; lia.
Qed.

(** [Decimal] of a text of digits and periods, twelve characters at most,
    is a small decimal. *)
Lemma Decimal_small s d :
  Forall (fun c => digit_or_dot c = true) (chars s) ->
  (String.length s <= 12)%nat ->
  Decimal s = Ok d -> small d.
Proof.
  intros Hs Hlen. unfold Decimal.
  set (l := drop_underscores (trim is_space (chars s))).
  assert (Hl : Forall (fun c => digit_or_dot c = true) l)
    by (apply Forall_drop_underscores, Forall_trim, Hs).
  assert (Hll : (List.length l <= 12)%nat).
  { unfold l. etransitivity; [apply drop_underscores_length|].
    etransitivity; [apply trim_length|]. now rewrite length_chars. }
  assert (Hsign : take_sign l = (false, l)).
  { destruct l as [|c body]; [reflexivity|].
    assert (Hc : digit_or_dot c = true) by (inversion Hl; assumption).
    unfold take_sign.
    destruct (Ascii.eqb c "-") eqn:E1;
      [apply Ascii.eqb_eq in E1; subst c; discriminate|].
    destruct (Ascii.eqb c "+") eqn:E2;
      [apply Ascii.eqb_eq in E2; subst c; discriminate|].
    reflexivity. }
  rewrite Hsign.
  pose proof (span_digits_digits l) as Hip.
  pose proof (span_digits_length l) as Lip.
  pose proof (span_digits_rest l Hl) as Hr1.
  destruct (span_digits l) as [ip r1]. cbn [fst snd] in Hip, Lip, Hr1.
  assert (Hfp : forall fp r2,
            match r1 with
            | [] => ([], [])
            | c :: r1' => if Ascii.eqb c "." then span_digits r1' else ([], r1)
            end = (fp, r2) ->
            Forall (fun c => is_digit c = true) fp
            /\ (List.length fp + List.length r2 <= List.length r1)%nat
            /\ Forall (fun c => digit_or_dot c = true) r2).
  { intros fp r2 E. destruct r1 as [|c r1'].
    - injection E as <- <-. repeat split; [constructor | simpl; lia |constructor].
    - destruct (Ascii.eqb c ".").
      + pose proof (span_digits_digits r1') as K.
        pose proof (span_digits_length r1') as L.
        assert (Hr1' : Forall (fun c => digit_or_dot c = true) r1')
          by (inversion Hr1; assumption).
        pose proof (span_digits_rest r1' Hr1') as R.
        rewrite E in K, L, R. cbn [fst snd] in K, L, R.
        repeat split; [exact K | simpl; lia | exact R].
      + injection E as <- <-. repeat split; [constructor | simpl; lia | exact Hr1]. }
  destruct (match r1 with
            | [] => ([], [])
            | c :: r1' => if Ascii.eqb c "." then span_digits r1' else ([], r1)
            end) as [fp r2].
  destruct (Hfp fp r2 eq_refl) as (Hfpd & Lfp & Hr2).
  destruct (ip ++ fp)%list as [|c0 ds] eqn:Eds; [discriminate|].
  destruct (take_exponent r2) as [ex|] eqn:Ex; [|discriminate].
  intros [= <-]. unfold small. cbn [dneg dcoef dexp].
  assert (Hds : Forall (fun c => is_digit c = true) (c0 :: ds)).
  { rewrite <- Eds. apply Forall_app. split; assumption. }
  pose proof (digits_val_lt _ Hds) as Hv.
  assert (Lds : (List.length (c0 :: ds) <= 12)%nat).
  { rewrite <- Eds, length_app. lia. }
  assert (Hex : ex = 0).
  { destruct r2 as [|c r2']; [simpl in Ex; congruence|].
    exfalso. unfold take_exponent in Ex.
    destruct (Ascii.eqb (lower_char c) "e") eqn:Ee; [|discriminate].
    assert (Hc : digit_or_dot c = true) by (inversion Hr2; assumption).
    rewrite (digit_or_dot_lower c Hc) in Ee.
    apply Ascii.eqb_eq in Ee. subst c. discriminate. }
  subst ex. split; [reflexivity|]. split.
  - split; [lia|]. apply Z.lt_le_trans with (1 := proj2 Hv).
    apply Z.pow_le_mono_r; lia.
  - split; [|lia].
    assert (List.length fp <= 12)%nat; [|lia].
    apply (f_equal (@List.length _)) in Eds. rewrite length_app in Eds.
    simpl in Eds. simpl in Lds. lia.
Qed.

End DecimalText.

Module ExaclairPrice.

Import ReSpec PyFacts LineFacts DecimalFacts DecimalText.

Definition exaclair_spec : group_spec :=
  fun i => match i with
           | 6%nat | 7%nat => (digit_dot_comma, 1%nat)
           | _ => (fun _ => true, 0%nat)
           end.

Lemma no_commas_digits s :
  Forall (fun c => digit_dot_comma c = true) (chars s) ->
  Forall (fun c => digit_or_dot c = true) (chars (replace "," "" s)).
Proof.
  intros Hs. rewrite chars_replace_empty.
  induction Hs as [|c l Hc Hl IH]; [constructor|].
  cbn [List.filter]. destruct (Ascii.eqb c ",") eqn:E; cbn [negb]; [exact IH|].
  constructor; [|exact IH].
  unfold digit_dot_comma in Hc. now rewrite E, orb_false_r in Hc.
Qed.

End ExaclairPrice.

(** X26.  When the Exaclair scanner appends a record for a line whose
    price and discount fields, commas removed, have twelve characters at
    most, the record's unit price is the float of the exact price in
    cents, rounded half up. *)
Theorem exaclair_record_price (include_zero_qty in_items : bool)
  (line : string) (items : list LineItem) (s' : bool * list LineItem)
  (ordered shipped backordered item_num description price disc total : string) :
  Re.groups ExaclairParser.pattern (strip line)
  = Some [Some ordered; Some shipped; Some backordered; Some item_num;
          Some description; Some price; Some disc; Some total] ->
  (String.length (replace "," "" price) <= 12)%nat ->
  (String.length (replace "," "" disc) <= 12)%nat ->
  ExaclairParser.body include_zero_qty line (in_items, items) = Ok s' ->
  snd s' = items
  \/ exists retail_price discount_pct cents it,
       Decimal (replace "," "" price) = Ok retail_price
       /\ Decimal (replace "," "" disc) = Ok discount_pct
       /\ snd s' = (items ++ [it])%list
       /\ unit_price it = Some (float_of_decimal cents)
       /\ dexp cents = -2
       /\ signed_coef cents
          = Exact.exact_cents retail_price discount_pct.
Proof.
  intros Hg Hp Hd. unfold ExaclairParser.body.
  destruct (_ || _); [intros [= <-]; now left|].
  destruct (in_items && (_ || _ || _)); [intros [= <-]; now left|].
  destruct (in_items && truthy _); [|intros [= <-]; now left].
  rewrite Hg. intros H.
  apply catch_Ok in H as [H|H]; [|injection H as <-; now left].
  apply bind_Ok in H as (qty & _ & H).
  destruct ((qty =? 0) && negb include_zero_qty);
    [injection H as <-; now left|].
  apply bind_Ok in H as (retail & Hr & H).
  apply bind_Ok in H as (discount & Hdi & H).
  apply bind_Ok in H as (u & Hu & H).
  apply bind_Ok in H as (tot & _ & H). injection H as <-. right.
  pose proof (ReFacts.groups_sound ExaclairPrice.exaclair_spec
                ExaclairParser.pattern _ _ ltac:(vm_compute; reflexivity) Hg)
    as G.
  destruct (G 5%nat price eq_refl) as [W6 _].
  destruct (G 6%nat disc eq_refl) as [W7 _].
  pose proof (DecimalText.Decimal_small _ _
                (ExaclairPrice.no_commas_digits _ W6) Hp Hr) as Sr.
  pose proof (DecimalText.Decimal_small _ _
                (ExaclairPrice.no_commas_digits _ W7) Hd Hdi) as Sd.
  destruct (ExactFacts.unit_price_of_exact retail discount Sr Sd)
    as (u' & Hu' & He & Hc).
  rewrite Hu in Hu'. injection Hu' as <-.
  exists retail, discount, u. eexists. repeat split; eauto.
Qed.

Lemma exaclair_record_price_witness :
  exists s',
    ExaclairParser.body true
      "10 10 0 68145C CLASSIC NBK WB R/MAR 50S 8X11 10.45 50.00 52.25"
      (true, []) = Ok s'
    /\ (snd s' = []
        \/ exists retail_price discount_pct cents it,
             Decimal (replace "," "" "10.45") = Ok retail_price
             /\ Decimal (replace "," "" "50.00") = Ok discount_pct
             /\ snd s' = ([] ++ [it])%list
             /\ unit_price it = Some (float_of_decimal cents)
             /\ dexp cents = -2
             /\ signed_coef cents
                = Exact.exact_cents retail_price discount_pct).
Proof.
  eexists. split; [vm_compute; reflexivity|].
  apply (exaclair_record_price true true
           "10 10 0 68145C CLASSIC NBK WB R/MAR 50S 8X11 10.45 50.00 52.25"
           [] _ "10" "10" "0" "68145C" "CLASSIC NBK WB R/MAR 50S 8X11"
           "10.45" "50.00" "52.25").
  - vm_compute. reflexivity.
  - vm_compute. lia.
  - vm_compute. lia.
  - vm_compute. reflexivity.
Defined.

(* ===================================================================== *)
(** * The repair of letter-spaced text *)
(* ===================================================================== *)

(** ** Substitution, pattern by pattern

    For a pattern without groups, what a match at a position consumes is a
    function of the text before and after the position; [re.sub] is then a
    scan of the text with that function. *)

Module SubFacts.

Import Re.

(** What a match at a position consumes, and what it leaves. *)
Definition local_match : Type :=
  bool -> list ascii -> list ascii -> option (list ascii * list ascii).

(** The leftmost match: the characters skipped, the characters matched and
    the rest. *)
Fixpoint scan (M : local_match) (must_advance : bool)
  (before after : list ascii) {struct after}
  : option (list ascii * list ascii * list ascii) :=
  match M must_advance before after with
  | Some (w, r) => Some ([], w, r)
  | None =>
      match after with
      | c :: after' =>
          match scan M false (c :: before) after' with
          | Some (sk, w, r) => Some (c :: sk, w, r)
          | None => None
          end
      | [] => None
      end
  end.

Section Pattern.

Variable rn : regex * nat.
Variable M : local_match.

(** [M] tells what [match_here] does, and splits the text it is given. *)
Hypothesis HM : forall ma before after,
  match_here rn ma before after
  = match M ma before after with
    | Some (w, r) => Some (MS (rev w ++ before) r (replicate (S (snd rn)) None))
    | None => None
    end.
Hypothesis Hsplit : forall ma before after w r,
  M ma before after = Some (w, r) -> after = (w ++ r)%list.

Lemma find_scan : forall after ma before,
  find rn ma before after
  = match scan M ma before after with
    | Some (sk, w, r) =>
        Some (start_state (snd rn) (rev sk ++ before) (w ++ r),
              MS (rev w ++ rev sk ++ before) r (replicate (S (snd rn)) None))
    | None => None
    end.
Proof.
  induction after as [|c after IH]; intros ma before; cbn [find scan];
    rewrite HM; destruct (M ma before _) as [[w r]|] eqn:E.
  - rewrite <- (Hsplit _ _ _ _ _ E). reflexivity.
  - reflexivity.
  - rewrite <- (Hsplit _ _ _ _ _ E). reflexivity.
  - rewrite IH. destruct (scan M false (c :: before) after) as [[[sk w] r]|];
      [|reflexivity].
    cbn [rev]. now rewrite <- !app_assoc.
Qed.

Lemma scan_split : forall after ma before sk w r,
  scan M ma before after = Some (sk, w, r) -> after = (sk ++ w ++ r)%list.
Proof.
  induction after as [|c after IH]; intros ma before sk w r; cbn [scan];
    destruct (M ma before _) as [[w0 r0]|] eqn:E.
  - intros [= <- <- <-]. apply (Hsplit _ _ _ _ _ E).
  - discriminate.
  - intros [= <- <- <-]. apply (Hsplit _ _ _ _ _ E).
  - destruct (scan M false (c :: before) after) as [[[sk0 w1] r1]|] eqn:Es;
      [|discriminate].
    intros [= <- <- <-]. cbn [app]. f_equal. eapply IH, Es.
Qed.

(** One round of [re.sub] with a constant replacement. *)
Lemma sub_from_scan fuel repl ma before after :
  sub_from (S fuel) rn (fun _ => repl) ma before after
  = match scan M ma before after with
    | Some (sk, w, r) =>
        (sk ++ chars repl
         ++ sub_from fuel rn (fun _ => repl)
              (match w with [] => true | _ => false end)
              (rev w ++ rev sk ++ before) r)%list
    | None => after
    end.
Proof.
  cbn [sub_from]. rewrite find_scan.
  destruct (scan M ma before after) as [[[sk w] r]|] eqn:E; [|reflexivity].
  pose proof (scan_split _ _ _ _ _ _ E) as Ha.
  unfold position, start_state. cbn [pre rest].
  rewrite !length_app, !length_rev.
  replace (List.length sk + List.length before - List.length before)%nat
    with (List.length sk) by lia.
  rewrite Ha, take_app_length. f_equal. f_equal.
  f_equal. destruct w as [|c w]; cbn [List.length].
  - apply Nat.eqb_eq. lia.
  - apply Nat.eqb_neq. lia.
Qed.

End Pattern.

End SubFacts.

(** ** The patterns of the Kenro repair *)

(** The longest prefix of characters of a class, and what follows it. *)
Fixpoint span (p : ascii -> bool) (l : list ascii)
  : list ascii * list ascii :=
  match l with
  | c :: l' =>
      if p c then let '(run, r) := span p l' in (c :: run, r) else ([], l)
  | [] => ([], [])
  end.

(** [re.sub(r"\s+", repl, text)]: each run of whitespace becomes [repl]. *)
Fixpoint squash (repl : list ascii) (in_run : bool) (l : list ascii)
  : list ascii :=
  match l with
  | [] => []
  | c :: l' =>
      if is_space c
      then ((if in_run then [] else repl) ++ squash repl true l')%list
      else c :: squash repl false l'
  end.

(** [re.sub(r"(?<=[a-z])(?=[A-Z])", " ", text)]: a space between a lower
    case letter and the upper case letter that follows it; [gap] tells that
    the character before is a lower case letter. *)
Fixpoint camel (gap : bool) (l : list ascii) : list ascii :=
  match l with
  | [] => []
  | c :: l' =>
      ((if gap && is_upper c then [" "%char] else [])
       ++ c :: camel (is_lower c) l')%list
  end.

(** [re.sub(r"/", " / ", text)] *)
Definition slashes (l : list ascii) : list ascii :=
  flat_map (fun c => if Ascii.eqb "/" c then chars " / " else [c]) l.

(** [(?:\w\s){3,}] matches at the start of [l]. *)
Definition six_spaced (l : list ascii) : bool :=
  match l with
  | a1 :: s1 :: a2 :: s2 :: a3 :: s3 :: _ =>
      is_word a1 && is_space s1 && is_word a2 && is_space s2
      && is_word a3 && is_space s3
  | _ => false
  end.

(** [\d\s+\d] matches at the start of [l]. *)
Definition digit_gap (l : list ascii) : bool :=
  match l with
  | d :: c :: l' =>
      is_digit d && is_space c
      && match snd (span is_space l') with
         | d' :: _ => is_digit d'
         | [] => false
         end
  | _ => false
  end.

(** A test that holds at some position of [l]. *)
Fixpoint anywhere (D : list ascii -> bool) (l : list ascii) : bool :=
  D l || match l with [] => false | _ :: l' => anywhere D l' end.

Module KenroText.

Import Re SubFacts.

Lemma cls_one (it : cls_item) (c : ascii) :
  cls_match false [it] c = item_match it c.
Proof. unfold cls_match. cbn [existsb xorb]. apply orb_false_r. Qed.

Lemma span_length p l : (List.length (snd (span p l)) <= List.length l)%nat.
Proof.
  induction l as [|c l IH]; cbn [span]; [cbn; lia|].
  destruct (p c); [|cbn; lia].
  destruct (span p l) as [run r]. cbn [snd List.length] in *. lia.
Qed.

(** A greedy run of one class, when the rest of the pattern accepts the
    end of the run. *)
Lemma rep_more_span (p q : ascii -> bool) (Hpq : forall c, p c = q c)
  (A : Type) (k : mstate -> option A) :
  forall fuel st a,
    (List.length (rest st) < fuel)%nat ->
    k (MS (rev (fst (span q (rest st))) ++ pre st)
          (snd (span q (rest st))) (caps st)) = Some a ->
    rep_more (step_char p) true fuel None A st k = Some a.
Proof.
  induction fuel as [|fuel IH]; intros [b l cs] a Hf Hk; [cbn in Hf; lia|].
  cbn [rep_more pre rest caps] in *. unfold step_char at 1. cbn [rest pre caps].
  destruct l as [|c l]; [exact Hk|].
  rewrite Hpq. cbn [span] in Hk. destruct (q c) eqn:Ec; [|exact Hk].
  cbn [rest List.length]. replace (_ <? _)%nat with true
    by (symmetry; apply Nat.ltb_lt; lia).
  cbn [option_map].
  rewrite (IH (MS (c :: b) l cs) a); [reflexivity | cbn in *; lia |].
  cbn [pre rest caps]. destruct (span q l) as [run r].
  cbn [fst snd rev] in *. rewrite <- app_assoc in Hk. exact Hk.
Qed.

(** The same run, when the rest of the pattern refuses a position inside
    the run. *)
Lemma rep_more_span_only (p q : ascii -> bool) (Hpq : forall c, p c = q c)
  (A : Type) (k : mstate -> option A)
  (Hk : forall b c l cs, q c = true -> k (MS b (c :: l) cs) = None) :
  forall fuel st,
    (List.length (rest st) < fuel)%nat ->
    rep_more (step_char p) true fuel None A st k
    = k (MS (rev (fst (span q (rest st))) ++ pre st)
            (snd (span q (rest st))) (caps st)).
Proof.
  induction fuel as [|fuel IH]; intros [b l cs] Hf; [cbn in Hf; lia|].
  cbn [rep_more pre rest caps] in *. unfold step_char at 1. cbn [rest pre caps].
  destruct l as [|c l]; [reflexivity|].
  rewrite Hpq. cbn [span]. destruct (q c) eqn:Ec; [|reflexivity].
  cbn [rest List.length]. replace (_ <? _)%nat with true
    by (symmetry; apply Nat.ltb_lt; lia).
  cbn [option_map].
  rewrite (IH (MS (c :: b) l cs)) by (cbn in *; lia).
  cbn [pre rest caps]. destruct (span q l) as [run r].
  cbn [fst snd rev]. rewrite <- app_assoc. cbn [app].
  destruct (k _); [reflexivity|]. now rewrite Hk.
Qed.

(** *** Runs of whitespace *)

Definition ws_re : regex * nat := (Rep 1 None true (Chr false [CSpace]), 0%nat).

Definition ws_match : local_match := fun _ _ after =>
  match after with
  | c :: l =>
      if is_space c
      then let '(run, r) := span is_space l in Some (c :: run, r)
      else None
  | [] => None
  end.

Lemma ws_match_here ma before after :
  match_here ws_re ma before after
  = match ws_match ma before after with
    | Some (w, r) =>
        Some (MS (rev w ++ before) r (replicate (S (snd ws_re)) None))
    | None => None
    end.
Proof.
  unfold match_here, ws_re, ws_match. cbn [fst snd rmatch rep_must option_map].
  unfold start_state, step_char at 1. cbn [rest pre caps].
  destruct after as [|c l]; [reflexivity|].
  rewrite cls_one. cbn [item_match]. destruct (is_space c); [|reflexivity].
  cbn [rest List.length].
  destruct (span is_space l) as [run r] eqn:E.
  apply (rep_more_span _ is_space (cls_one CSpace)); cbn [rest pre caps];
    [lia|].
  rewrite E. cbn [fst snd rev]. unfold position. cbn [pre].
  replace (_ =? _)%nat with false; [now rewrite andb_false_r, <- app_assoc|].
  symmetry. apply Nat.eqb_neq. rewrite !length_app. cbn. lia.
Qed.

Lemma span_app p l : (fst (span p l) ++ snd (span p l))%list = l.
Proof.
  induction l as [|c l IH]; cbn [span]; [reflexivity|].
  destruct (p c); [|reflexivity].
  destruct (span p l) as [run r]. cbn [fst snd app] in *. now rewrite IH.
Qed.

Lemma ws_match_split ma before after w r :
  ws_match ma before after = Some (w, r) -> after = (w ++ r)%list.
Proof.
  unfold ws_match. destruct after as [|c l]; [discriminate|].
  destruct (is_space c); [|discriminate].
  pose proof (span_app is_space l) as H.
  destruct (span is_space l) as [run r0]. intros [= <- <-].
  cbn [fst snd app] in *. now rewrite H.
Qed.

Lemma squash_span repl l :
  squash repl true l = squash repl false (snd (span is_space l)).
Proof.
  induction l as [|c l IH]; cbn [span squash]; [reflexivity|].
  destruct (is_space c) eqn:E.
  - destruct (span is_space l) as [run r]. cbn [snd app] in *. exact IH.
  - cbn [snd squash]. now rewrite E.
Qed.

Lemma ws_scan repl : forall after ma before,
  match scan ws_match ma before after with
  | Some (sk, w, r) =>
      squash repl false after = (sk ++ repl ++ squash repl false r)%list
      /\ (List.length r < List.length after)%nat
      /\ w <> []
  | None => squash repl false after = after
  end.
Proof.
  induction after as [|c l IH]; intros ma before; [reflexivity|].
  cbn [scan]. unfold ws_match at 1. cbn [squash].
  destruct (is_space c) eqn:E.
  - pose proof (span_length is_space l) as Hl.
    rewrite (squash_span repl l).
    destruct (span is_space l) as [run r]. cbn [snd] in *.
    split; [reflexivity|]. split; [cbn; lia | discriminate].
  - specialize (IH false (c :: before)).
    destruct (scan ws_match false (c :: before) l) as [[[sk w] r]|].
    + destruct IH as (H1 & H2 & H3). rewrite H1.
      split; [reflexivity|]. split; [cbn; lia | exact H3].
    + now rewrite IH.
Qed.

Lemma sub_from_ws repl : forall fuel after ma before,
  (List.length after < fuel)%nat ->
  sub_from fuel ws_re (fun _ => repl) ma before after
  = squash (chars repl) false after.
Proof.
  induction fuel as [|fuel IH]; intros after ma before Hf; [lia|].
  rewrite (sub_from_scan ws_re ws_match ws_match_here ws_match_split).
  pose proof (ws_scan (chars repl) after ma before) as H.
  destruct (scan ws_match ma before after) as [[[sk w] r]|]; [|now rewrite H].
  destruct H as (H1 & H2 & H3). rewrite H1, IH by lia. reflexivity.
Qed.

Lemma sub_ws repl s :
  Re.sub (Re.pattern "\s+") repl s = str (squash (chars repl) false (chars s)).
Proof.
  unfold Re.sub, sub_with.
  change (Re.pattern "\s+") with ws_re.
  rewrite sub_from_ws; [reflexivity|]. rewrite length_chars. lia.
Qed.

Lemma squash_nil : forall l b,
  squash [] b l = List.filter (fun c => negb (is_space c)) l.
Proof.
  induction l as [|c l IH]; intros b; cbn [squash List.filter]; [reflexivity|].
  destruct (is_space c); cbn [negb].
  - destruct b; cbn [app]; apply IH.
  - now rewrite IH.
Qed.

(** *** Slashes *)

Definition slash_re : regex * nat := (Chr false [CChar "/"], 0%nat).

Definition slash_match : local_match := fun _ _ after =>
  match after with
  | c :: r => if Ascii.eqb "/" c then Some ([c], r) else None
  | [] => None
  end.

Lemma slash_match_here ma before after :
  match_here slash_re ma before after
  = match slash_match ma before after with
    | Some (w, r) =>
        Some (MS (rev w ++ before) r (replicate (S (snd slash_re)) None))
    | None => None
    end.
Proof.
  unfold match_here, slash_re, slash_match. cbn [fst snd rmatch].
  unfold start_state, step_char. cbn [rest pre caps].
  destruct after as [|c l]; [reflexivity|].
  rewrite cls_one. cbn [item_match]. destruct (Ascii.eqb "/" c); [|reflexivity].
  unfold position. cbn [pre List.length rev app].
  replace (_ =? _)%nat with false; [now rewrite andb_false_r|].
  symmetry. apply Nat.eqb_neq. lia.
Qed.

Lemma slash_match_split ma before after w r :
  slash_match ma before after = Some (w, r) -> after = (w ++ r)%list.
Proof.
  unfold slash_match. destruct after as [|c l]; [discriminate|].
  destruct (Ascii.eqb "/" c); [|discriminate]. now intros [= <- <-].
Qed.

Lemma slash_scan : forall after ma before,
  match scan slash_match ma before after with
  | Some (sk, w, r) =>
      slashes after = (sk ++ chars " / " ++ slashes r)%list
      /\ (List.length r < List.length after)%nat
  | None => slashes after = after
  end.
Proof.
  induction after as [|c l IH]; intros ma before; [reflexivity|].
  cbn [scan]. unfold slash_match at 1, slashes. cbn [flat_map].
  fold (slashes l).
  destruct (Ascii.eqb "/" c) eqn:E.
  - split; [reflexivity | cbn; lia].
  - specialize (IH false (c :: before)).
    destruct (scan slash_match false (c :: before) l) as [[[sk w] r]|].
    + destruct IH as (H1 & H2). rewrite H1. split; [reflexivity | cbn; lia].
    + now rewrite IH.
Qed.

Lemma sub_from_slash : forall fuel after ma before,
  (List.length after < fuel)%nat ->
  sub_from fuel slash_re (fun _ => " / ") ma before after = slashes after.
Proof.
  induction fuel as [|fuel IH]; intros after ma before Hf; [lia|].
  rewrite (sub_from_scan slash_re slash_match slash_match_here
             slash_match_split).
  pose proof (slash_scan after ma before) as H.
  destruct (scan slash_match ma before after) as [[[sk w] r]|];
    [|now rewrite H].
  destruct H as (H1 & H2). rewrite H1, IH by lia. reflexivity.
Qed.

Lemma sub_slash s :
  Re.sub (Re.pattern "/") " / " s = str (slashes (chars s)).
Proof.
  unfold Re.sub, sub_with. change (Re.pattern "/") with slash_re.
  rewrite sub_from_slash; [reflexivity|]. rewrite length_chars. lia.
Qed.

(** *** The gap between a lower case and an upper case letter *)

Definition camel_re : regex * nat :=
  (Seq (Behind false [CRange "a" "z"]) (Ahead (Chr false [CRange "A" "Z"])),
   0%nat).

Definition lower_last (before : list ascii) : bool :=
  match before with p :: _ => is_lower p | [] => false end.

Definition upper_next (after : list ascii) : bool :=
  match after with c :: _ => is_upper c | [] => false end.

Definition camel_match : local_match := fun ma before after =>
  if negb ma && lower_last before && upper_next after
  then Some ([], after) else None.

Lemma camel_match_here ma before after :
  match_here camel_re ma before after
  = match camel_match ma before after with
    | Some (w, r) =>
        Some (MS (rev w ++ before) r (replicate (S (snd camel_re)) None))
    | None => None
    end.
Proof.
  unfold match_here, camel_re, camel_match, lower_last, upper_next.
  cbn [fst snd rmatch]. unfold start_state, step_char. cbn [rest pre caps].
  rewrite Nat.eqb_refl, andb_true_r.
  destruct before as [|p before];
    [now rewrite andb_false_r|].
  rewrite cls_one. cbn [item_match].
  change (in_range (code "a") (code "z") p) with (is_lower p).
  destruct (is_lower p); [|now rewrite andb_false_r].
  destruct after as [|c l]; [now rewrite andb_false_r|].
  rewrite cls_one. cbn [item_match].
  change (in_range (code "A") (code "Z") c) with (is_upper c).
  destruct (is_upper c); [|now rewrite andb_false_r].
  destruct ma; reflexivity.
Qed.

Lemma camel_match_split ma before after w r :
  camel_match ma before after = Some (w, r) -> after = (w ++ r)%list.
Proof.
  unfold camel_match. destruct (_ && _); [|discriminate]. now intros [= <- <-].
Qed.

Lemma camel_scan : forall after ma before,
  match scan camel_match ma before after with
  | Some (sk, w, r) =>
      camel (negb ma && lower_last before) after
      = (sk ++ chars " " ++ camel false r)%list
      /\ w = []
      /\ (2 * List.length r
          < 2 * List.length after + (if ma then 0 else 1))%nat
  | None => camel (negb ma && lower_last before) after = after
  end.
Proof.
  induction after as [|c l IH]; intros ma before.
  - cbn [scan]. unfold camel_match, upper_next. rewrite andb_false_r.
    reflexivity.
  - cbn [scan]. unfold camel_match at 1. cbn [upper_next camel].
    destruct (negb ma && lower_last before && is_upper c) eqn:E.
    + apply andb_prop in E as [E1 E2].
      split; [reflexivity|]. split; [reflexivity|].
      destruct ma; [discriminate E1|]. cbn [List.length]. lia.
    + cbn [app].
      specialize (IH false (c :: before)). cbn [negb lower_last andb] in IH.
      destruct (scan camel_match false (c :: before) l) as [[[sk w] r]|].
      * destruct IH as (H1 & H2 & H3). rewrite H1.
        split; [reflexivity|]. split; [exact H2|].
        cbn [List.length]. destruct ma; lia.
      * now rewrite IH.
Qed.

Lemma sub_from_camel : forall fuel after (ma : bool) before,
  (2 * List.length after + (if ma then 0 else 1) < fuel)%nat ->
  sub_from fuel camel_re (fun _ => " ") ma before after
  = camel (negb ma && lower_last before) after.
Proof.
  induction fuel as [|fuel IH]; intros after ma before Hf; [lia|].
  rewrite (sub_from_scan camel_re camel_match camel_match_here
             camel_match_split).
  pose proof (camel_scan after ma before) as H.
  destruct (scan camel_match ma before after) as [[[sk w] r]|];
    [|now rewrite H].
  destruct H as (H1 & -> & H3). rewrite H1, IH by lia. reflexivity.
Qed.

Lemma sub_camel s :
  Re.sub (Re.pattern "(?<=[a-z])(?=[A-Z])") " " s
  = str (camel false (chars s)).
Proof.
  unfold Re.sub, sub_with.
  change (Re.pattern "(?<=[a-z])(?=[A-Z])") with camel_re.
  rewrite sub_from_camel; [reflexivity|]. rewrite length_chars. lia.
Qed.

(** *** Detection *)

Section Detect.

Variable rn : regex * nat.
Variable D : list ascii -> bool.

Hypothesis HD : forall before after,
  match match_here rn false before after with
  | Some _ => true
  | None => false
  end = D after.

Lemma find_anywhere : forall after before,
  match find rn false before after with Some _ => true | None => false end
  = anywhere D after.
Proof.
  induction after as [|c l IH]; intros before; cbn [find anywhere];
    rewrite <- (HD before); destruct (match_here rn false before _);
    try reflexivity.
  apply IH.
Qed.

Lemma re_found_anywhere s :
  KenroParser.re_found rn s = anywhere D (chars s).
Proof.
  unfold KenroParser.re_found, search. rewrite <- (find_anywhere _ []).
  destruct (find rn false [] (chars s)) as [[st st']|]; reflexivity.
Qed.

End Detect.

Lemma rep_more_total (body : matcher) greedy fuel budget
  (st : mstate) (k : mstate -> option mstate) :
  (forall st', k st' <> None) ->
  rep_more body greedy fuel budget mstate st k <> None.
Proof.
  intros Hk. destruct fuel as [|fuel]; cbn [rep_more]; [apply Hk|].
  destruct budget as [[|n]|]; try apply Hk;
    (destruct greedy;
     [destruct (body _ _ _); [discriminate | apply Hk]
     |destruct (k st) eqn:E; [discriminate | now apply Hk in E]]).
Qed.

Definition spaced_six_re : regex * nat :=
  (Rep 3 None true (Seq (Chr false [CWord]) (Chr false [CSpace])), 0%nat).

Lemma spaced_here before after :
  match match_here spaced_six_re false before after with
  | Some _ => true
  | None => false
  end = six_spaced after.
Proof.
  unfold match_here, spaced_six_re, six_spaced.
  cbn [fst snd rmatch rep_must option_map andb].
  unfold start_state, step_char. cbn [rest pre caps].
  destruct after as [|a1 [|s1 [|a2 [|s2 [|a3 [|s3 l]]]]]];
    rewrite ?cls_one; cbn [item_match]; try reflexivity;
    repeat match goal with
           | |- context [if ?b then _ else _] =>
               lazymatch b with
               | is_word _ => destruct b
               | is_space _ => destruct b
               end; cbn [andb]; try reflexivity
           end.
  all: match goal with
       | |- match ?m with _ => _ end = _ => assert (H : m <> None)
       end.
  all: try (apply rep_more_total; discriminate).
  all: destruct (rep_more _ _ _ _ _ _ _); [reflexivity | now destruct H].
Qed.

Definition digit_gap_re : regex * nat :=
  (Seq (Chr false [CDigit])
     (Seq (Rep 1 None true (Chr false [CSpace])) (Chr false [CDigit])),
   0%nat).

Lemma digit_not_space c : is_space c = true -> is_digit c = false.
Proof.
  unfold is_space, is_digit, in_range. generalize (code c). intros n H.
  rewrite !orb_true_iff, !andb_true_iff, !N.leb_le, !N.eqb_eq in H.
  rewrite andb_false_iff, !N.leb_gt. lia.
Qed.

Lemma digit_gap_here before after :
  match match_here digit_gap_re false before after with
  | Some _ => true
  | None => false
  end = digit_gap after.
Proof.
  unfold match_here, digit_gap_re, digit_gap.
  cbn [fst snd rmatch rep_must option_map andb].
  unfold start_state, step_char at 1. cbn [rest pre caps].
  destruct after as [|d [|c l]]; [reflexivity | |].
  - rewrite cls_one. cbn [item_match].
    destruct (is_digit d); reflexivity.
  - rewrite cls_one. cbn [item_match].
    destruct (is_digit d); [|reflexivity]. cbn [andb].
    unfold step_char at 1. cbn [rest pre caps].
    rewrite cls_one. cbn [item_match].
    destruct (is_space c); [|reflexivity]. cbn [andb rest List.length].
    rewrite (rep_more_span_only _ is_space (cls_one CSpace));
      [| |cbn [rest]; lia].
    + unfold step_char. cbn [rest pre caps].
      destruct (snd (span is_space l)) as [|d' r]; [reflexivity|].
      rewrite cls_one. cbn [item_match]. destruct (is_digit d'); reflexivity.
    + intros b c0 l0 cs Hc. unfold step_char. cbn [rest].
      rewrite cls_one. cbn [item_match]. now rewrite (digit_not_space c0 Hc).
Qed.

End KenroText.

Import KenroText.

(** X27.  [despace_sku] removes the white-space characters of its text
    (those of [str.isspace], the no-break space among them) and nothing
    else: what is left keeps its order. *)
Theorem despace_sku_removes_whitespace (text : string) :
  KenroParser.despace_sku text
  = str (List.filter (fun c => negb (is_space c)) (chars text)).
Proof.
  unfold KenroParser.despace_sku. rewrite sub_ws. f_equal.
  change (chars "") with (@nil ascii). apply squash_nil.
Qed.

(** X28.  [despace_and_format_desc] is, on the text without its white
    space: a space between each lower case letter from a to z and the
    upper case letter from A to Z after it, then each slash set between
    two spaces, then each run of white space made one space, then the
    strip. *)
Theorem despace_and_format_desc_steps (text : string) :
  KenroParser.despace_and_format_desc text
  = strip (str (squash [" "%char] false
                  (slashes
                     (camel false
                        (List.filter (fun c => negb (is_space c))
                           (chars text)))))).
Proof.
  unfold KenroParser.despace_and_format_desc.
  rewrite !sub_ws, sub_camel, sub_slash, !ReFacts.chars_str.
  change (chars "") with (@nil ascii). rewrite squash_nil. reflexivity.
Qed.

(** X29.  The test for letter-spaced text, [re.search(r"(?:\w\s){3,}", s)],
    finds a match exactly when [s] has, somewhere, three times a word
    character followed by a white-space character, where the word
    characters are those of [str.isalnum] and the underscore, and the
    white-space characters those of [str.isspace]. *)
Theorem spaced_text_detection (s : string) :
  KenroParser.re_found KenroParser.spaced_re s
  = anywhere six_spaced (chars s).
Proof.
  apply (re_found_anywhere spaced_six_re six_spaced spaced_here).
Qed.

(** X30.  The test for spaced numbers, [re.search(r"\d\s+\d", s)], finds
    a match exactly when [s] has, somewhere, a digit from 0 to 9, white
    space (of [str.isspace]) and such a digit; the number is then
    rewritten without its white space, and is left as it is otherwise. *)
Theorem spaced_number_repair (s : string) :
  KenroParser.despaced_number s
  = if anywhere digit_gap (chars s)
    then str (List.filter (fun c => negb (is_space c)) (chars s))
    else s.
Proof.
  unfold KenroParser.despaced_number.
  rewrite (re_found_anywhere digit_gap_re digit_gap digit_gap_here).
  destruct (anywhere digit_gap (chars s)); [|reflexivity].
  rewrite sub_ws. f_equal. change (chars "") with (@nil ascii).
  apply squash_nil.
Qed.

(** A description, a number and a code spaced with no-break spaces
    (U+00A0). *)
Example no_break_space_sample :
  let nbsp := String "160" "" in
  KenroParser.despace_sku ("A" +:+ nbsp +:+ "B " +:+ String "133" "C")
  = "ABC"
  /\ KenroParser.re_found KenroParser.spaced_re
       ("E" +:+ nbsp +:+ "s" +:+ nbsp +:+ "t" +:+ nbsp +:+ "e") = true
  /\ KenroParser.despaced_number ("1" +:+ nbsp +:+ "2") = "12"
  /\ KenroParser.despace_and_format_desc
       ("E" +:+ nbsp +:+ "s" +:+ nbsp +:+ "t" +:+ nbsp +:+ "e" +:+ nbsp
        +:+ "r" +:+ nbsp +:+ "P" +:+ nbsp +:+ "e" +:+ nbsp +:+ "n")
     = "Ester Pen".
Proof. vm_compute. repeat split. Qed.

(* ===================================================================== *)
(** * The unit price of Exaclair and the repair of Kenro, as claimed *)
(* ===================================================================== *)

Module ExaclairRecord.

Import ReSpec PyFacts LineFacts DecimalFacts DecimalText ExaclairPrice.

(** What a turn of the loop appends for a line that matches the
    pattern. *)
Lemma exaclair_body_record (include_zero_qty in_items : bool)
  (line : string) (items : list LineItem) (s' : bool * list LineItem)
  (ordered shipped backordered item_num description price disc total : string) :
  Re.groups ExaclairParser.pattern (strip line)
  = Some [Some ordered; Some shipped; Some backordered; Some item_num;
          Some description; Some price; Some disc; Some total] ->
  ExaclairParser.body include_zero_qty line (in_items, items) = Ok s' ->
  snd s' = items
  \/ exists retail_price discount_pct cents it,
       Decimal (replace "," "" price) = Ok retail_price
       /\ Decimal (replace "," "" disc) = Ok discount_pct
       /\ ExaclairParser.unit_price_of retail_price discount_pct = Ok cents
       /\ snd s' = (items ++ [it])%list
       /\ unit_price it = Some (float_of_decimal cents).
Proof.
  intros Hg. unfold ExaclairParser.body.
  destruct (_ || _); [intros [= <-]; now left|].
  destruct (in_items && (_ || _ || _)); [intros [= <-]; now left|].
  destruct (in_items && truthy _); [|intros [= <-]; now left].
  rewrite Hg. intros H.
  apply catch_Ok in H as [H|H]; [|injection H as <-; now left].
  apply bind_Ok in H as (qty & _ & H).
  destruct ((qty =? 0) && negb include_zero_qty);
    [injection H as <-; now left|].
  apply bind_Ok in H as (retail & Hr & H).
  apply bind_Ok in H as (discount & Hdi & H).
  apply bind_Ok in H as (u & Hu & H).
  apply bind_Ok in H as (tot & _ & H). injection H as <-. right.
  exists retail, discount, u. eexists. repeat split; eauto.
Qed.

End ExaclairRecord.

Definition exaclair_long_discount : string :=
  "10 10 0 68145C CLASSIC NBK WB 10.45 50.000000000000000000000000001 52.25".

(** C4, as stated, fails: with a discount of 29 digits the quotient by 100
    is rounded to the 28 digits of the decimal context, and the record of
    the line has the unit price 5.23 where the exact product,
    5.2249999..., rounds to 5.22. *)
Lemma C4_counterexample :
  exists it retail_price discount_pct x,
    ExaclairParser.body true exaclair_long_discount (true, [])
    = Ok (true, [it])
    /\ Decimal "10.45" = Ok retail_price
    /\ Decimal "50.000000000000000000000000001" = Ok discount_pct
    /\ Exact.exact_cents retail_price discount_pct = 522
    /\ unit_price it = Some x
    /\ float_of_str "5.23" = Ok x
    /\ float_of_str "5.22" <> Ok x.
Proof.
  do 4 eexists. split; [vm_compute; reflexivity|].
  split; [vm_compute; reflexivity|]. split; [vm_compute; reflexivity|].
  split; [vm_compute; reflexivity|]. split; [reflexivity|].
  split; [vm_compute; reflexivity|]. vm_compute. discriminate.
Qed.

(** C4 (as amended).  For an Exaclair line whose price and discount
    fields, thousands separators removed, have twelve characters at most,
    the unit price of the record is the float of the exact value
    retail * (1 - discount / 100) rounded half up to cents: no step of the
    decimal arithmetic rounds.  The line of the source's example, 10.45 at
    50.00 per cent, gives 5.23, and 35.20 at 52.5 per cent gives 16.72. *)
Theorem C4_exaclair_unit_price (include_zero_qty in_items : bool)
  (line : string) (items : list LineItem) (s' : bool * list LineItem)
  (ordered shipped backordered item_num description price disc total : string) :
  Re.groups ExaclairParser.pattern (strip line)
  = Some [Some ordered; Some shipped; Some backordered; Some item_num;
          Some description; Some price; Some disc; Some total] ->
  (String.length (replace "," "" price) <= 12)%nat ->
  (String.length (replace "," "" disc) <= 12)%nat ->
  ExaclairParser.body include_zero_qty line (in_items, items) = Ok s' ->
  (snd s' = items
   \/ exists retail_price discount_pct cents it,
        Decimal (replace "," "" price) = Ok retail_price
        /\ Decimal (replace "," "" disc) = Ok discount_pct
        /\ snd s' = (items ++ [it])%list
        /\ unit_price it = Some (float_of_decimal cents)
        /\ dexp cents = -2
        /\ signed_coef cents
           = Exact.exact_cents retail_price discount_pct)
  /\ (exists it x,
        ExaclairParser.body include_zero_qty
          "10 10 0 68145C CLASSIC NBK WB R/MAR 50S 8X11 10.45 50.00 52.25"
          (true, []) = Ok (true, [it])
        /\ unit_price it = Some x /\ float_of_str "5.23" = Ok x)
  /\ (exists it x,
        ExaclairParser.body include_zero_qty
          "4 4 0 68150C CLASSIC NBK WB R/MAR 80S 8X11 35.20 52.5 66.88"
          (true, []) = Ok (true, [it])
        /\ unit_price it = Some x /\ float_of_str "16.72" = Ok x).
Proof.
  intros Hg Hp Hd H. split; [|split].
  - destruct (ExaclairRecord.exaclair_body_record _ _ _ _ _ _ _ _ _ _ _ _ _
                Hg H)
      as [E | (retail & discount & cents & it & Hr & Hdi & Hu & Hs & Hf)];
      [now left | right].
    pose proof (ReFacts.groups_sound ExaclairPrice.exaclair_spec
                  ExaclairParser.pattern _ _ ltac:(vm_compute; reflexivity) Hg)
      as G.
    destruct (G 5%nat price eq_refl) as [W6 _].
    destruct (G 6%nat disc eq_refl) as [W7 _].
    pose proof (DecimalText.Decimal_small _ _
                  (ExaclairPrice.no_commas_digits _ W6) Hp Hr) as Sr.
    pose proof (DecimalText.Decimal_small _ _
                  (ExaclairPrice.no_commas_digits _ W7) Hd Hdi) as Sd.
    destruct (ExactFacts.unit_price_of_exact retail discount Sr Sd)
      as (u' & Hu' & He & Hc).
    rewrite Hu in Hu'. injection Hu' as <-.
    exists retail, discount, cents, it. repeat split; assumption.
  - destruct include_zero_qty; do 2 eexists;
      (split; [vm_compute; reflexivity|]);
      (split; [reflexivity | vm_compute; reflexivity]).
  - destruct include_zero_qty; do 2 eexists;
      (split; [vm_compute; reflexivity|]);
      (split; [reflexivity | vm_compute; reflexivity]).
Qed.

Lemma C4_witness :
  exists s',
    ExaclairParser.body true
      "4 4 0 68150C CLASSIC NBK WB R/MAR 80S 8X11 35.20 52.5 66.88"
      (true, []) = Ok s'
    /\ exists retail_price discount_pct cents it,
         Decimal "35.20" = Ok retail_price
         /\ Decimal "52.5" = Ok discount_pct
         /\ snd s' = [it]
         /\ unit_price it = Some (float_of_decimal cents)
         /\ dexp cents = -2
         /\ signed_coef cents = 1672.
Proof.
  eexists. split; [vm_compute; reflexivity|].
  destruct (proj1 (C4_exaclair_unit_price true true
              "4 4 0 68150C CLASSIC NBK WB R/MAR 80S 8X11 35.20 52.5 66.88"
              [] _ "4" "4" "0" "68150C" "CLASSIC NBK WB R/MAR 80S 8X11"
              "35.20" "52.5" "66.88"
              ltac:(vm_compute; reflexivity) ltac:(vm_compute; lia)
              ltac:(vm_compute; lia) ltac:(vm_compute; reflexivity)))
    as [E | (retail & discount & cents & it & H1 & H2 & H3 & H4 & H5 & H6)].
  - vm_compute in E. discriminate E.
  - exists retail, discount, cents, it.
    change (replace "," "" "35.20") with "35.20" in H1.
    change (replace "," "" "52.5") with "52.5" in H2.
    repeat split; try assumption.
    rewrite H6. vm_compute in H1, H2.
    injection H1 as <-. injection H2 as <-. vm_compute. reflexivity.
Defined.

(** C9, as stated, fails: the repair ends with a strip (and makes every
    run of white space one space), so a description that starts with a
    slash comes out without the space before the slash. *)
Lemma C9_counterexample :
  KenroParser.re_found KenroParser.spaced_re "/ a b c d" = true
  /\ KenroParser.repaired_desc "/ a b c d" = "/ abcd"
  /\ str (slashes
            (camel false
               (List.filter (fun c => negb (is_space c))
                  (chars "/ a b c d")))) = " / abcd".
Proof. repeat split; vm_compute; reflexivity. Qed.

(** C9 (as amended).  A Kenro description is repaired exactly when it has,
    somewhere, three times a word character followed by a white-space
    character.  The repair removes all white space, sets a space between
    each lower case letter and the upper case letter after it, sets each
    slash between two spaces, and then makes every run of white space one
    space and strips the ends; a description that is not letter-spaced is
    left as it is.  So E s t e r b r o o k becomes Esterbrook. *)
Theorem C9_letter_spaced_repair (description : string) :
  KenroParser.repaired_desc description
  = (if anywhere six_spaced (chars description)
     then strip (str (squash [" "%char] false
                        (slashes
                           (camel false
                              (List.filter (fun c => negb (is_space c))
                                 (chars description))))))
     else description)
  /\ anywhere six_spaced (chars "E s t e r b r o o k") = true
  /\ KenroParser.repaired_desc "E s t e r b r o o k" = "Esterbrook".
Proof.
  split; [|split; vm_compute; reflexivity].
  unfold KenroParser.repaired_desc.
  rewrite (re_found_anywhere spaced_six_re six_spaced spaced_here).
  destruct (anywhere six_spaced (chars description)); [|reflexivity].
  unfold KenroParser.despace_and_format_desc.
  rewrite !sub_ws, sub_camel, sub_slash, !ReFacts.chars_str.
  change (chars "") with (@nil ascii). rewrite squash_nil. reflexivity.
Qed.
